(** * The OLT device of the 25G simulator: resource ledgers, flows, reboot

    A shallow embedding of [internal/bbsim/devices/olt.go].  The device is a
    record that is threaded through every operation; a Go panic (assignment
    into a nil map, nil pointer dereference, closing a closed channel) and a
    [Fatal] log both end the process and are the outer [None] of a result,
    while an [error] value returned to the caller is the inner option. *)

From stdpp Require Import base option list gmap fin_maps strings pretty.
From Stdlib Require Import ZArith Lia.

Local Open Scope Z_scope.

(** ** Fixed-width integers

    Identifiers are kept in [Z]; the conversions the source writes
    ([uint32(flow.OnuId)], [int32(gem)], [uint32(time.Now().Unix())]) are
    the wrap-arounds below. *)

Definition uint32 (z : Z) : Z := z mod 2 ^ 32.

Definition int32 (z : Z) : Z := (z + 2 ^ 31) mod 2 ^ 32 - 2 ^ 31.

Definition is_int32 (z : Z) : Prop := - 2 ^ 31 <= z < 2 ^ 31.

(** ** The resource ledgers

    [map[ponPortId]map[OnuId]map[PortNo]map[AllocId|GemPortId]map[FlowId]bool],
    five nested Go maps.  A missing key reads as the nil map, which behaves
    as the empty map under lookup, [range] and [len], so a read goes through
    [default ∅]; writing into a missing level is a panic. *)

Abbreviation FlowSet := (gmap Z bool).
Abbreviation ResMap := (gmap Z (gmap Z bool)).
Abbreviation UniMap := (gmap Z (gmap Z (gmap Z bool))).
Abbreviation OnuMap := (gmap Z (gmap Z (gmap Z (gmap Z bool)))).
Abbreviation Ledger := (gmap Z (gmap Z (gmap Z (gmap Z (gmap Z bool))))).

(** [L[pon][onu]] with the comma-ok of the last index. *)
Definition ledger_onu (L : Ledger) (pon onu : Z) : option UniMap :=
  default ∅ (L !! pon) !! onu.

(** [L[pon][onu][port][rid]] with the comma-ok of the last index. *)
Definition ledger_entry (L : Ledger) (pon onu port rid : Z) : option FlowSet :=
  default ∅ (default ∅ (default ∅ (L !! pon) !! onu) !! port) !! rid.

(** The body shared by [storeAllocId] and [storeGemPortId]: the first
    comma-ok test only logs; the two tests that follow create the port and
    the resource level when missing; the last line marks the flow.  The
    first assignment that is reached writes into [L[pon][onu]], which
    panics when that map is nil. *)
Definition ledger_store (L : Ledger) (pon onu port rid fid : Z) : option Ledger :=
  match ledger_onu L pon onu with
  | None => None
  | Some unis =>
      let res := default ∅ (unis !! port) in
      let flows := default ∅ (res !! rid) in
      Some (<[pon := <[onu := <[port := <[rid := <[fid := true]> flows]> res]> unis]>
                       (default ∅ (L !! pon))]> L)
  end.

(** The innermost loop of [freeAllocId] / [freeGemPortId] on one resource
    entry: [for flowId := range flows] runs its body only when the set is
    not empty; the body deletes the matching flow and then, when the set
    has become empty, deletes the resource entry itself. *)
Definition free_flows (fid : Z) (flows : FlowSet) : option FlowSet :=
  if Nat.eqb (size flows) 0 then Some flows
  else
    let flows' := delete fid flows in
    if Nat.eqb (size flows') 0 then None else Some flows'.

(** The four outer loops: every PON, ONU and port level is visited and
    kept, whatever becomes of the resource entries below it. *)
Definition free_uni (fid : Z) (uniValues : ResMap) : ResMap :=
  omap (free_flows fid) uniValues.

Definition free_onu (fid : Z) (onuValues : UniMap) : UniMap :=
  free_uni fid <$> onuValues.

Definition free_pon (fid : Z) (ponValues : OnuMap) : OnuMap :=
  free_onu fid <$> ponValues.

Definition ledger_free (fid : Z) (L : Ledger) : Ledger :=
  free_pon fid <$> L.

(** ** looplab/fsm

    The state machines are instances of the [looplab/fsm] package, a
    dependency outside the repository.  Its [Event] looks the pair
    (event, current state) up in the transition table built by [NewFSM];
    a missing pair leaves the state alone and returns [InvalidEventError]
    when the event is declared for other states and [UnknownEventError]
    otherwise; a transition onto the current state returns
    [NoTransitionError].  The [enter_] callbacks of a successful transition
    run after the state has been set and are written out at each machine. *)

Module fsm.

Record EventDesc := { Name : string; Src : list string; Dst : string }.

Inductive Error :=
| InvalidEventError (event state : string)
| UnknownEventError (event : string)
| NoTransitionError.

Definition transitions (events : list EventDesc) : gmap (string * string) string :=
  foldl (fun m e => foldl (fun m src => <[(Name e, src) := Dst e]> m) m (Src e))
        ∅ events.

Definition Event (events : list EventDesc) (current event : string)
  : string * option Error :=
  match transitions events !! (event, current) with
  | None =>
      if existsb (fun e => String.eqb (Name e) event) events
      then (current, Some (InvalidEventError event current))
      else (current, Some (UnknownEventError event))
  | Some dst =>
      if String.eqb current dst then (current, Some NoTransitionError)
      else (dst, None)
  end.

End fsm.

(** ** Flows, messages and indications *)

Module Flow.

(** The fields of [openolt.Flow] that the device reads. *)
Record t := mk {
  AccessIntfId : Z;          (* sint32 *)
  OnuId : Z;                 (* sint32 *)
  FlowId : Z;                (* uint64 *)
  FlowType : string;
  AllocId : Z;               (* sint32 *)
  GemportId : Z;             (* sint32 *)
  PortNo : Z;                (* uint32 *)
  ReplicateFlow : bool;
  PbitToGemport : gmap Z Z   (* map[uint32]uint32 *)
}.

End Flow.

Record LosIndication := { LosInd_IntfId : Z; LosInd_Status : string }.

Module types.

Inductive OperState := UP | DOWN.

Definition String (m : OperState) : string :=
  match m with UP => "up" | DOWN => "down" end.

(** [types.Message]: the tag [Type] together with the payload [Data]
    that belongs to it. *)
Inductive Message :=
| OltIndication (OperState : OperState)
| NniIndication (OperState : OperState) (NniPortID : Z)
| PonIndication (OperState : OperState) (PonPortID : Z)
| AlarmIndication (alarmInd : LosIndication)
| FlowAdd (PonPortID OnuID : Z) (flow : Flow.t)
| FlowRemoved (flow : Flow.t)
| OtherMessage (messageType : Z).

End types.

(** [openolt.Indication], the variants the OLT loop sends. *)
Inductive Indication :=
| Indication_OltInd (OperState : string)
| Indication_AlarmInd (alarmInd : LosIndication)
| Indication_IntfOperInd (Type_ : string) (IntfId : Z) (OperState : string) (Speed : Z)
| Indication_IntfInd (IntfId : Z) (OperState : string).

(** The outbound stream: what has been sent on it so far, and whether the
    transport still accepts a [Send]. *)
Record Stream := { sent : list Indication; broken : bool }.

Definition Send (stream : Stream) (ind : Indication) : Stream * bool :=
  if broken stream then (stream, false)
  else ({| sent := sent stream ++ [ind]; broken := false |}, true).

(** ** ONUs, PON ports, NNI ports *)

Module Onu.

Record t := mk {
  ID : Z;
  PonPortID : Z;
  Sn : string;
  InternalState : string;
  Flows : list Z;              (* []FlowKey, a key is its flow ID *)
  FlowIds : list Z;
  Channel : list types.Message (* messages sent on the ONU channel, oldest first *)
}.

Definition set_ID (v : Z) (x : t) : t :=
  mk v (PonPortID x) (Sn x) (InternalState x) (Flows x) (FlowIds x) (Channel x).
Definition set_InternalState (v : string) (x : t) : t :=
  mk (ID x) (PonPortID x) (Sn x) v (Flows x) (FlowIds x) (Channel x).
Definition set_Flows (v : list Z) (x : t) : t :=
  mk (ID x) (PonPortID x) (Sn x) (InternalState x) v (FlowIds x) (Channel x).
Definition set_Channel (v : list types.Message) (x : t) : t :=
  mk (ID x) (PonPortID x) (Sn x) (InternalState x) (Flows x) (FlowIds x) v.

End Onu.

Module PonPort.

Record t := mk {
  ID : Z;
  Type_ : string;
  OperState : string;
  InternalState : string;
  Onus : list Onu.t
}.

Definition set_OperState (v : string) (x : t) : t :=
  mk (ID x) (Type_ x) v (InternalState x) (Onus x).
Definition set_InternalState (v : string) (x : t) : t :=
  mk (ID x) (Type_ x) (OperState x) v (Onus x).
Definition set_Onus (v : list Onu.t) (x : t) : t :=
  mk (ID x) (Type_ x) (OperState x) (InternalState x) v.

End PonPort.

Module NniPort.

Record t := mk { ID : Z; Type_ : string; OperState : string }.

Definition set_OperState (v : string) (x : t) : t := mk (ID x) (Type_ x) v.

End NniPort.

(** ** The device *)

Inductive Chan := ChanNil | ChanOpen | ChanClosed.

Inductive Ctx := CtxNil | CtxLive | CtxCanceled.

Record PublishedEvent := {
  eventType : string; ev_intfID : Z; ev_onuID : Z; ev_onuSerial : string
}.

Module OltDevice.

Record t := mk {
  OltServer : bool;              (* the gRPC server pointer is not nil *)
  NniSpeed : Z;
  InternalState : string;
  OperState : string;
  channel : Chan;
  Flows : gmap Z Flow.t;         (* sync.Map, FlowKey -> openolt.Flow *)
  PreviouslyConnected : bool;
  Pons : list PonPort.t;
  Nnis : list NniPort.t;
  enableContext : Ctx;           (* [enableContext] with its cancel function *)
  OpenoltStream : Stream;
  enablePerf : bool;
  AllocIDs : Ledger;
  GemPortIDs : Ledger;
  signature : Z;
  published : list PublishedEvent (* calls of [publishEvent], oldest first *)
}.

Definition set_OltServer v x :=
  mk v (NniSpeed x) (InternalState x) (OperState x) (channel x) (Flows x)
     (PreviouslyConnected x) (Pons x) (Nnis x) (enableContext x) (OpenoltStream x)
     (enablePerf x) (AllocIDs x) (GemPortIDs x) (signature x) (published x).
Definition set_InternalState v x :=
  mk (OltServer x) (NniSpeed x) v (OperState x) (channel x) (Flows x)
     (PreviouslyConnected x) (Pons x) (Nnis x) (enableContext x) (OpenoltStream x)
     (enablePerf x) (AllocIDs x) (GemPortIDs x) (signature x) (published x).
Definition set_OperState v x :=
  mk (OltServer x) (NniSpeed x) (InternalState x) v (channel x) (Flows x)
     (PreviouslyConnected x) (Pons x) (Nnis x) (enableContext x) (OpenoltStream x)
     (enablePerf x) (AllocIDs x) (GemPortIDs x) (signature x) (published x).
Definition set_channel v x :=
  mk (OltServer x) (NniSpeed x) (InternalState x) (OperState x) v (Flows x)
     (PreviouslyConnected x) (Pons x) (Nnis x) (enableContext x) (OpenoltStream x)
     (enablePerf x) (AllocIDs x) (GemPortIDs x) (signature x) (published x).
Definition set_Flows v x :=
  mk (OltServer x) (NniSpeed x) (InternalState x) (OperState x) (channel x) v
     (PreviouslyConnected x) (Pons x) (Nnis x) (enableContext x) (OpenoltStream x)
     (enablePerf x) (AllocIDs x) (GemPortIDs x) (signature x) (published x).
Definition set_PreviouslyConnected v x :=
  mk (OltServer x) (NniSpeed x) (InternalState x) (OperState x) (channel x) (Flows x)
     v (Pons x) (Nnis x) (enableContext x) (OpenoltStream x)
     (enablePerf x) (AllocIDs x) (GemPortIDs x) (signature x) (published x).
Definition set_Pons v x :=
  mk (OltServer x) (NniSpeed x) (InternalState x) (OperState x) (channel x) (Flows x)
     (PreviouslyConnected x) v (Nnis x) (enableContext x) (OpenoltStream x)
     (enablePerf x) (AllocIDs x) (GemPortIDs x) (signature x) (published x).
Definition set_Nnis v x :=
  mk (OltServer x) (NniSpeed x) (InternalState x) (OperState x) (channel x) (Flows x)
     (PreviouslyConnected x) (Pons x) v (enableContext x) (OpenoltStream x)
     (enablePerf x) (AllocIDs x) (GemPortIDs x) (signature x) (published x).
Definition set_enableContext v x :=
  mk (OltServer x) (NniSpeed x) (InternalState x) (OperState x) (channel x) (Flows x)
     (PreviouslyConnected x) (Pons x) (Nnis x) v (OpenoltStream x)
     (enablePerf x) (AllocIDs x) (GemPortIDs x) (signature x) (published x).
Definition set_OpenoltStream v x :=
  mk (OltServer x) (NniSpeed x) (InternalState x) (OperState x) (channel x) (Flows x)
     (PreviouslyConnected x) (Pons x) (Nnis x) (enableContext x) v
     (enablePerf x) (AllocIDs x) (GemPortIDs x) (signature x) (published x).
Definition set_AllocIDs v x :=
  mk (OltServer x) (NniSpeed x) (InternalState x) (OperState x) (channel x) (Flows x)
     (PreviouslyConnected x) (Pons x) (Nnis x) (enableContext x) (OpenoltStream x)
     (enablePerf x) v (GemPortIDs x) (signature x) (published x).
Definition set_GemPortIDs v x :=
  mk (OltServer x) (NniSpeed x) (InternalState x) (OperState x) (channel x) (Flows x)
     (PreviouslyConnected x) (Pons x) (Nnis x) (enableContext x) (OpenoltStream x)
     (enablePerf x) (AllocIDs x) v (signature x) (published x).
Definition set_signature v x :=
  mk (OltServer x) (NniSpeed x) (InternalState x) (OperState x) (channel x) (Flows x)
     (PreviouslyConnected x) (Pons x) (Nnis x) (enableContext x) (OpenoltStream x)
     (enablePerf x) (AllocIDs x) (GemPortIDs x) v (published x).
Definition set_published v x :=
  mk (OltServer x) (NniSpeed x) (InternalState x) (OperState x) (channel x) (Flows x)
     (PreviouslyConnected x) (Pons x) (Nnis x) (enableContext x) (OpenoltStream x)
     (enablePerf x) (AllocIDs x) (GemPortIDs x) (signature x) v.

End OltDevice.

Import OltDevice.

(** ** Constants of olt.go *)

Definition OltInternalStateCreated : string := "created".
Definition OltInternalStateInitialized : string := "initialized".
Definition OltInternalStateEnabled : string := "enabled".
Definition OltInternalStateDisabled : string := "disabled".
Definition OltInternalStateDeleted : string := "deleted".

Definition OltInternalTxInitialize : string := "initialize".
Definition OltInternalTxEnable : string := "enable".
Definition OltInternalTxDisable : string := "disable".
Definition OltInternalTxDelete : string := "delete".

(** The transition table handed to [fsm.NewFSM] in [CreateOLT]. *)
Definition OltInternalEvents : list fsm.EventDesc :=
  [ {| fsm.Name := OltInternalTxInitialize;
       fsm.Src := [OltInternalStateCreated; OltInternalStateDeleted];
       fsm.Dst := OltInternalStateInitialized |};
    {| fsm.Name := OltInternalTxEnable;
       fsm.Src := [OltInternalStateInitialized; OltInternalStateDisabled];
       fsm.Dst := OltInternalStateEnabled |};
    {| fsm.Name := OltInternalTxDisable;
       fsm.Src := [OltInternalStateEnabled];
       fsm.Dst := OltInternalStateDisabled |};
    {| fsm.Name := OltInternalTxDelete;
       fsm.Src := [OltInternalStateDisabled; OltInternalStateEnabled];
       fsm.Dst := OltInternalStateDeleted |} ].

(** Modelled from the spec: [getOperStateFSM] is declared in a file that is
    not at hand; the spec gives the OperState machine the states up and
    down and the transitions enable and disable, without side effects. *)
Definition OperStateEvents : list fsm.EventDesc :=
  [ {| fsm.Name := "enable"; fsm.Src := ["down"]; fsm.Dst := "up" |};
    {| fsm.Name := "disable"; fsm.Src := ["up"]; fsm.Dst := "down" |} ].

(** Modelled from the spec: the ONU state and event names are constants of
    onu.go, which is not at hand; the spec names the states [disabled]
    and [pon-disabled]. *)
Definition OnuStateDisabled : string := "disabled".
Definition OnuStatePonDisabled : string := "pon-disabled".
Definition OnuTxEnable : string := "enable".
Definition OnuTxDisable : string := "disable".

(** ** Errors returned to the caller *)

Inductive Error :=
| ErrGemInUse (gem uniId onuId flowId : Z) (replicated : bool)
| ErrAllocIdInUse (allocId uniId onuId flowId : Z)
| ErrOnuIsCurrently (sn state : string)
| ErrCannotFindOnu (ponId onuId : Z)
| ErrCannotFindOnuByFlowId (flowId : Z)
| ErrStatusNotFound (msg : string)
| ErrFsm (e : fsm.Error).

(** The two messages of [validateFlow], gem-...-already-in-use and
    allocId-...-already-in-use: the spec's ResourceConflictError. *)
Definition is_ResourceConflictError (e : Error) : bool :=
  match e with
  | ErrGemInUse _ _ _ _ _ | ErrAllocIdInUse _ _ _ _ => true
  | _ => false
  end.

(** The message onu-...-is-currently-...: the spec's DeviceNotReadyError. *)
Definition is_DeviceNotReadyError (e : Error) : bool :=
  match e with ErrOnuIsCurrently _ _ => true | _ => false end.

(** ** Helpers *)

(** The first hit of a loop that returns from inside its body. *)
Definition first_some {A B : Type} (f : A -> option B) (l : list A) : option B :=
  foldr (fun a acc => match f a with Some b => Some b | None => acc end) None l.

(** [publishEvent] is declared in a file that is not at hand; the call is
    recorded. *)
Definition publishEvent (ty : string) (intfID onuID : Z) (onuSerial : string)
    (o : OltDevice.t) : OltDevice.t :=
  set_published
    (published o ++ [ {| eventType := ty; ev_intfID := intfID;
                         ev_onuID := onuID; ev_onuSerial := onuSerial |} ]) o.

(** A [*PonPort] or [*Onu] is its position in the slice that holds it; an
    update through the pointer is an update at that position. *)
Definition alter_pon (pi : nat) (f : PonPort.t -> PonPort.t) (o : OltDevice.t)
  : OltDevice.t :=
  set_Pons (alter f pi (Pons o)) o.

Definition alter_onu (pi oi : nat) (f : Onu.t -> Onu.t) (o : OltDevice.t)
  : OltDevice.t :=
  alter_pon pi (fun pon => PonPort.set_Onus (alter f oi (PonPort.Onus pon)) pon) o.

Definition HasPon (o : OltDevice.t) (id : Z) : bool :=
  existsb (fun intf => Z.eqb (PonPort.ID intf) id) (Pons o).

Definition GetPonById (o : OltDevice.t) (id : Z) : option (nat * PonPort.t) :=
  list_find (fun pon => PonPort.ID pon = id) (Pons o).

Definition getNniById (o : OltDevice.t) (id : Z) : option (nat * NniPort.t) :=
  list_find (fun nni => NniPort.ID nni = id) (Nnis o).

(** Modelled from the spec: [PonPort.GetOnuById] and [PonPort.GetOnuBySn]
    are declared in pon.go, which is not at hand; they are the lookups
    by numeric ID and by serial number that [FindOnuById] and
    [FindOnuBySn] of olt.go run over the ONUs of a PON. *)
Definition GetOnuById (pon : PonPort.t) (id : Z) : option (nat * Onu.t) :=
  list_find (fun onu => Onu.ID onu = id) (PonPort.Onus pon).

Definition GetOnuBySn (pon : PonPort.t) (sn : string) : option (nat * Onu.t) :=
  list_find (fun onu => Onu.Sn onu = sn) (PonPort.Onus pon).

Definition GetOnuByFlowId (o : OltDevice.t) (flowId : Z) : option (nat * nat) :=
  match list_find (fun pon => Exists (fun onu => flowId ∈ Onu.FlowIds onu)
                                     (PonPort.Onus pon)) (Pons o) with
  | None => None
  | Some (pi, pon) =>
      match list_find (fun onu => flowId ∈ Onu.FlowIds onu) (PonPort.Onus pon) with
      | None => None
      | Some (oi, _) => Some (pi, oi)
      end
  end.

(** Modelled from the spec: [Onu.DeleteFlow] is declared in onu.go, which is
    not at hand; the spec has the flow key removed from the ONU's list. *)
Fixpoint DeleteFlow_list (key : Z) (l : list Z) : list Z :=
  match l with
  | [] => []
  | k :: l' => if Z.eqb k key then l' else k :: DeleteFlow_list key l'
  end.

Definition DeleteFlow (key : Z) (onu : Onu.t) : Onu.t :=
  Onu.set_Flows (DeleteFlow_list key (Onu.Flows onu)) onu.

(** ** Ledger operations of the device *)

Definition storeAllocId (o : OltDevice.t) (flow : Flow.t) : option OltDevice.t :=
  match ledger_store (AllocIDs o) (uint32 (Flow.AccessIntfId flow))
          (uint32 (Flow.OnuId flow)) (Flow.PortNo flow) (Flow.AllocId flow)
          (Flow.FlowId flow) with
  | None => None
  | Some L => Some (set_AllocIDs L o)
  end.

Definition freeAllocId (o : OltDevice.t) (flow : Flow.t) : OltDevice.t :=
  set_AllocIDs (ledger_free (Flow.FlowId flow) (AllocIDs o)) o.

Definition storeGemPortId (o : OltDevice.t) (ponId onuId portNo gemId flowId : Z)
  : option OltDevice.t :=
  match ledger_store (GemPortIDs o) ponId onuId portNo gemId flowId with
  | None => None
  | Some L => Some (set_GemPortIDs L o)
  end.

(** The GEM ports a flow asks for: the values of [PbitToGemport] converted
    by [int32(gem)] when the flow is replicated, [GemportId] otherwise. *)
Definition flow_gems (flow : Flow.t) : list Z :=
  if Flow.ReplicateFlow flow
  then (fun kv => int32 kv.2) <$> map_to_list (Flow.PbitToGemport flow)
  else [Flow.GemportId flow].

Definition storeGemPortIdByFlow (o : OltDevice.t) (flow : Flow.t) : option OltDevice.t :=
  if Flow.ReplicateFlow flow then
    foldl (fun acc kv =>
             match acc with
             | None => None
             | Some o' =>
                 storeGemPortId o' (uint32 (Flow.AccessIntfId flow))
                   (uint32 (Flow.OnuId flow)) (Flow.PortNo flow) (int32 kv.2)
                   (Flow.FlowId flow)
             end)
          (Some o) (map_to_list (Flow.PbitToGemport flow))
  else
    storeGemPortId o (uint32 (Flow.AccessIntfId flow)) (uint32 (Flow.OnuId flow))
      (Flow.PortNo flow) (Flow.GemportId flow) (Flow.FlowId flow).

Definition freeGemPortId (o : OltDevice.t) (flow : Flow.t) : OltDevice.t :=
  set_GemPortIDs (ledger_free (Flow.FlowId flow) (GemPortIDs o)) o.

(** [validateFlow]: the GEM ledger is scanned first, then the Alloc-ID
    ledger; the ONU of the flow is skipped.  Go visits a map in an
    unspecified order, so which of several conflicts is reported is not
    fixed by the source: the model reports the first one in key order. *)
Definition validateFlow (o : OltDevice.t) (flow : Flow.t) : option Error :=
  let gemConflict :=
    first_some (fun '(onuId, onu) =>
      if decide (onuId = uint32 (Flow.OnuId flow)) then None else
      first_some (fun '(uniId, uni) =>
        first_some (fun '(gem, _) =>
          if Flow.ReplicateFlow flow then
            first_some (fun '(_, flowGem) =>
              if decide (gem = int32 flowGem)
              then Some (ErrGemInUse gem uniId onuId (Flow.FlowId flow) true)
              else None)
              (map_to_list (Flow.PbitToGemport flow))
          else if decide (gem = Flow.GemportId flow)
               then Some (ErrGemInUse gem uniId onuId (Flow.FlowId flow) false)
               else None)
          (map_to_list (uni : ResMap)))
        (map_to_list (onu : UniMap)))
      (map_to_list (default ∅ (GemPortIDs o !! uint32 (Flow.AccessIntfId flow)))) in
  match gemConflict with
  | Some err => Some err
  | None =>
    first_some (fun '(onuId, onu) =>
      if decide (onuId = uint32 (Flow.OnuId flow)) then None else
      first_some (fun '(uniId, uni) =>
        first_some (fun '(allocId, _) =>
          if decide (allocId = Flow.AllocId flow)
          then Some (ErrAllocIdInUse allocId uniId onuId (Flow.FlowId flow))
          else None)
          (map_to_list (uni : ResMap)))
        (map_to_list (onu : UniMap)))
      (map_to_list (default ∅ (AllocIDs o !! uint32 (Flow.AccessIntfId flow))))
  end.

(** The per-PON tables that [clearAllResources] also resets
    ([removeAllAllocIds], [removeAllGemPorts], [removeAllOnuIds]) belong to
    pon.go and hold the resources learned over OMCI; they are no part of
    the device ledgers. *)
Definition clearAllResources (o : OltDevice.t) : OltDevice.t :=
  set_AllocIDs ∅ (set_GemPortIDs ∅ o).

(** ** Initialization and the InternalState machine of the OLT *)

(** [StartOltServer] is taken to succeed: a failing [net.Listen] is the
    environment's.  [Nnis[0]] panics on an empty slice; the loop over
    [o.Pons] uses the position in the slice, not the PON's ID. *)
Definition InitOlt (o : OltDevice.t) : option OltDevice.t :=
  if OltServer o then None
  else
    let o := set_OltServer true o in
    let o := set_channel ChanOpen o in
    match Nnis o with
    | [] => None
    | nni :: rest =>
        let o := set_Nnis (NniPort.set_OperState "down" nni :: rest) o in
        Some (foldl (fun o ponId =>
                       let o := set_AllocIDs (<[uint32 (Z.of_nat ponId) := ∅]> (AllocIDs o)) o in
                       set_GemPortIDs (<[uint32 (Z.of_nat ponId) := ∅]> (GemPortIDs o)) o)
                    o (seq 0 (length (Pons o))))
    end.

Definition StopOltServer (o : OltDevice.t) : OltDevice.t :=
  if OltServer o then set_OltServer false o else o.

(** [o.InternalState.Event(event)] with the callbacks registered in
    [CreateOLT]: entering [initialized] runs [InitOlt], entering [deleted]
    runs [clearAllResources]; [enter_state] only logs. *)
Definition InternalState_Event (o : OltDevice.t) (event : string)
  : option (OltDevice.t * option fsm.Error) :=
  match fsm.Event OltInternalEvents (InternalState o) event with
  | (_, Some err) => Some (o, Some err)
  | (dst, None) =>
      let o := set_InternalState dst o in
      if String.eqb dst OltInternalStateInitialized then
        match InitOlt o with
        | None => None
        | Some o' => Some (o', None)
        end
      else if String.eqb dst OltInternalStateDeleted then
        Some (clearAllResources o, None)
      else Some (o, None)
  end.

Definition HeartbeatCheck (o : OltDevice.t) : Z := signature o.

(** ** Operations that reach into onu.go and pon.go

    The ONU and PON state machines are built in onu.go and pon.go.  They
    are parameters: an ONU event acts on the ONU it is fired on; a PON
    event acts on the PON (its ONUs included) and hands back the
    indications its callbacks send on the device stream. *)

Record openolt_Onu := { IntfId : Z; OnuId : Z; SerialNumber : string }.

Inductive ChanEvent :=
| Recv (message : types.Message)
| Closed
| CtxDone.

Section Device.

Variable onuInternalStateEvent : Onu.t -> string -> Onu.t.
Variable ponOperStateEvent : PonPort.t -> string -> PonPort.t * list Indication.
Variable ponInternalStateEvent : PonPort.t -> string -> PonPort.t * list Indication.

Definition disable_onus (pons : list PonPort.t) : list PonPort.t :=
  (fun pon =>
     PonPort.set_Onus
       ((fun onu => onuInternalStateEvent onu OnuTxDisable) <$> PonPort.Onus pon) pon)
    <$> pons.

(** [now] is the value of [time.Now().Unix()] read when the signature is
    regenerated.  The two sleeps only let time pass. *)
Definition RestartOLT (now : Z) (o : OltDevice.t)
  : option (OltDevice.t * option fsm.Error) :=
  let o := set_PreviouslyConnected false o in
  let softReboot := String.eqb (InternalState o) OltInternalStateEnabled in
  match InternalState_Event o OltInternalTxDelete with
  | None => None
  | Some (o, Some err) => Some (o, Some err)
  | Some (o, None) =>
      let o := if softReboot
               then set_Pons (disable_onus (Pons o)) o
               else set_Pons (disable_onus (Pons o)) o in
      let o := StopOltServer o in
      match channel o with
      | ChanOpen =>
          let o := set_channel ChanClosed o in
          match enableContext o with
          | CtxNil => None
          | _ =>
              let o := set_enableContext CtxCanceled o in
              let o := set_signature (uint32 now) o in
              InternalState_Event o OltInternalTxInitialize
          end
      | _ => None
      end
  end.

(** *** The indication loop

    The stream handed to the loop is the one [Enable] has stored in
    [OpenoltStream]. *)

Definition send (ind : Indication) (o : OltDevice.t) : OltDevice.t :=
  set_OpenoltStream (Send (OpenoltStream o) ind).1 o.

Definition send_each (inds : list Indication) (o : OltDevice.t) : OltDevice.t :=
  foldl (fun o ind => send ind o) o inds.

Definition sendOltIndication (msg : types.OperState) (o : OltDevice.t) : OltDevice.t :=
  send (Indication_OltInd (types.String msg)) o.

Definition sendAlarmIndication (alarmInd : LosIndication) (o : OltDevice.t)
  : OltDevice.t :=
  send (Indication_AlarmInd alarmInd) o.

Definition sendNniIndication (st : types.OperState) (NniPortID : Z) (o : OltDevice.t)
  : option OltDevice.t :=
  match getNniById o NniPortID with
  | None => None
  | Some (i, nni) =>
      let event := match st with types.UP => "enable" | types.DOWN => "disable" end in
      let nni := NniPort.set_OperState
                   (fsm.Event OperStateEvents (NniPort.OperState nni) event).1 nni in
      let o := set_Nnis (<[i := nni]> (Nnis o)) o in
      Some (send (Indication_IntfOperInd (NniPort.Type_ nni) (NniPort.ID nni)
                    (NniPort.OperState nni) (NniSpeed o)) o)
  end.

Definition sendPonIndication (ponPortID : Z) (o : OltDevice.t) : option OltDevice.t :=
  match GetPonById o ponPortID with
  | None => None
  | Some (_, pon) =>
      match Send (OpenoltStream o)
              (Indication_IntfInd (PonPort.ID pon) (PonPort.OperState pon)) with
      | (_, false) => Some o
      | (stream, true) =>
          Some (send (Indication_IntfOperInd (PonPort.Type_ pon) (PonPort.ID pon)
                        (PonPort.OperState pon) 0)
                     (set_OpenoltStream stream o))
      end
  end.

(** One turn of the [switch message.Type]. *)
Definition handleMessage (o : OltDevice.t) (message : types.Message)
  : option OltDevice.t :=
  match message with
  | types.OltIndication st =>
      let event := match st with types.UP => OltInternalTxEnable
                               | types.DOWN => OltInternalTxDisable end in
      let operEvent := match st with types.UP => "enable" | types.DOWN => "disable" end in
      match InternalState_Event o event with
      | None => None
      | Some (o, _) =>
          let o := set_OperState (fsm.Event OperStateEvents (OperState o) operEvent).1 o in
          Some (sendOltIndication st o)
      end
  | types.AlarmIndication alarmInd => Some (sendAlarmIndication alarmInd o)
  | types.NniIndication st NniPortID => sendNniIndication st NniPortID o
  | types.PonIndication st PonPortID =>
      match GetPonById o PonPortID with
      | None => None
      | Some (pi, pon) =>
          let event := match st with types.UP => "enable" | types.DOWN => "disable" end in
          let '(pon, inds1) := ponOperStateEvent pon event in
          let '(pon, inds2) := ponInternalStateEvent pon event in
          Some (send_each (inds1 ++ inds2) (set_Pons (<[pi := pon]> (Pons o)) o))
      end
  | _ => Some o
  end.

(** [processOltMessages]: what the [select] yields, turn by turn.  The
    channel is unbuffered, so a message is on the channel exactly when
    the loop receives it.  The result carries what was left unread. *)
Fixpoint processOltMessages (o : OltDevice.t) (events : list ChanEvent)
  : option (OltDevice.t * list ChanEvent) :=
  match events with
  | [] => Some (o, [])
  | CtxDone :: rest => Some (o, rest)
  | Closed :: rest => Some (o, rest)
  | Recv message :: rest =>
      match handleMessage o message with
      | None => None
      | Some o' => processOltMessages o' rest
      end
  end.

(** *** ActivateOnu *)

Definition ActivateOnu (o : OltDevice.t) (onu : openolt_Onu)
  : option (OltDevice.t * option Error) :=
  let pon := GetPonById o (IntfId onu) in
  match AllocIDs o !! IntfId onu with
  | None => None
  | Some onus =>
      let o := set_AllocIDs (<[IntfId onu := <[OnuId onu := ∅]> onus]> (AllocIDs o)) o in
      match GemPortIDs o !! IntfId onu with
      | None => None
      | Some onus =>
          let o := set_GemPortIDs
                     (<[IntfId onu := <[OnuId onu := ∅]> onus]> (GemPortIDs o)) o in
          match pon with
          | None => None
          | Some (pi, p) =>
              match GetOnuBySn p (SerialNumber onu) with
              | None => None
              | Some (oi, _onu) =>
                  let o := publishEvent "ONU-activate-indication-received"
                             (int32 (IntfId onu)) (int32 (OnuId onu)) (Onu.Sn _onu) o in
                  Some (alter_onu pi oi
                          (fun x => onuInternalStateEvent (Onu.set_ID (OnuId onu) x)
                                      OnuTxEnable) o,
                        None)
              end
          end
      end
  end.

End Device.

(** ** Flow management *)

Definition enqueue (msg : types.Message) (onu : Onu.t) : Onu.t :=
  Onu.set_Channel (Onu.Channel onu ++ [msg]) onu.

(** [onu.Flows = append(onu.Flows, flowKey)] and the event on the first
    flow. *)
Definition append_flow (pi oi : nat) (onu : Onu.t) (flowKey : Z) (o : OltDevice.t)
  : OltDevice.t :=
  let o := alter_onu pi oi (fun x => Onu.set_Flows (Onu.Flows x ++ [flowKey]) x) o in
  if Nat.eqb (length (Onu.Flows onu ++ [flowKey])) 1
  then publishEvent "Flow-add-received" (int32 (Onu.PonPortID onu)) (int32 (Onu.ID onu))
         (Onu.Sn onu) o
  else o.

(** A PON that is not found leaves [pon] nil, and [pon.GetOnuById] is then
    called on the nil pointer: a panic. *)
Definition FlowAdd (o : OltDevice.t) (flow : Flow.t)
  : option (OltDevice.t * option Error) :=
  let flowKey := if enablePerf o then 0 else Flow.FlowId flow in
  let o := if enablePerf o then o
           else set_Flows (<[Flow.FlowId flow := flow]> (Flows o)) o in
  if Z.eqb (Flow.AccessIntfId flow) (-1) then Some (o, None)
  else if String.eqb (Flow.FlowType flow) "multicast" then Some (o, None)
  else
    match GetPonById o (uint32 (Flow.AccessIntfId flow)) with
    | None => None
    | Some (pi, pon) =>
        match GetOnuById pon (uint32 (Flow.OnuId flow)) with
        | None =>
            Some (o, Some (ErrCannotFindOnu (PonPort.ID pon) (uint32 (Flow.OnuId flow))))
        | Some (oi, onu) =>
            if String.eqb (Onu.InternalState onu) OnuStatePonDisabled
               || String.eqb (Onu.InternalState onu) OnuStateDisabled
            then Some (o, Some (ErrOnuIsCurrently (Onu.Sn onu) (Onu.InternalState onu)))
            else
              let o := if enablePerf o then o else append_flow pi oi onu flowKey o in
              match validateFlow o flow with
              | Some err => Some (o, Some err)
              | None =>
                  match storeGemPortIdByFlow o flow with
                  | None => None
                  | Some o =>
                      match storeAllocId o flow with
                      | None => None
                      | Some o =>
                          Some (alter_onu pi oi
                                  (enqueue (types.FlowAdd (PonPort.ID pon) (Onu.ID onu) flow))
                                  o,
                                None)
                      end
                  end
              end
        end
    end.

(** The block guarded by [!o.enablePerf] in [FlowRemove]: [inr] is a
    [return] from inside it, [inl] falls through to the rest. *)
Definition remove_stored (o : OltDevice.t) (flow : Flow.t)
  : OltDevice.t + (OltDevice.t * option Error) :=
  let flowKey := Flow.FlowId flow in
  match Flows o !! flowKey with
  | None => inr (o, Some (ErrStatusNotFound "Flow not found"))
  | Some storedFlow =>
      let unlinked :=
        if negb (Z.eqb (Flow.AccessIntfId storedFlow) (-1)) then
          match GetPonById o (uint32 (Flow.AccessIntfId storedFlow)) with
          | None => inr (o, None)
          | Some (pi, pon) =>
              match GetOnuById pon (uint32 (Flow.OnuId storedFlow)) with
              | None => inr (o, None)
              | Some (oi, onu) =>
                  inl (publishEvent "Flow-remove-received" (int32 (Onu.PonPortID onu))
                         (int32 (Onu.ID onu)) (Onu.Sn onu)
                         (alter_onu pi oi (DeleteFlow flowKey) o))
              end
          end
        else inl o in
      match unlinked with
      | inr r => inr r
      | inl o => inl (set_Flows (delete flowKey (Flows o)) o)
      end
  end.

Definition FlowRemove (o : OltDevice.t) (flow : Flow.t) : OltDevice.t * option Error :=
  let o := freeGemPortId o flow in
  let o := freeAllocId o flow in
  match (if enablePerf o then inl o else remove_stored o flow) with
  | inr r => r
  | inl o =>
      if Z.eqb (Flow.AccessIntfId flow) (-1) then (o, None)
      else if String.eqb (Flow.FlowType flow) "multicast" then (o, None)
      else
        match GetOnuByFlowId o (Flow.FlowId flow) with
        | None => (o, Some (ErrCannotFindOnuByFlowId (Flow.FlowId flow)))
        | Some (pi, oi) => (alter_onu pi oi (enqueue (types.FlowRemoved flow)) o, None)
        end
  end.

(** ** Vocabulary of the statements *)

(** No resource-ID entry anywhere: every port level that exists is empty. *)
Definition no_entries (L : Ledger) : Prop :=
  map_Forall (fun _ (onus : OnuMap) =>
    map_Forall (fun _ (unis : UniMap) =>
      map_Forall (fun _ (res : ResMap) => res = ∅) unis) onus) L.

(** Nothing at all below any PON: no ONU level either. *)
Definition ledger_empty (L : Ledger) : Prop :=
  map_Forall (fun _ (onus : OnuMap) => onus = ∅) L.

(** A resource-ID entry exists only with a non-empty set of flow IDs. *)
Definition entries_nonempty (L : Ledger) : Prop :=
  map_Forall (fun _ (onus : OnuMap) =>
    map_Forall (fun _ (unis : UniMap) =>
      map_Forall (fun _ (res : ResMap) =>
        map_Forall (fun _ (flows : FlowSet) => flows ≠ ∅) res) unis) onus) L.

(** The resource [rid] belongs to the pair (pon, onu). *)
Definition claimed_by (L : Ledger) (pon onu rid : Z) : Prop :=
  exists port, is_Some (ledger_entry L pon onu port rid).

(** No resource belongs to two different ONUs of one PON. *)
Definition unique_per_pon (L : Ledger) : Prop :=
  forall pon onu1 onu2 rid,
    claimed_by L pon onu1 rid -> claimed_by L pon onu2 rid -> onu1 = onu2.

(** The flow is recorded as a referencer of [rid], where a store of this
    flow puts it. *)
Definition stored_under (L : Ledger) (flow : Flow.t) (rid : Z) : Prop :=
  exists flows,
    ledger_entry L (uint32 (Flow.AccessIntfId flow)) (uint32 (Flow.OnuId flow))
      (Flow.PortNo flow) rid = Some flows
    /\ flows !! Flow.FlowId flow = Some true.

(** The flow [g] is a referencer of some entry of the ledger. *)
Definition referenced (L : Ledger) (g : Z) : Prop :=
  exists pon onu port rid flows,
    ledger_entry L pon onu port rid = Some flows /\ is_Some (flows !! g).

(** The ONU a flow is handed to: the access interface is present, the flow
    is not multicast, and the PON and the ONU are found. *)
Definition target_onu (o : OltDevice.t) (flow : Flow.t)
  : option (nat * PonPort.t * nat * Onu.t) :=
  if Z.eqb (Flow.AccessIntfId flow) (-1) then None
  else if String.eqb (Flow.FlowType flow) "multicast" then None
  else
    match GetPonById o (uint32 (Flow.AccessIntfId flow)) with
    | None => None
    | Some (pi, pon) =>
        match GetOnuById pon (uint32 (Flow.OnuId flow)) with
        | None => None
        | Some (oi, onu) => Some (pi, pon, oi, onu)
        end
    end.

Definition onu_rejects_flows (onu : Onu.t) : bool :=
  String.eqb (Onu.InternalState onu) OnuStatePonDisabled
  || String.eqb (Onu.InternalState onu) OnuStateDisabled.

(** The first statement of [FlowAdd]: the flow goes into the device's flow
    table unless [enablePerf] is set. *)
Definition record_flow (o : OltDevice.t) (flow : Flow.t) : OltDevice.t :=
  if enablePerf o then o
  else set_Flows (<[Flow.FlowId flow := flow]> (Flows o)) o.

(** The transitions of the OLT InternalState machine as the specification
    lists them: initialize from created or deleted to initialized, enable
    from initialized or disabled to enabled, disable from enabled to
    disabled, delete from disabled or enabled to deleted. *)
Definition declared_transition (state event : string) : option string :=
  if String.eqb event "initialize" then
    if String.eqb state "created" || String.eqb state "deleted"
    then Some "initialized" else None
  else if String.eqb event "enable" then
    if String.eqb state "initialized" || String.eqb state "disabled"
    then Some "enabled" else None
  else if String.eqb event "disable" then
    if String.eqb state "enabled" then Some "disabled" else None
  else if String.eqb event "delete" then
    if String.eqb state "disabled" || String.eqb state "enabled"
    then Some "deleted" else None
  else None.

(** The event the loop fires on the InternalState machine for an OLT
    indication message. *)
Definition olt_event_of (st : types.OperState) : string :=
  match st with
  | types.UP => OltInternalTxEnable
  | types.DOWN => OltInternalTxDisable
  end.

(** *** Sequences of ledger operations *)

Inductive LedgerKind := AllocIdLedger | GemPortIdLedger.

Inductive LedgerOp :=
| Store (flow : Flow.t)
| Free (flow : Flow.t).

Definition ledger_of (k : LedgerKind) (o : OltDevice.t) : Ledger :=
  match k with
  | AllocIdLedger => AllocIDs o
  | GemPortIdLedger => GemPortIDs o
  end.

Definition ledger_step (k : LedgerKind) (o : OltDevice.t) (op : LedgerOp)
  : option OltDevice.t :=
  match k, op with
  | AllocIdLedger, Store flow => storeAllocId o flow
  | AllocIdLedger, Free flow => Some (freeAllocId o flow)
  | GemPortIdLedger, Store flow => storeGemPortIdByFlow o flow
  | GemPortIdLedger, Free flow => Some (freeGemPortId o flow)
  end.

Fixpoint ledger_run (k : LedgerKind) (o : OltDevice.t) (ops : list LedgerOp)
  : option OltDevice.t :=
  match ops with
  | [] => Some o
  | op :: rest =>
      match ledger_step k o op with
      | None => None
      | Some o' => ledger_run k o' rest
      end
  end.

Definition frees (fid : Z) (op : LedgerOp) : bool :=
  match op with
  | Free flow => Z.eqb (Flow.FlowId flow) fid
  | Store _ => false
  end.

(** Every store is followed, later in the sequence, by a free of the same
    flow ID. *)
Fixpoint every_store_freed (ops : list LedgerOp) : bool :=
  match ops with
  | [] => true
  | Store flow :: rest => existsb (frees (Flow.FlowId flow)) rest && every_store_freed rest
  | Free _ :: rest => every_store_freed rest
  end.

(** *** Sequences of device operations *)

Inductive DeviceOp :=
| OpStoreAllocId (flow : Flow.t)
| OpStoreGemPortIdByFlow (flow : Flow.t)
| OpFreeAllocId (flow : Flow.t)
| OpFreeGemPortId (flow : Flow.t)
| OpClearAllResources
| OpFlowAdd (flow : Flow.t)
| OpFlowRemove (flow : Flow.t)
| OpActivateOnu (onu : openolt_Onu)
| OpRestartOLT (now : Z).

(** Stores reach the ledgers through [FlowAdd] only. *)
Definition validated_only (op : DeviceOp) : bool :=
  match op with
  | OpStoreAllocId _ | OpStoreGemPortIdByFlow _ => false
  | _ => true
  end.

Section Runs.

Variable onuInternalStateEvent : Onu.t -> string -> Onu.t.

(** The device after the call, whether or not the call returned an
    error; [None] when the call ended the process. *)
Definition device_step (o : OltDevice.t) (op : DeviceOp) : option OltDevice.t :=
  match op with
  | OpStoreAllocId flow => storeAllocId o flow
  | OpStoreGemPortIdByFlow flow => storeGemPortIdByFlow o flow
  | OpFreeAllocId flow => Some (freeAllocId o flow)
  | OpFreeGemPortId flow => Some (freeGemPortId o flow)
  | OpClearAllResources => Some (clearAllResources o)
  | OpFlowAdd flow => fst <$> FlowAdd o flow
  | OpFlowRemove flow => Some (FlowRemove o flow).1
  | OpActivateOnu onu => fst <$> ActivateOnu onuInternalStateEvent o onu
  | OpRestartOLT now => fst <$> RestartOLT onuInternalStateEvent now o
  end.

Fixpoint device_run (o : OltDevice.t) (ops : list DeviceOp) : option OltDevice.t :=
  match ops with
  | [] => Some o
  | op :: rest =>
      match device_step o op with
      | None => None
      | Some o' => device_run o' rest
      end
  end.

End Runs.

(** *** The stream against the messages *)

(** What one message may put on the stream: an OLT indication with the
    state of the message, the alarm of the message, one interface
    indication for the NNI of the message, whatever the callbacks of the
    PON machine send, and nothing for any other message type.  On a broken
    stream every [Send] fails and nothing is added. *)
Definition corresponds (streamBroken : bool) (message : types.Message)
    (chunk : list Indication) : Prop :=
  if streamBroken then chunk = []
  else
    match message with
    | types.OltIndication st => chunk = [Indication_OltInd (types.String st)]
    | types.AlarmIndication alarmInd => chunk = [Indication_AlarmInd alarmInd]
    | types.NniIndication _ NniPortID =>
        exists ty oper speed, chunk = [Indication_IntfOperInd ty NniPortID oper speed]
    | types.PonIndication _ _ => True
    | _ => chunk = []
    end.

(** The port a message names exists on the device. *)
Definition addressed (o : OltDevice.t) (message : types.Message) : bool :=
  match message with
  | types.NniIndication _ NniPortID =>
      existsb (fun nni => Z.eqb (NniPort.ID nni) NniPortID) (Nnis o)
  | types.PonIndication _ PonPortID => HasPon o PonPortID
  | _ => true
  end.

(** The end of what the [select] yields: nothing more, or something that
    is not a message. *)
Definition stops (stop : list ChanEvent) : bool :=
  match stop with
  | Recv _ :: _ => false
  | _ => true
  end.

(** ** A device to run the operations on *)

Definition demo_onu (id : Z) (sn state : string) : Onu.t :=
  Onu.mk id 0 sn state [] [] [].

Definition demo_pon : PonPort.t :=
  PonPort.mk 0 "pon" "down" "created"
    [ demo_onu 1 "BBSM00000001" "enabled";
      demo_onu 2 "BBSM00000002" "enabled";
      demo_onu 3 "BBSM00000003" "disabled" ].

Definition demo_nni : NniPort.t := NniPort.mk 0 "nni" "down".

Definition demo_ledger : Ledger := {[ 0 := {[ 1 := ∅; 2 := ∅; 3 := ∅ ]} ]}.

Definition demo_stream : Stream := {| sent := []; broken := false |}.

Definition demo_olt : OltDevice.t :=
  OltDevice.mk true 10000 "enabled" "up" ChanOpen ∅ true [demo_pon] [demo_nni]
    CtxLive demo_stream false demo_ledger demo_ledger 1700000000 [].

Definition demo_olt_disabled : OltDevice.t := set_InternalState "disabled" demo_olt.

Definition demo_olt_created : OltDevice.t := set_InternalState "created" demo_olt.

(** pon 0, onu 1, flow 1, Alloc-ID 100, GEM port 50 *)
Definition demo_flow1 : Flow.t := Flow.mk 0 1 1 "" 100 50 16 false ∅.
(** pon 0, onu 2, flow 2, Alloc-ID 100, GEM port 60 *)
Definition demo_flow2 : Flow.t := Flow.mk 0 2 2 "" 100 60 32 false ∅.
(** pon 0, onu 2, flow 3, Alloc-ID 101, replicated on GEM ports 50 and 61 *)
Definition demo_flow3 : Flow.t := Flow.mk 0 2 3 "" 101 0 32 true {[ 0 := 50; 1 := 61 ]}.
(** pon 0, onu 3 (disabled), flow 4 *)
Definition demo_flow4 : Flow.t := Flow.mk 0 3 4 "" 102 70 48 false ∅.
(** pon 0, onu 1, flow 5, replicated on GEM ports 51 and 52 *)
Definition demo_flow5 : Flow.t := Flow.mk 0 1 5 "" 100 0 16 true {[ 0 := 51; 1 := 52 ]}.

(** The device once [demo_flow1] has been added. *)
Definition demo_olt1 : OltDevice.t :=
  default demo_olt (fst <$> FlowAdd demo_olt demo_flow1).

(** Stand-ins for the machines of onu.go and pon.go. *)
Definition demo_onuEvent (onu : Onu.t) (event : string) : Onu.t :=
  if String.eqb event OnuTxEnable then Onu.set_InternalState "enabled" onu
  else if String.eqb event OnuTxDisable then Onu.set_InternalState OnuStateDisabled onu
  else onu.

Definition demo_ponOperStateEvent (pon : PonPort.t) (event : string)
  : PonPort.t * list Indication :=
  match fsm.Event OperStateEvents (PonPort.OperState pon) event with
  | (_, Some _) => (pon, [])
  | (dst, None) =>
      (PonPort.set_OperState dst pon,
       [ Indication_IntfInd (PonPort.ID pon) dst;
         Indication_IntfOperInd (PonPort.Type_ pon) (PonPort.ID pon) dst 0 ])
  end.

Definition demo_ponInternalStateEvent (pon : PonPort.t) (event : string)
  : PonPort.t * list Indication :=
  if String.eqb event "enable" then (PonPort.set_InternalState "enabled" pon, [])
  else if String.eqb event "disable" then (PonPort.set_InternalState "disabled" pon, [])
  else (pon, []).

(** What storing the flow [fid] under the resources [rids] of the pair
    (pon, onu) does to a ledger, as far as the statements below need it. *)
Definition stored_into (pon onu : Z) (rids : list Z) (fid : Z) (L L' : Ledger) : Prop :=
  (entries_nonempty L -> entries_nonempty L')
  /\ (forall g, referenced L' g -> referenced L g \/ g = fid)
  /\ (forall p u rid,
        claimed_by L' p u rid ->
        claimed_by L p u rid \/ (p = pon /\ u = onu /\ rid ∈ rids)).

(** The ONU behind the pointer (pi, oi). *)
Definition onu_at (o : OltDevice.t) (pi oi : nat) : option Onu.t :=
  match Pons o !! pi with
  | None => None
  | Some pon => PonPort.Onus pon !! oi
  end.

(** The PON of [demo_olt1]. *)
Definition demo_pon1 : PonPort.t := default demo_pon (Pons demo_olt1 !! 0%nat).

Definition demo_activate : openolt_Onu :=
  {| IntfId := 0; OnuId := 1; SerialNumber := "BBSM00000001" |}.

(** Two stores on the GEM-port ledger, one of them replicated, and their
    frees. *)
Definition demo_ledger_ops : list LedgerOp :=
  [ Store demo_flow1; Store demo_flow5; Free demo_flow1; Free demo_flow5 ].

(** Activation, the scenario of the specification (the second flow is
    refused, then admitted once the first one is removed), and a reboot. *)
Definition demo_device_ops : list DeviceOp :=
  [ OpActivateOnu demo_activate;
    OpFlowAdd demo_flow1;
    OpFlowAdd demo_flow2;
    OpFlowRemove demo_flow1;
    OpFlowAdd demo_flow2;
    OpFlowAdd demo_flow5;
    OpRestartOLT 1700000060 ].

Definition demo_messages : list types.Message :=
  [ types.OltIndication types.UP;
    types.NniIndication types.UP 0;
    types.PonIndication types.UP 0 ].

(** ** More of olt.go: lookups, handlers that send to the loop, telemetry

    Some methods write through the package variable [olt] where others
    use their receiver ([InitOlt], [ActivateOnu], [FlowAdd],
    [FlowRemove]).  [CreateOLT] fills [olt] and returns its address, and
    [GetOLT] hands out the same address, so the receiver of a method and
    [olt] are one device. *)

Definition HasNni (o : OltDevice.t) (id : Z) : bool :=
  existsb (fun intf => Z.eqb (NniPort.ID intf) id) (Nnis o).

Inductive FindError :=
| ErrCannotFindOnuBySerialNumber (serialNumber : string)
| ErrCannotFindOnuById (intfId onuId : Z).

(** [&Onu{}], what the two lookups below return beside their error: every
    field has its zero value; the empty string stands for the state
    machine that the empty ONU does not have. *)
Definition Onu_zero : Onu.t := Onu.mk 0 0 "" "" [] [] [].

Definition FindOnuBySn (o : OltDevice.t) (serialNumber : string)
  : Onu.t * option FindError :=
  match first_some
          (fun pon =>
             first_some
               (fun onu => if decide (Onu.Sn onu = serialNumber) then Some onu else None)
               (PonPort.Onus pon))
          (Pons o) with
  | Some onu => (onu, None)
  | None => (Onu_zero, Some (ErrCannotFindOnuBySerialNumber serialNumber))
  end.

Definition FindOnuById (o : OltDevice.t) (intfId onuId : Z)
  : Onu.t * option FindError :=
  match first_some
          (fun pon =>
             if decide (PonPort.ID pon = intfId) then
               first_some
                 (fun onu => if decide (Onu.ID onu = onuId) then Some onu else None)
                 (PonPort.Onus pon)
             else None)
          (Pons o) with
  | Some onu => (onu, None)
  | None => (Onu_zero, Some (ErrCannotFindOnuById intfId onuId))
  end.

(** [o.channel <- msg] on the unbuffered channel of the device: the send
    returns once the loop has taken the message.  A closed channel panics
    and a nil channel blocks for ever; in both cases the handler does not
    return, which is [None].  [out] is what the handler has sent so far. *)
Definition channel_send (o : OltDevice.t) (msg : types.Message)
    (out : list types.Message) : option (list types.Message) :=
  match channel o with
  | ChanOpen => Some (out ++ [msg])
  | _ => None
  end.

Section Alarms.

(** [InterfaceIDToPortNo] is declared in a file that is not at hand. *)
Variable InterfaceIDToPortNo : Z -> string -> Z.

(** The result: the error returned, and the messages sent to the loop. *)
Definition SetAlarm (o : OltDevice.t) (interfaceId : Z)
    (interfaceType alarmStatus : string)
  : option (option Error * list types.Message) :=
  let absent :=
    if String.eqb interfaceType "nni" then
      if negb (HasNni o interfaceId)
      then Some (ErrStatusNotFound (pretty interfaceId +:+ " NNI not present in olt"))
      else None
    else if String.eqb interfaceType "pon" then
      if negb (HasPon o interfaceId)
      then Some (ErrStatusNotFound (pretty interfaceId +:+ " PON not present in olt"))
      else None
    else None in
  match absent with
  | Some err => Some (Some err, [])
  | None =>
      let alarmIndication :=
        {| LosInd_IntfId := InterfaceIDToPortNo interfaceId interfaceType;
           LosInd_Status := alarmStatus |} in
      match channel_send o (types.AlarmIndication alarmIndication) [] with
      | None => None
      | Some out => Some (None, out)
      end
  end.

End Alarms.

(** The sends of a loop over the PONs: one message for every PON whose
    InternalState is [state]. *)
Definition send_pons (o : OltDevice.t) (state : string) (st : types.OperState)
    (out : list types.Message) : option (list types.Message) :=
  foldl (fun acc pon =>
           match acc with
           | None => None
           | Some out =>
               if String.eqb (PonPort.InternalState pon) state
               then channel_send o (types.PonIndication st (PonPort.ID pon)) out
               else Some out
           end)
        (Some out) (Pons o).

(** The result of the two handlers below: the device (an event has been
    published) and the messages sent to the loop, in order. *)
Definition DisableOlt (o : OltDevice.t) : option (OltDevice.t * list types.Message) :=
  let o := publishEvent "OLT-disable-received" (-1) (-1) "" o in
  match send_pons o "enabled" types.DOWN [] with
  | None => None
  | Some out =>
      match channel_send o (types.OltIndication types.DOWN) out with
      | None => None
      | Some out => Some (o, out)
      end
  end.

Definition ReenableOlt (o : OltDevice.t) : option (OltDevice.t * list types.Message) :=
  let o := publishEvent "OLT-reenable-received" (-1) (-1) "" o in
  match channel_send o (types.OltIndication types.UP) [] with
  | None => None
  | Some out =>
      match send_pons o "disabled" types.UP out with
      | None => None
      | Some out => Some (o, out)
      end
  end.

(** [GetDeviceInfo]: of the [DeviceInfo] it returns, the fields that are
    copied from the configuration are left out; [PreviouslyConnected] is
    read before the flag is set. *)
Definition GetDeviceInfo (o : OltDevice.t) : OltDevice.t * bool :=
  (set_PreviouslyConnected true o, PreviouslyConnected o).

(** *** The telemetry loop *)

(** [openolt.PortStatistics]: the interface, the BIP errors, and the other
    counters in the order of the message. *)
Record PortStatistics := {
  ps_IntfId : Z;
  ps_BipErrors : Z;
  ps_counters : list Z
}.

(** What [send25GPortStatsIndication] puts on the stream: nothing unless
    the device is enabled and the stream takes the [Send]; the BIP errors
    are zeroed while [latencyFlag] is off.  [stats] points to the caller's
    copy of the sample, so the table of samples is not written. *)
Definition send25GPortStatsIndication (o : OltDevice.t) (latencyFlag : bool)
    (stats : PortStatistics) : list PortStatistics :=
  if String.eqb (InternalState o) OltInternalStateEnabled then
    let stats := if latencyFlag then stats
                 else {| ps_IntfId := ps_IntfId stats; ps_BipErrors := 0;
                         ps_counters := ps_counters stats |} in
    if broken (OpenoltStream o) then [] else [stats]
  else [].

(** What the [select] of [periodicPortStats] yields: the timer, with the
    device and the flag as they are at that moment, or the end of the
    context. *)
Inductive StatsEvent :=
| Tick (o : OltDevice.t) (latencyFlag : bool)
| StatsDone.

(** The body of the timer case: [OltStats[count]] panics out of range. *)
Definition stats_tick (OltStats : list PortStatistics) (o : OltDevice.t)
    (latencyFlag : bool) (count : nat) : option (nat * list PortStatistics) :=
  match OltStats !! count with
  | None => None
  | Some sendStat =>
      let count := S count in
      Some (if Nat.eqb (length OltStats) count then 0%nat else count,
            send25GPortStatsIndication o latencyFlag sendStat)
  end.

(** The loop from a given [count]; the result is what has been sent, in
    order. *)
Fixpoint stats_loop (OltStats : list PortStatistics) (count : nat)
    (events : list StatsEvent) : option (list PortStatistics) :=
  match events with
  | [] => Some []
  | StatsDone :: _ => Some []
  | Tick o latencyFlag :: rest =>
      match stats_tick OltStats o latencyFlag count with
      | None => None
      | Some (count, out) =>
          match stats_loop OltStats count rest with
          | None => None
          | Some more => Some (out ++ more)
          end
      end
  end.

Definition periodicPortStats (OltStats : list PortStatistics)
    (events : list StatsEvent) : option (list PortStatistics) :=
  stats_loop OltStats 0 events.

(** *** Vocabulary and inputs for the statements on these functions *)

(** The sample the k-th tick reads. *)
Definition sample_at (OltStats : list PortStatistics) (k : nat)
  : option PortStatistics :=
  OltStats !! (k mod length OltStats)%nat.

Definition demo_stats : list PortStatistics :=
  [ {| ps_IntfId := 0; ps_BipErrors := 7; ps_counters := [10; 20] |};
    {| ps_IntfId := 0; ps_BipErrors := 8; ps_counters := [11; 21] |};
    {| ps_IntfId := 0; ps_BipErrors := 9; ps_counters := [12; 22] |} ].

Definition demo_ticks : list StatsEvent :=
  [ Tick demo_olt false; Tick demo_olt_disabled false; Tick demo_olt true;
    Tick demo_olt false; StatsDone ].

Definition demo_InterfaceIDToPortNo (intfId : Z) (intfType : string) : Z :=
  if String.eqb intfType "nni" then 2 ^ 24 + intfId
  else if String.eqb intfType "pon" then 2 ^ 29 + intfId
  else intfId.

(** An ONU machine that ignores its events. *)
Definition demo_onuEvent_idle (onu : Onu.t) (event : string) : Onu.t := onu.

(** [demo_olt] with one flow of ONU 1 whose flow ID is also referenced
    under a second GEM port. *)
Definition demo_flow6 : Flow.t := Flow.mk 0 1 6 "" 100 50 16 false ∅.

Definition demo_pon_enabled : PonPort.t :=
  PonPort.set_InternalState "enabled" demo_pon.

Definition demo_olt_pon_enabled : OltDevice.t :=
  set_Pons [demo_pon_enabled] demo_olt.

(** What the indication loop leaves alone: everything but the stream, the
    state machines and the ports, of which it keeps the number. *)
Definition loop_frame (o o' : OltDevice.t) : Prop :=
  OltServer o' = OltServer o /\ NniSpeed o' = NniSpeed o
  /\ channel o' = channel o /\ Flows o' = Flows o
  /\ PreviouslyConnected o' = PreviouslyConnected o
  /\ enableContext o' = enableContext o /\ enablePerf o' = enablePerf o
  /\ AllocIDs o' = AllocIDs o /\ GemPortIDs o' = GemPortIDs o
  /\ signature o' = signature o /\ published o' = published o
  /\ length (Pons o') = length (Pons o) /\ length (Nnis o') = length (Nnis o).

(** The messages a handler hands to the loop, as the loop receives
    them. *)
Definition received (msgs : list types.Message) : list ChanEvent := Recv <$> msgs.

(** The PON indications of the PONs that are in a given state. *)
Definition pon_indications (state : string) (st : types.OperState)
    (pons : list PonPort.t) : list types.Message :=
  (fun pon => types.PonIndication st (PonPort.ID pon))
    <$> filter (fun pon => PonPort.InternalState pon = state) pons.

Definition is_pon_indication (m : types.Message) : bool :=
  match m with types.PonIndication _ _ => true | _ => false end.

(** * Facts about the ledgers *)

Lemma ledger_entry_Some (L : Ledger) p u port rid (flows : FlowSet) :
  ledger_entry L p u port rid = Some flows <->
  exists (onus : OnuMap) (unis : UniMap) (res : ResMap),
    L !! p = Some onus /\ onus !! u = Some unis /\ unis !! port = Some res
    /\ res !! rid = Some flows.
Proof.
  unfold ledger_entry. split.
  - destruct (L !! p) as [onus|] eqn:H1; simpl; [|by rewrite lookup_empty].
    destruct (onus !! u) as [unis|] eqn:H2; simpl; [|by rewrite lookup_empty].
    destruct (unis !! port) as [res|] eqn:H3; simpl; [|by rewrite lookup_empty].
    intros H. by exists onus, unis, res.
  - intros (onus & unis & res & H1 & H2 & H3 & H4). rewrite H1. simpl.
    rewrite H2. simpl. rewrite H3. simpl. exact H4.
Qed.

Lemma ledger_onu_Some (L : Ledger) p u (unis : UniMap) :
  ledger_onu L p u = Some unis <->
  exists onus : OnuMap, L !! p = Some onus /\ onus !! u = Some unis.
Proof.
  unfold ledger_onu. split.
  - destruct (L !! p) as [onus|] eqn:H1; simpl; [|by rewrite lookup_empty].
    intros H. by exists onus.
  - intros (onus & H1 & H2). rewrite H1. exact H2.
Qed.

Lemma ledger_entry_via_onu (L : Ledger) p u port rid :
  ledger_entry L p u port rid =
  default ∅ (default ∅ (ledger_onu L p u) !! port) !! rid.
Proof. reflexivity. Qed.

Lemma no_entries_lookup (L : Ledger) :
  no_entries L <-> forall p u port rid, ledger_entry L p u port rid = None.
Proof.
  split.
  - intros H p u port rid.
    destruct (ledger_entry L p u port rid) as [flows|] eqn:E; [|done].
    apply ledger_entry_Some in E as (onus & unis & res & H1 & H2 & H3 & H4).
    rewrite (H _ _ H1 _ _ H2 _ _ H3) in H4. by rewrite lookup_empty in H4.
  - intros H p onus H1 u unis H2 port res H3. apply map_empty. intros rid.
    specialize (H p u port rid). unfold ledger_entry in H.
    rewrite H1 in H; simpl in H. rewrite H2 in H; simpl in H.
    by rewrite H3 in H.
Qed.

Lemma entries_nonempty_lookup (L : Ledger) :
  entries_nonempty L <->
  forall p u port rid flows, ledger_entry L p u port rid = Some flows -> flows ≠ ∅.
Proof.
  split.
  - intros H p u port rid flows E.
    apply ledger_entry_Some in E as (onus & unis & res & H1 & H2 & H3 & H4).
    exact (H _ _ H1 _ _ H2 _ _ H3 _ _ H4).
  - intros H p onus H1 u unis H2 port res H3 rid flows H4.
    apply (H p u port rid). apply ledger_entry_Some. by exists onus, unis, res.
Qed.

Lemma no_entries_nonempty (L : Ledger) : no_entries L -> entries_nonempty L.
Proof.
  rewrite no_entries_lookup, entries_nonempty_lookup.
  intros H p u port rid flows E. by rewrite H in E.
Qed.

Lemma no_entries_unique (L : Ledger) : no_entries L -> unique_per_pon L.
Proof.
  rewrite no_entries_lookup. intros H pon onu1 onu2 rid [port [flows E]] _.
  by rewrite H in E.
Qed.

Lemma ledger_empty_no_entries (L : Ledger) : ledger_empty L -> no_entries L.
Proof.
  intros H p onus H1. rewrite (H _ _ H1). apply map_Forall_empty.
Qed.

Lemma no_entries_not_referenced (L : Ledger) g : no_entries L -> ¬ referenced L g.
Proof.
  rewrite no_entries_lookup. intros H (p & u & port & rid & flows & E & _).
  by rewrite H in E.
Qed.

(** ** [ledger_store] *)

Lemma ledger_entry_store (L L' : Ledger) p u port rid fid :
  ledger_store L p u port rid fid = Some L' ->
  forall p' u' port' rid',
    ledger_entry L' p' u' port' rid' =
    if decide (p' = p /\ u' = u /\ port' = port /\ rid' = rid)
    then Some (<[fid := true]> (default ∅ (ledger_entry L p u port rid)))
    else ledger_entry L p' u' port' rid'.
Proof.
  unfold ledger_store. destruct (ledger_onu L p u) as [unis|] eqn:E; [|done].
  intros [= <-] p' u' port' rid'.
  apply ledger_onu_Some in E as (onus & H1 & H2).
  unfold ledger_entry. rewrite H1. simpl.
  destruct (decide (p' = p)) as [->|Hp].
  2:{ rewrite lookup_insert_ne by done. rewrite decide_False by (intros (?&?&?&?); done). done. }
  rewrite lookup_insert_eq. simpl.
  destruct (decide (u' = u)) as [->|Hu].
  2:{ rewrite lookup_insert_ne by done. rewrite H1. simpl.
      rewrite decide_False by (intros (?&?&?&?); done). done. }
  rewrite lookup_insert_eq. simpl.
  destruct (decide (port' = port)) as [->|Hport].
  2:{ rewrite lookup_insert_ne by done. rewrite H1. simpl. rewrite H2. simpl.
      rewrite decide_False by (intros (?&?&?&?); done). done. }
  rewrite lookup_insert_eq. simpl.
  destruct (decide (rid' = rid)) as [->|Hrid].
  2:{ rewrite lookup_insert_ne by done. rewrite H1. simpl. rewrite H2. simpl.
      rewrite decide_False by (intros (?&?&?&?); done). done. }
  rewrite lookup_insert_eq. rewrite decide_True by done.
  rewrite H2. simpl. done.
Qed.

Lemma ledger_onu_store (L L' : Ledger) p u port rid fid :
  ledger_store L p u port rid fid = Some L' ->
  forall p' u', is_Some (ledger_onu L' p' u') <-> is_Some (ledger_onu L p' u').
Proof.
  unfold ledger_store. destruct (ledger_onu L p u) as [unis|] eqn:E; [|done].
  intros [= <-] p' u'.
  pose proof E as E'. apply ledger_onu_Some in E as (onus & H1 & H2).
  unfold ledger_onu in *. rewrite H1. simpl.
  destruct (decide (p' = p)) as [->|Hp].
  2:{ by rewrite lookup_insert_ne by done. }
  rewrite lookup_insert_eq, H1. simpl.
  destruct (decide (u' = u)) as [->|Hu].
  - rewrite lookup_insert_eq, H2. split; eauto.
  - by rewrite lookup_insert_ne by done.
Qed.

Lemma ledger_store_is_Some (L : Ledger) p u port rid fid :
  is_Some (ledger_store L p u port rid fid) <-> is_Some (ledger_onu L p u).
Proof.
  unfold ledger_store. destruct (ledger_onu L p u); split; intros [? ?]; eauto; done.
Qed.

Lemma ledger_store_nonempty (L L' : Ledger) p u port rid fid :
  ledger_store L p u port rid fid = Some L' ->
  entries_nonempty L -> entries_nonempty L'.
Proof.
  intros Hs. rewrite !entries_nonempty_lookup. intros H p' u' port' rid' flows.
  rewrite (ledger_entry_store _ _ _ _ _ _ _ Hs). case_decide.
  - intros [= <-]. apply insert_non_empty.
  - apply H.
Qed.

Lemma ledger_store_referenced (L L' : Ledger) p u port rid fid g :
  ledger_store L p u port rid fid = Some L' ->
  referenced L' g -> referenced L g \/ g = fid.
Proof.
  intros Hs (p' & u' & port' & rid' & flows & E & Hg).
  rewrite (ledger_entry_store _ _ _ _ _ _ _ Hs) in E. case_decide as Hd.
  - injection E as <-. destruct (decide (g = fid)) as [->|Hne]; [by right|left].
    rewrite lookup_insert_ne in Hg by done.
    destruct (ledger_entry L p u port rid) as [fl|] eqn:E0; simpl in Hg.
    + by exists p, u, port, rid, fl.
    + rewrite lookup_empty in Hg. by destruct Hg.
  - left. by exists p', u', port', rid', flows.
Qed.

(** ** [ledger_free] *)

Lemma free_flows_empty fid : free_flows fid ∅ = Some ∅.
Proof. reflexivity. Qed.

Lemma free_flows_Some fid (flows flows' : FlowSet) :
  flows ≠ ∅ -> free_flows fid flows = Some flows' ->
  flows' = delete fid flows /\ flows' ≠ ∅.
Proof.
  intros Hne. unfold free_flows.
  destruct (Nat.eqb_spec (size flows) 0) as [H0|_].
  { by apply map_size_empty_iff in H0. }
  destruct (Nat.eqb_spec (size (delete fid flows)) 0) as [|H1]; [done|].
  intros [= <-]. split; [done|]. intros Hd. apply H1. by rewrite Hd.
Qed.

Lemma free_flows_None fid (flows : FlowSet) :
  free_flows fid flows = None -> flows ≠ ∅ /\ delete fid flows = ∅.
Proof.
  unfold free_flows.
  destruct (Nat.eqb_spec (size flows) 0) as [|H0]; [done|].
  destruct (Nat.eqb_spec (size (delete fid flows)) 0) as [H1|]; [|done].
  intros _. split.
  - intros ->. by apply H0.
  - by apply map_size_empty_iff.
Qed.

Lemma ledger_entry_free fid (L : Ledger) p u port rid :
  ledger_entry (ledger_free fid L) p u port rid =
  ledger_entry L p u port rid ≫= free_flows fid.
Proof.
  unfold ledger_entry, ledger_free, free_pon, free_onu, free_uni.
  rewrite lookup_fmap. destruct (L !! p) as [onus|]; simpl.
  2:{ by rewrite !lookup_empty. }
  rewrite lookup_fmap. destruct (onus !! u) as [unis|]; simpl.
  2:{ by rewrite !lookup_empty. }
  rewrite lookup_fmap. destruct (unis !! port) as [res|]; simpl.
  2:{ by rewrite !lookup_empty. }
  by rewrite lookup_omap.
Qed.

Lemma ledger_onu_free fid (L : Ledger) p u :
  ledger_onu (ledger_free fid L) p u = free_onu fid <$> ledger_onu L p u.
Proof.
  unfold ledger_onu, ledger_free, free_pon.
  rewrite lookup_fmap. destruct (L !! p) as [onus|]; simpl.
  - by rewrite lookup_fmap.
  - by rewrite !lookup_empty.
Qed.

Lemma ledger_free_nonempty fid (L : Ledger) :
  entries_nonempty L -> entries_nonempty (ledger_free fid L).
Proof.
  rewrite !entries_nonempty_lookup. intros H p u port rid flows.
  rewrite ledger_entry_free.
  destruct (ledger_entry L p u port rid) as [fl|] eqn:E; simpl; [|done].
  intros Hf. eapply free_flows_Some; eauto.
Qed.

Lemma ledger_free_referenced fid (L : Ledger) g :
  entries_nonempty L ->
  referenced (ledger_free fid L) g -> referenced L g /\ g ≠ fid.
Proof.
  rewrite entries_nonempty_lookup.
  intros Hne (p & u & port & rid & flows & E & Hg).
  rewrite ledger_entry_free in E.
  destruct (ledger_entry L p u port rid) as [fl|] eqn:E0; simpl in E; [|done].
  destruct (free_flows_Some _ _ _ (Hne _ _ _ _ _ E0) E) as [-> _].
  destruct (decide (g = fid)) as [->|Hgf].
  { rewrite lookup_delete_eq in Hg. by destruct Hg. }
  rewrite lookup_delete_ne in Hg by done. split; [|done].
  by exists p, u, port, rid, fl.
Qed.

Lemma ledger_free_claimed fid (L : Ledger) pon onu rid :
  claimed_by (ledger_free fid L) pon onu rid -> claimed_by L pon onu rid.
Proof.
  intros [port [flows E]]. exists port. rewrite ledger_entry_free in E.
  destruct (ledger_entry L pon onu port rid); [eauto|done].
Qed.

Lemma ledger_free_unique fid (L : Ledger) :
  unique_per_pon L -> unique_per_pon (ledger_free fid L).
Proof.
  intros H pon onu1 onu2 rid H1 H2.
  eapply H; eapply ledger_free_claimed; eauto.
Qed.

(** ** Loops that return from their body *)

Lemma first_some_None {A B : Type} (f : A -> option B) (l : list A) :
  first_some f l = None <-> forall a, a ∈ l -> f a = None.
Proof.
  induction l as [|x l IH]; simpl.
  - split; [|done]. intros _ a Ha. by apply elem_of_nil in Ha.
  - destruct (f x) as [b|] eqn:E.
    + split; [done|]. intros H. rewrite <- E. apply H. by left.
    + rewrite IH. split.
      * intros H a [->|Ha]%elem_of_cons; auto.
      * intros H a Ha. apply H. by right.
Qed.

Lemma first_some_Some {A B : Type} (f : A -> option B) (l : list A) (b : B) :
  first_some f l = Some b -> exists a, a ∈ l /\ f a = Some b.
Proof.
  induction l as [|x l IH]; simpl; [done|].
  destruct (f x) as [b'|] eqn:E.
  - intros [= <-]. exists x. split; [by left|done].
  - intros H. destruct (IH H) as (a & Ha & Hf). exists a. split; [by right|done].
Qed.

Lemma first_some_map_None {V B : Type} (f : Z * V -> option B) (m : gmap Z V) :
  first_some f (map_to_list m) = None <-> forall k v, m !! k = Some v -> f (k, v) = None.
Proof.
  rewrite first_some_None. split.
  - intros H k v Hkv. apply H. by apply elem_of_map_to_list.
  - intros H [k v] Hkv. apply H. by apply elem_of_map_to_list.
Qed.

Lemma first_some_map_Some {V B : Type} (f : Z * V -> option B) (m : gmap Z V) (b : B) :
  first_some f (map_to_list m) = Some b -> exists k v, m !! k = Some v /\ f (k, v) = Some b.
Proof.
  intros H. apply first_some_Some in H as ([k v] & Hkv & Hf).
  exists k, v. split; [by apply elem_of_map_to_list|done].
Qed.

(** ** [validateFlow] *)

Lemma elem_of_flow_gems (flow : Flow.t) (g : Z) :
  g ∈ flow_gems flow <->
  if Flow.ReplicateFlow flow
  then exists pbit flowGem, Flow.PbitToGemport flow !! pbit = Some flowGem /\ g = int32 flowGem
  else g = Flow.GemportId flow.
Proof.
  unfold flow_gems. destruct (Flow.ReplicateFlow flow).
  - rewrite list_elem_of_fmap. split.
    + intros ([k v] & -> & Hkv). exists k, v. split; [|done].
      by apply elem_of_map_to_list.
    + intros (k & v & Hkv & ->). exists (k, v). split; [done|].
      by apply elem_of_map_to_list.
  - rewrite list_elem_of_singleton. done.
Qed.

(** A flow passes the validation exactly when none of its GEM ports and
    not its Alloc-ID is held by another ONU of its PON. *)
Lemma validateFlow_None (o : OltDevice.t) (flow : Flow.t) :
  validateFlow o flow = None <->
  (forall u port g flows,
      u ≠ uint32 (Flow.OnuId flow) ->
      ledger_entry (GemPortIDs o) (uint32 (Flow.AccessIntfId flow)) u port g = Some flows ->
      g ∉ flow_gems flow)
  /\ (forall u port a flows,
      u ≠ uint32 (Flow.OnuId flow) ->
      ledger_entry (AllocIDs o) (uint32 (Flow.AccessIntfId flow)) u port a = Some flows ->
      a ≠ Flow.AllocId flow).
Proof.
  unfold validateFlow.
  set (pon := uint32 (Flow.AccessIntfId flow)).
  set (me := uint32 (Flow.OnuId flow)).
  match goal with |- context [match ?s with Some _ => _ | None => _ end] =>
    set (gemScan := s) end.
  assert (Hgem : gemScan = None <->
                 forall u port g flows, u ≠ me ->
                   ledger_entry (GemPortIDs o) pon u port g = Some flows ->
                   g ∉ flow_gems flow).
  { subst gemScan. rewrite first_some_map_None. split.
    - intros H u port g flows Hu E Hin.
      apply ledger_entry_Some in E as (onus & unis & res & H1 & H2 & H3 & H4).
      rewrite H1 in H. simpl in H. specialize (H _ _ H2). simpl in H.
      rewrite decide_False in H by done.
      rewrite first_some_map_None in H. specialize (H _ _ H3). simpl in H.
      rewrite first_some_map_None in H. specialize (H _ _ H4). simpl in H.
      apply elem_of_flow_gems in Hin.
      destruct (Flow.ReplicateFlow flow).
      + destruct Hin as (pbit & flowGem & Hp & ->).
        rewrite first_some_map_None in H. specialize (H _ _ Hp). simpl in H.
        by rewrite decide_True in H by done.
      + subst g. by rewrite decide_True in H by done.
    - intros H u unis H2. simpl. case_decide as Hu; [done|].
      apply first_some_map_None. intros port res H3. simpl.
      apply first_some_map_None. intros g flows H4. simpl.
      assert (E : ledger_entry (GemPortIDs o) pon u port g = Some flows).
      { apply ledger_entry_Some.
        destruct (GemPortIDs o !! pon) as [onus|] eqn:H1; simpl in H2.
        - by exists onus, unis, res.
        - by rewrite lookup_empty in H2. }
      specialize (H _ _ _ _ Hu E). rewrite elem_of_flow_gems in H.
      destruct (Flow.ReplicateFlow flow).
      + apply first_some_map_None. intros pbit flowGem Hp. simpl.
        case_decide as Hg; [|done]. exfalso. apply H. eauto.
      + by rewrite decide_False by done. }
  destruct gemScan as [err|] eqn:Egem.
  { split; [done|]. intros [H _]. apply Hgem in H. done. }
  rewrite first_some_map_None. split.
  - intros H. split; [by apply Hgem|].
    intros u port a flows Hu E ->.
    apply ledger_entry_Some in E as (onus & unis & res & H1 & H2 & H3 & H4).
    fold pon in H1. rewrite H1 in H. simpl in H. specialize (H _ _ H2). simpl in H.
    fold me in H. rewrite decide_False in H by done.
    rewrite first_some_map_None in H. specialize (H _ _ H3). simpl in H.
    rewrite first_some_map_None in H. specialize (H _ _ H4). simpl in H.
    by rewrite decide_True in H by done.
  - intros [_ H] u unis H2. simpl. fold me. case_decide as Hu; [done|].
    apply first_some_map_None. intros port res H3. simpl.
    apply first_some_map_None. intros a flows H4. simpl.
    case_decide as Ha; [|done]. exfalso.
    apply (H u port a flows Hu); [|done].
    apply ledger_entry_Some.
    destruct (AllocIDs o !! pon) as [onus|] eqn:H1; simpl in H2.
    + by exists onus, unis, res.
    + by rewrite lookup_empty in H2.
Qed.

(** Whatever [validateFlow] returns is one of its two conflict messages. *)
Lemma validateFlow_Some_conflict (o : OltDevice.t) (flow : Flow.t) (err : Error) :
  validateFlow o flow = Some err -> is_ResourceConflictError err = true.
Proof.
  unfold validateFlow.
  match goal with |- context [match ?s with Some _ => _ | None => _ end] =>
    destruct s as [e|] eqn:Egem end.
  - intros [= <-].
    apply first_some_map_Some in Egem as (u & unis & _ & H). simpl in H.
    case_decide; [done|].
    apply first_some_map_Some in H as (port & res & _ & H). simpl in H.
    apply first_some_map_Some in H as (g & flows & _ & H). simpl in H.
    destruct (Flow.ReplicateFlow flow).
    + apply first_some_map_Some in H as (pbit & flowGem & _ & H). simpl in H.
      case_decide; [|done]. by injection H as <-.
    + case_decide; [|done]. by injection H as <-.
  - intros H.
    apply first_some_map_Some in H as (u & unis & _ & H). simpl in H.
    case_decide; [done|].
    apply first_some_map_Some in H as (port & res & _ & H). simpl in H.
    apply first_some_map_Some in H as (a & flows & _ & H). simpl in H.
    case_decide; [|done]. by injection H as <-.
Qed.

(** [validateFlow] reads the two ledgers and nothing else. *)
Lemma validateFlow_ext (o o' : OltDevice.t) (flow : Flow.t) :
  AllocIDs o' = AllocIDs o -> GemPortIDs o' = GemPortIDs o ->
  validateFlow o' flow = validateFlow o flow.
Proof. intros HA HG. unfold validateFlow. by rewrite HA, HG. Qed.

(** ** Stores of the device *)

Lemma stored_into_refl pon onu rids fid (L : Ledger) : stored_into pon onu rids fid L L.
Proof. split; [done|]. split; intros; by left. Qed.

Lemma stored_into_trans pon onu rids fid (L1 L2 L3 : Ledger) :
  stored_into pon onu rids fid L1 L2 -> stored_into pon onu rids fid L2 L3 ->
  stored_into pon onu rids fid L1 L3.
Proof.
  intros (A1 & B1 & C1) (A2 & B2 & C2). split; [auto|]. split.
  - intros g Hg. destruct (B2 g Hg) as [H|H]; [|by right]. by apply B1.
  - intros p u rid Hc. destruct (C2 p u rid Hc) as [H|H]; [|by right]. by apply C1.
Qed.

Lemma ledger_store_stored_into (L L' : Ledger) pon onu port rid fid rids :
  rid ∈ rids ->
  ledger_store L pon onu port rid fid = Some L' ->
  stored_into pon onu rids fid L L'.
Proof.
  intros Hin Hs. split; [by eapply ledger_store_nonempty|]. split.
  - intros g. by eapply ledger_store_referenced.
  - intros p u rid' (port' & flows & E).
    rewrite (ledger_entry_store _ _ _ _ _ _ _ Hs) in E. case_decide as Hd.
    + right. destruct Hd as (-> & -> & _ & ->). done.
    + left. exists port'. eauto.
Qed.

Lemma storeAllocId_Some (o o' : OltDevice.t) (flow : Flow.t) :
  storeAllocId o flow = Some o' ->
  exists L',
    ledger_store (AllocIDs o) (uint32 (Flow.AccessIntfId flow)) (uint32 (Flow.OnuId flow))
      (Flow.PortNo flow) (Flow.AllocId flow) (Flow.FlowId flow) = Some L'
    /\ o' = set_AllocIDs L' o.
Proof.
  unfold storeAllocId. destruct (ledger_store _ _ _ _ _ _) as [L'|]; [|done].
  intros [= <-]. eauto.
Qed.

Lemma storeAllocId_stored_into (o o' : OltDevice.t) (flow : Flow.t) :
  storeAllocId o flow = Some o' ->
  o' = set_AllocIDs (AllocIDs o') o
  /\ stored_into (uint32 (Flow.AccessIntfId flow)) (uint32 (Flow.OnuId flow))
       [Flow.AllocId flow] (Flow.FlowId flow) (AllocIDs o) (AllocIDs o').
Proof.
  intros H. apply storeAllocId_Some in H as (L' & Hs & ->). split; [done|].
  simpl. eapply ledger_store_stored_into; [|done]. by apply list_elem_of_singleton.
Qed.

Lemma storeGemPortId_Some (o o' : OltDevice.t) ponId onuId portNo gemId flowId :
  storeGemPortId o ponId onuId portNo gemId flowId = Some o' ->
  exists L',
    ledger_store (GemPortIDs o) ponId onuId portNo gemId flowId = Some L'
    /\ o' = set_GemPortIDs L' o.
Proof.
  unfold storeGemPortId. destruct (ledger_store _ _ _ _ _ _) as [L'|]; [|done].
  intros [= <-]. eauto.
Qed.

Lemma store_fold_None (flow : Flow.t) (l : list (Z * Z)) :
  foldl (fun acc kv =>
           match acc with
           | None => None
           | Some o' =>
               storeGemPortId o' (uint32 (Flow.AccessIntfId flow))
                 (uint32 (Flow.OnuId flow)) (Flow.PortNo flow) (int32 kv.2)
                 (Flow.FlowId flow)
           end) None l = None.
Proof. induction l; simpl; auto. Qed.

Lemma storeGemPortIdByFlow_stored_into (o o' : OltDevice.t) (flow : Flow.t) :
  storeGemPortIdByFlow o flow = Some o' ->
  o' = set_GemPortIDs (GemPortIDs o') o
  /\ stored_into (uint32 (Flow.AccessIntfId flow)) (uint32 (Flow.OnuId flow))
       (flow_gems flow) (Flow.FlowId flow) (GemPortIDs o) (GemPortIDs o').
Proof.
  unfold storeGemPortIdByFlow, flow_gems.
  destruct (Flow.ReplicateFlow flow).
  - generalize (map_to_list (Flow.PbitToGemport flow)). intros l.
    assert (Hsub : forall kv, kv ∈ l ->
              int32 kv.2 ∈ (fun kv : Z * Z => int32 kv.2) <$> l).
    { intros kv Hkv. apply list_elem_of_fmap. eauto. }
    revert Hsub. generalize ((fun kv : Z * Z => int32 kv.2) <$> l). intros rids.
    revert o. induction l as [|kv l IH]; intros o Hsub; simpl.
    + intros [= <-]. split; [by destruct o|]. apply stored_into_refl.
    + destruct (storeGemPortId o _ _ _ (int32 kv.2) _) as [o1|] eqn:E1.
      2:{ by rewrite store_fold_None. }
      intros Hf. destruct (IH o1) as [Ho' Hst]; [|done|].
      { intros kv' Hkv'. apply Hsub. by right. }
      apply storeGemPortId_Some in E1 as (L1 & Hs1 & ->).
      simpl in *. split.
      * rewrite Ho' at 1. reflexivity.
      * eapply stored_into_trans; [|exact Hst].
        eapply ledger_store_stored_into; [|exact Hs1]. apply Hsub. by left.
  - intros H. apply storeGemPortId_Some in H as (L' & Hs & ->). split; [done|].
    simpl. eapply ledger_store_stored_into; [|done]. by apply list_elem_of_singleton.
Qed.

(** ** [FlowAdd] along its branches *)

Lemma append_flow_ledgers pi oi onu flowKey (o : OltDevice.t) :
  AllocIDs (append_flow pi oi onu flowKey o) = AllocIDs o
  /\ GemPortIDs (append_flow pi oi onu flowKey o) = GemPortIDs o.
Proof. unfold append_flow. by destruct (Nat.eqb _ 1). Qed.

Lemma record_flow_ledgers (o : OltDevice.t) (flow : Flow.t) :
  AllocIDs (record_flow o flow) = AllocIDs o
  /\ GemPortIDs (record_flow o flow) = GemPortIDs o
  /\ Pons (record_flow o flow) = Pons o
  /\ enablePerf (record_flow o flow) = enablePerf o.
Proof. unfold record_flow. destruct (enablePerf o) eqn:E; simpl; by rewrite ?E. Qed.

(** The body of [FlowAdd] for a flow that is handed to an ONU. *)
Lemma FlowAdd_target (o : OltDevice.t) (flow : Flow.t) pi pon oi onu :
  target_onu o flow = Some (pi, pon, oi, onu) ->
  FlowAdd o flow =
    let o1 := record_flow o flow in
    if onu_rejects_flows onu
    then Some (o1, Some (ErrOnuIsCurrently (Onu.Sn onu) (Onu.InternalState onu)))
    else
      let o2 := if enablePerf o then o1
                else append_flow pi oi onu (Flow.FlowId flow) o1 in
      match validateFlow o flow with
      | Some err => Some (o2, Some err)
      | None =>
          match storeGemPortIdByFlow o2 flow with
          | None => None
          | Some o3 =>
              match storeAllocId o3 flow with
              | None => None
              | Some o4 =>
                  Some (alter_onu pi oi
                          (enqueue (types.FlowAdd (PonPort.ID pon) (Onu.ID onu) flow)) o4,
                        None)
              end
          end
      end.
Proof.
  unfold target_onu, FlowAdd. fold (record_flow o flow).
  destruct (Z.eqb (Flow.AccessIntfId flow) (-1)); [done|].
  destruct (String.eqb (Flow.FlowType flow) "multicast"); [done|].
  destruct (record_flow_ledgers o flow) as (HA & HG & HP & HE).
  unfold GetPonById. rewrite HP.
  destruct (list_find _ (Pons o)) as [[pi' pon']|]; [|done].
  destruct (GetOnuById pon' _) as [[oi' onu']|]; [|done].
  intros [= -> -> -> ->]. cbv zeta. fold (onu_rejects_flows onu).
  destruct (onu_rejects_flows onu); [done|].
  rewrite HE.
  assert (Hv : validateFlow
                 (if enablePerf o then record_flow o flow
                  else append_flow pi oi onu
                         (if enablePerf o then 0 else Flow.FlowId flow)
                         (record_flow o flow)) flow = validateFlow o flow).
  { apply validateFlow_ext; destruct (enablePerf o); try done;
      by rewrite (proj1 (append_flow_ledgers _ _ _ _ _)) ||
         rewrite (proj2 (append_flow_ledgers _ _ _ _ _)). }
  rewrite Hv. destruct (enablePerf o); reflexivity.
Qed.

(** Every other flow only reaches the flow table. *)
Lemma FlowAdd_no_target (o o' : OltDevice.t) (flow : Flow.t) r :
  target_onu o flow = None -> FlowAdd o flow = Some (o', r) ->
  o' = record_flow o flow.
Proof.
  unfold target_onu, FlowAdd. fold (record_flow o flow).
  destruct (Z.eqb (Flow.AccessIntfId flow) (-1)); [by intros _ [= <- _]|].
  destruct (String.eqb (Flow.FlowType flow) "multicast"); [by intros _ [= <- _]|].
  destruct (record_flow_ledgers o flow) as (HA & HG & HP & HE).
  unfold GetPonById. rewrite HP.
  destruct (list_find _ (Pons o)) as [[pi' pon']|]; [|done].
  destruct (GetOnuById pon' _) as [[oi' onu']|]; [done|].
  by intros _ [= <- _].
Qed.

(** What a call of [FlowAdd] that returns can have done to the ledgers:
    nothing, or the stores of a flow that passed the validation. *)
Lemma FlowAdd_ledgers (o o' : OltDevice.t) (flow : Flow.t) r :
  FlowAdd o flow = Some (o', r) ->
  (AllocIDs o' = AllocIDs o /\ GemPortIDs o' = GemPortIDs o)
  \/ (r = None /\ validateFlow o flow = None
      /\ stored_into (uint32 (Flow.AccessIntfId flow)) (uint32 (Flow.OnuId flow))
           (flow_gems flow) (Flow.FlowId flow) (GemPortIDs o) (GemPortIDs o')
      /\ stored_into (uint32 (Flow.AccessIntfId flow)) (uint32 (Flow.OnuId flow))
           [Flow.AllocId flow] (Flow.FlowId flow) (AllocIDs o) (AllocIDs o')).
Proof.
  destruct (record_flow_ledgers o flow) as (HA & HG & HP & HE).
  destruct (target_onu o flow) as [[[[pi pon] oi] onu]|] eqn:Ht.
  2:{ intros H. left. apply (FlowAdd_no_target _ _ _ _ Ht) in H. by subst o'. }
  rewrite (FlowAdd_target _ _ _ _ _ _ Ht). cbv zeta.
  destruct (onu_rejects_flows onu).
  { intros [= <- _]. by left. }
  set (o2 := if enablePerf o then _ else _).
  assert (H2 : AllocIDs o2 = AllocIDs o /\ GemPortIDs o2 = GemPortIDs o).
  { subst o2. destruct (enablePerf o); [done|].
    destruct (append_flow_ledgers pi oi onu (Flow.FlowId flow) (record_flow o flow))
      as [-> ->]. done. }
  destruct H2 as [H2A H2G].
  destruct (validateFlow o flow) as [err|] eqn:Hv.
  { intros [= <- _]. by left. }
  destruct (storeGemPortIdByFlow o2 flow) as [o3|] eqn:E3; [|done].
  destruct (storeAllocId o3 flow) as [o4|] eqn:E4; [|done].
  intros [= <- <-]. right. split; [done|]. split; [done|].
  apply storeGemPortIdByFlow_stored_into in E3 as [Ho3 Hg].
  apply storeAllocId_stored_into in E4 as [Ho4 Ha].
  rewrite Ho4. simpl. rewrite Ho3 in Ha |- *. simpl in *.
  rewrite H2G in Hg. rewrite H2A in Ha. done.
Qed.

(** A call of [FlowAdd] that returns an error has not stored anything. *)
Lemma FlowAdd_error_keeps_ledgers (o o' : OltDevice.t) (flow : Flow.t) (err : Error) :
  FlowAdd o flow = Some (o', Some err) ->
  AllocIDs o' = AllocIDs o /\ GemPortIDs o' = GemPortIDs o.
Proof.
  intros H. by destruct (FlowAdd_ledgers _ _ _ _ H) as [Hsame | (Hr & _)].
Qed.

(** ** [FlowRemove] *)

Lemma remove_stored_ledgers (o : OltDevice.t) (flow : Flow.t) :
  match remove_stored o flow with
  | inl o' | inr (o', _) =>
      AllocIDs o' = AllocIDs o /\ GemPortIDs o' = GemPortIDs o
  end.
Proof.
  unfold remove_stored.
  destruct (Flows o !! Flow.FlowId flow) as [storedFlow|]; [|done].
  destruct (negb _); [|done].
  destruct (GetPonById o _) as [[pi pon]|]; [|done].
  destruct (GetOnuById pon _) as [[oi onu]|]; done.
Qed.

Lemma FlowRemove_ledgers (o : OltDevice.t) (flow : Flow.t) :
  AllocIDs (FlowRemove o flow).1 = ledger_free (Flow.FlowId flow) (AllocIDs o)
  /\ GemPortIDs (FlowRemove o flow).1 = ledger_free (Flow.FlowId flow) (GemPortIDs o).
Proof.
  unfold FlowRemove.
  set (o1 := freeAllocId (freeGemPortId o flow) flow).
  assert (H1 : AllocIDs o1 = ledger_free (Flow.FlowId flow) (AllocIDs o)
               /\ GemPortIDs o1 = ledger_free (Flow.FlowId flow) (GemPortIDs o)) by done.
  destruct H1 as [<- <-].
  destruct (enablePerf o1).
  - destruct (Z.eqb _ _); [done|]. destruct (String.eqb _ _); [done|].
    destruct (GetOnuByFlowId o1 _) as [[pi oi]|]; done.
  - pose proof (remove_stored_ledgers o1 flow) as Hr.
    destruct (remove_stored o1 flow) as [o2|[o2 r]]; [|done].
    destruct Hr as [<- <-].
    destruct (Z.eqb _ _); [done|]. destruct (String.eqb _ _); [done|].
    destruct (GetOnuByFlowId o2 _) as [[pi oi]|]; done.
Qed.

(** ** The InternalState machine *)

(** The table built by [NewFSM] holds exactly the transitions the
    specification lists. *)
Lemma transitions_declared (state event : string) :
  fsm.transitions OltInternalEvents !! (event, state) = declared_transition state event.
Proof.
  unfold fsm.transitions, OltInternalEvents. cbn [foldl fsm.Src fsm.Name fsm.Dst].
  unfold OltInternalTxInitialize, OltInternalTxEnable, OltInternalTxDisable,
    OltInternalTxDelete, OltInternalStateCreated, OltInternalStateInitialized,
    OltInternalStateEnabled, OltInternalStateDisabled, OltInternalStateDeleted.
  unfold declared_transition.
  repeat (rewrite lookup_insert; case_decide; [simplify_eq; reflexivity|]).
  rewrite lookup_empty.
  repeat match goal with
         | |- context [String.eqb ?a ?b] =>
             destruct (String.eqb_spec a b); subst; simpl; try congruence
         end.
Qed.

Lemma declared_transition_moves (state event dst : string) :
  declared_transition state event = Some dst -> String.eqb state dst = false.
Proof.
  unfold declared_transition.
  repeat match goal with
         | |- context [String.eqb ?a ?b] =>
             destruct (String.eqb_spec a b); subst; simpl; try congruence
         end;
  intros [= <-]; reflexivity.
Qed.

(** [Event] on the OLT table: a declared pair moves the machine, any other
    pair leaves it where it is and yields an error. *)
Lemma fsm_Event_olt (state event : string) :
  fsm.Event OltInternalEvents state event =
  match declared_transition state event with
  | Some dst => (dst, None)
  | None =>
      (state,
       Some (if existsb (fun e => String.eqb (fsm.Name e) event) OltInternalEvents
             then fsm.InvalidEventError event state
             else fsm.UnknownEventError event))
  end.
Proof.
  unfold fsm.Event. rewrite transitions_declared.
  destruct (declared_transition state event) as [dst|] eqn:E.
  - by rewrite (declared_transition_moves _ _ _ E).
  - by destruct (existsb _ _).
Qed.

Lemma declared_transition_dst (state event dst : string) :
  declared_transition state event = Some dst ->
  (event = "initialize" /\ dst = "initialized")
  \/ (event = "enable" /\ dst = "enabled")
  \/ (event = "disable" /\ dst = "disabled")
  \/ (event = "delete" /\ dst = "deleted").
Proof.
  unfold declared_transition.
  repeat match goal with
         | |- context [String.eqb ?a ?b] =>
             destruct (String.eqb_spec a b); subst; simpl; try congruence
         end;
  intros [= <-]; tauto.
Qed.

Lemma declared_delete (state : string) :
  declared_transition state "delete" =
  if String.eqb state "disabled" || String.eqb state "enabled"
  then Some "deleted" else None.
Proof. reflexivity. Qed.

Lemma InternalState_Event_undeclared (o : OltDevice.t) (event : string) :
  declared_transition (InternalState o) event = None ->
  exists err, InternalState_Event o event = Some (o, Some err)
              /\ fsm.Event OltInternalEvents (InternalState o) event
                 = (InternalState o, Some err).
Proof.
  intros H. unfold InternalState_Event. rewrite fsm_Event_olt, H. eauto.
Qed.

(** The events of the indication loop never reach a callback. *)
Lemma InternalState_Event_loop (o : OltDevice.t) (st : types.OperState) :
  exists o' err,
    InternalState_Event o (olt_event_of st) = Some (o', err)
    /\ (o' = o \/ exists dst, o' = set_InternalState dst o).
Proof.
  unfold InternalState_Event. rewrite fsm_Event_olt.
  destruct (declared_transition _ _) as [dst|] eqn:E.
  - apply declared_transition_dst in E.
    assert (Hd : dst = "enabled" \/ dst = "disabled").
    { destruct st; simpl in E; unfold OltInternalTxEnable, OltInternalTxDisable in E;
        intuition congruence. }
    destruct Hd as [-> | ->]; simpl; eauto 6.
  - eauto.
Qed.

(** ** [InitOlt] and [RestartOLT] *)

Lemma init_pon_maps (l : list nat) (a : OltDevice.t) :
  ledger_empty (AllocIDs a) -> ledger_empty (GemPortIDs a) ->
  let r := foldl (fun o ponId =>
                    let o := set_AllocIDs (<[uint32 (Z.of_nat ponId) := ∅]> (AllocIDs o)) o in
                    set_GemPortIDs (<[uint32 (Z.of_nat ponId) := ∅]> (GemPortIDs o)) o)
                 a l in
  ledger_empty (AllocIDs r) /\ ledger_empty (GemPortIDs r)
  /\ signature r = signature a /\ InternalState r = InternalState a.
Proof.
  revert a. induction l as [|i l IH]; intros a HA HG; simpl; [done|].
  destruct (IH (set_GemPortIDs (<[uint32 (Z.of_nat i) := ∅]> (GemPortIDs a))
                  (set_AllocIDs (<[uint32 (Z.of_nat i) := ∅]> (AllocIDs a)) a)))
    as (H1 & H2 & H3 & H4); simpl.
  - by apply map_Forall_insert_2.
  - by apply map_Forall_insert_2.
  - done.
Qed.

Lemma InitOlt_ledgers (o o' : OltDevice.t) :
  InitOlt o = Some o' ->
  ledger_empty (AllocIDs o) -> ledger_empty (GemPortIDs o) ->
  ledger_empty (AllocIDs o') /\ ledger_empty (GemPortIDs o')
  /\ signature o' = signature o /\ InternalState o' = InternalState o.
Proof.
  unfold InitOlt. destruct (OltServer o); [done|].
  destruct (Nnis _) as [|nni rest]; [done|]. cbv zeta.
  intros [= <-] HA HG. refine (init_pon_maps _ _ _ _); assumption.
Qed.

Section Reboot.

Variable onuInternalStateEvent : Onu.t -> string -> Onu.t.

(** The two ways [RestartOLT] returns: the delete transition is not
    declared for the current state and the reboot stops there with the
    error, or the reboot runs to its end. *)
Lemma RestartOLT_cases (now : Z) (o o' : OltDevice.t) (r : option fsm.Error) :
  RestartOLT onuInternalStateEvent now o = Some (o', r) ->
  (declared_transition (InternalState o) "delete" = None
   /\ (exists err, r = Some err) /\ o' = set_PreviouslyConnected false o)
  \/ (declared_transition (InternalState o) "delete" = Some "deleted"
      /\ r = None
      /\ ledger_empty (AllocIDs o') /\ ledger_empty (GemPortIDs o')
      /\ signature o' = uint32 now
      /\ InternalState o' = "initialized").
Proof.
  unfold RestartOLT. cbv zeta. unfold InternalState_Event at 1.
  rewrite fsm_Event_olt. simpl InternalState.
  change OltInternalTxDelete with "delete".
  destruct (declared_transition (InternalState o) "delete") as [dst|] eqn:E.
  2:{ intros [= <- <-]. left. eauto. }
  pose proof (declared_transition_dst _ _ _ E) as Hd.
  assert (dst = "deleted") as -> by intuition congruence.
  unfold StopOltServer. simpl.
  destruct (String.eqb (InternalState o) OltInternalStateEnabled);
    destruct (OltServer o) eqn:Es; simpl; rewrite ?Es; simpl.
  all: destruct (channel o); try done.
  all: destruct (enableContext o); try done.
  all: unfold InternalState_Event; rewrite fsm_Event_olt; simpl.
  all: match goal with |- context [InitOlt ?a] =>
         destruct (InitOlt a) as [o6|] eqn:Ei; [|done] end.
  all: intros [= <- <-]; right; split; [done|]; split; [done|].
  all: apply InitOlt_ledgers in Ei as (H1 & H2 & H3 & H4);
    [ repeat split; try assumption | apply map_Forall_empty | apply map_Forall_empty ].
Qed.

End Reboot.

(** * The claims *)

Section Activation.

Variable onuInternalStateEvent : Onu.t -> string -> Onu.t.

(** When [ActivateOnu] returns: the PON has its level in both ledgers,
    the PON is found on the device and the serial number on the PON. *)
Lemma ActivateOnu_returns (o : OltDevice.t) (onu : openolt_Onu) :
  is_Some (AllocIDs o !! IntfId onu) -> is_Some (GemPortIDs o !! IntfId onu) ->
  (exists pi p oi x, GetPonById o (IntfId onu) = Some (pi, p)
                     /\ GetOnuBySn p (SerialNumber onu) = Some (oi, x)) ->
  exists o', ActivateOnu onuInternalStateEvent o onu = Some (o', None).
Proof.
  intros [a Ha] [g Hg] (pi & p & oi & x & Hp & Hx). unfold ActivateOnu.
  rewrite Ha. simpl. rewrite Hg.
  unfold GetPonById in *. simpl. rewrite Hp, Hx. eauto.
Qed.

(** The two assignments at the head of [ActivateOnu]. *)
Lemma ActivateOnu_ledgers (o o' : OltDevice.t) (onu : openolt_Onu)
    (r : option Error) :
  ActivateOnu onuInternalStateEvent o onu = Some (o', r) ->
  exists aonus gonus : OnuMap,
    AllocIDs o !! IntfId onu = Some aonus
    /\ GemPortIDs o !! IntfId onu = Some gonus
    /\ AllocIDs o' = <[IntfId onu := <[OnuId onu := ∅]> aonus]> (AllocIDs o)
    /\ GemPortIDs o' = <[IntfId onu := <[OnuId onu := ∅]> gonus]> (GemPortIDs o).
Proof.
  unfold ActivateOnu.
  destruct (AllocIDs o !! IntfId onu) as [aonus|] eqn:Ha; [|done]. simpl.
  destruct (GemPortIDs o !! IntfId onu) as [gonus|] eqn:Hg; [|done].
  destruct (GetPonById _ _) as [[pi p]|]; [|done].
  destruct (GetOnuBySn _ _) as [[oi x]|]; [|done].
  intros [= <- <-]. by exists aonus, gonus.
Qed.

Lemma ledger_onu_reset (L : Ledger) (onus : OnuMap) (pon onu : Z) :
  L !! pon = Some onus ->
  forall p u,
    ledger_onu (<[pon := <[onu := ∅]> onus]> L) p u =
    if decide ((p, u) = (pon, onu)) then Some ∅ else ledger_onu L p u.
Proof.
  intros HL p u. unfold ledger_onu.
  destruct (decide (p = pon)) as [->|Hp].
  - rewrite lookup_insert_eq, HL. simpl.
    destruct (decide (u = onu)) as [->|Hu].
    + by rewrite lookup_insert_eq, decide_True.
    + rewrite lookup_insert_ne by done. by rewrite decide_False by congruence.
  - rewrite lookup_insert_ne by done. by rewrite decide_False by congruence.
Qed.

(** C10: after a call of ActivateOnu for (PON, ONU ID) that returns, both
    ledgers hold the empty map for that pair, so no entry of that pair is
    left, whatever was recorded for it before; the maps of every other
    (PON, ONU) pair are the ones from before the call. *)
Theorem ActivateOnu_resets_pair (o o' : OltDevice.t) (onu : openolt_Onu)
    (r : option Error) :
  ActivateOnu onuInternalStateEvent o onu = Some (o', r) ->
  ledger_onu (AllocIDs o') (IntfId onu) (OnuId onu) = Some ∅
  /\ ledger_onu (GemPortIDs o') (IntfId onu) (OnuId onu) = Some ∅
  /\ (forall port rid,
        ledger_entry (AllocIDs o') (IntfId onu) (OnuId onu) port rid = None
        /\ ledger_entry (GemPortIDs o') (IntfId onu) (OnuId onu) port rid = None)
  /\ (forall p u, (p, u) ≠ (IntfId onu, OnuId onu) ->
        ledger_onu (AllocIDs o') p u = ledger_onu (AllocIDs o) p u
        /\ ledger_onu (GemPortIDs o') p u = ledger_onu (GemPortIDs o) p u).
Proof.
  intros H.
  apply ActivateOnu_ledgers in H as (aonus & gonus & Ha & Hg & -> & ->).
  pose proof (ledger_onu_reset _ _ (IntfId onu) (OnuId onu) Ha) as RA.
  pose proof (ledger_onu_reset _ _ (IntfId onu) (OnuId onu) Hg) as RG.
  assert (HA := RA (IntfId onu) (OnuId onu)).
  assert (HG := RG (IntfId onu) (OnuId onu)).
  rewrite decide_True in HA, HG by done.
  split; [exact HA|]. split; [exact HG|]. split.
  - intros port rid. rewrite !ledger_entry_via_onu, HA, HG. simpl.
    by rewrite !lookup_empty.
  - intros p u Hne. rewrite RA, RG. by rewrite !decide_False by done.
Qed.

End Activation.

(** C7: RemoveFlow frees the flow ID in both ledgers before anything else
    and on every path, stored or not; with enablePerf off, a flow ID that
    is not in the flow table makes it return the NotFound status, the
    device being the one the two frees have left. *)
Theorem FlowRemove_frees_first (o : OltDevice.t) (flow : Flow.t) :
  GemPortIDs (FlowRemove o flow).1 = GemPortIDs (freeGemPortId o flow)
  /\ AllocIDs (FlowRemove o flow).1 = AllocIDs (freeAllocId o flow)
  /\ (enablePerf o = false -> Flows o !! Flow.FlowId flow = None ->
      FlowRemove o flow =
      (freeAllocId (freeGemPortId o flow) flow,
       Some (ErrStatusNotFound "Flow not found"))).
Proof.
  destruct (FlowRemove_ledgers o flow) as [HA HG].
  split; [done|]. split; [done|].
  intros Hperf Hnone. unfold FlowRemove. simpl. rewrite Hperf.
  unfold remove_stored. simpl. by rewrite Hnone.
Qed.

(** C5: a flow handed to an existing ONU that is disabled or pon-disabled
    is answered with the onu-is-currently error whatever the ledgers hold;
    the device after the call differs from the one before only by the
    entry in the flow table, so neither ledger, no ONU flow list and no
    ONU channel has changed. *)
Theorem FlowAdd_rejects_disabled_onu (o : OltDevice.t) (flow : Flow.t) pi pon oi onu :
  target_onu o flow = Some (pi, pon, oi, onu) ->
  Onu.InternalState onu = OnuStateDisabled
  \/ Onu.InternalState onu = OnuStatePonDisabled ->
  exists err,
    FlowAdd o flow = Some (record_flow o flow, Some err)
    /\ err = ErrOnuIsCurrently (Onu.Sn onu) (Onu.InternalState onu)
    /\ is_DeviceNotReadyError err = true
    /\ AllocIDs (record_flow o flow) = AllocIDs o
    /\ GemPortIDs (record_flow o flow) = GemPortIDs o
    /\ Pons (record_flow o flow) = Pons o.
Proof.
  intros Ht Hst. rewrite (FlowAdd_target _ _ _ _ _ _ Ht). cbv zeta.
  assert (Hr : onu_rejects_flows onu = true).
  { unfold onu_rejects_flows. destruct Hst as [-> | ->]; reflexivity. }
  rewrite Hr. eexists. split; [reflexivity|].
  destruct (record_flow_ledgers o flow) as (HA & HG & HP & _). done.
Qed.

Lemma uint32_inj_int32 (a b : Z) :
  is_int32 a -> is_int32 b -> uint32 a = uint32 b -> a = b.
Proof.
  unfold is_int32, uint32. intros Ha Hb H.
  pose proof (Z.div_mod a (2 ^ 32) ltac:(lia)) as Da.
  pose proof (Z.div_mod b (2 ^ 32) ltac:(lia)) as Db.
  pose proof (Z.mod_pos_bound a (2 ^ 32) ltac:(lia)) as Ba.
  rewrite H in Da. change (2 ^ 32) with 4294967296 in *.
  change (2 ^ 31) with 2147483648 in *. lia.
Qed.

(** C1: on a device where a flow [f1] of one ONU is recorded under an
    Alloc-ID (or under a GEM port), adding a flow [f2] of another ONU of
    the same PON that asks for that Alloc-ID (or for that GEM port, as its
    own or as one of its replicated ones) returns one of the two conflict
    errors of the validation and leaves both ledgers as they were.  [f2]
    is a flow that reaches the validation: it is handed to an existing
    ONU that accepts flows. *)
Theorem FlowAdd_conflict_rejected (o : OltDevice.t) (f1 f2 : Flow.t) pi pon oi onu :
  Flow.AccessIntfId f1 = Flow.AccessIntfId f2 ->
  Flow.OnuId f1 ≠ Flow.OnuId f2 ->
  is_int32 (Flow.OnuId f1) -> is_int32 (Flow.OnuId f2) ->
  (stored_under (AllocIDs o) f1 (Flow.AllocId f1) /\ Flow.AllocId f2 = Flow.AllocId f1)
  \/ (exists g, stored_under (GemPortIDs o) f1 g /\ g ∈ flow_gems f2) ->
  target_onu o f2 = Some (pi, pon, oi, onu) ->
  onu_rejects_flows onu = false ->
  exists o' err,
    FlowAdd o f2 = Some (o', Some err)
    /\ is_ResourceConflictError err = true
    /\ AllocIDs o' = AllocIDs o
    /\ GemPortIDs o' = GemPortIDs o.
Proof.
  intros Hpon Honu H1 H2 Hstored Ht Hok.
  assert (Hu : uint32 (Flow.OnuId f1) ≠ uint32 (Flow.OnuId f2)).
  { intros E. apply Honu. by apply uint32_inj_int32. }
  assert (Hv : exists err, validateFlow o f2 = Some err).
  { destruct (validateFlow o f2) as [err|] eqn:E; [eauto|]. exfalso.
    apply validateFlow_None in E as [Egem Ealloc].
    destruct Hstored as [[(flows & Hs & _) Ha] | (g & (flows & Hs & _) & Hg)].
    - rewrite Hpon in Hs. by apply (Ealloc _ _ _ _ Hu Hs).
    - rewrite Hpon in Hs. by apply (Egem _ _ _ _ Hu Hs). }
  destruct Hv as [err Hv].
  rewrite (FlowAdd_target _ _ _ _ _ _ Ht). cbv zeta. rewrite Hok, Hv.
  eexists _, err. split; [reflexivity|].
  split; [by eapply validateFlow_Some_conflict|].
  destruct (record_flow_ledgers o f2) as (HA & HG & _ & _).
  destruct (enablePerf o); [done|].
  destruct (append_flow_ledgers pi oi onu (Flow.FlowId f2) (record_flow o f2))
    as [-> ->]. done.
Qed.

Lemma target_onu_at (o : OltDevice.t) (flow : Flow.t) pi pon oi onu :
  target_onu o flow = Some (pi, pon, oi, onu) ->
  Pons o !! pi = Some pon /\ onu_at o pi oi = Some onu.
Proof.
  unfold target_onu, onu_at.
  destruct (Z.eqb _ _); [done|]. destruct (String.eqb _ _); [done|].
  destruct (GetPonById o _) as [[pi' pon']|] eqn:Ep; [|done].
  destruct (GetOnuById pon' _) as [[oi' onu']|] eqn:Eo; [|done].
  intros [= -> -> -> ->].
  apply list_find_Some in Ep as (Hp & _). apply list_find_Some in Eo as (Ho & _).
  by rewrite Hp.
Qed.

(** C6, amended: for a flow handed to an ONU that accepts flows, FlowAdd
    appends the flow key to the ONU's flow list first (when enablePerf is
    off, publishing the first-flow event exactly when the list was empty),
    validates next, then stores in the GEM-port ledger and the Alloc-ID
    ledger, then puts the flow on the ONU's channel.  A flow the
    validation rejects is returned with the device as the append has left
    it: the key is in the ONU's list. *)
Theorem FlowAdd_order (o : OltDevice.t) (flow : Flow.t) pi pon oi onu :
  target_onu o flow = Some (pi, pon, oi, onu) ->
  onu_rejects_flows onu = false ->
  let o1 := record_flow o flow in
  let o2 := if enablePerf o then o1
            else append_flow pi oi onu (Flow.FlowId flow) o1 in
  (forall err, validateFlow o flow = Some err -> FlowAdd o flow = Some (o2, Some err))
  /\ (forall o', FlowAdd o flow = Some (o', None) ->
        validateFlow o flow = None
        /\ exists o3 o4,
             storeGemPortIdByFlow o2 flow = Some o3
             /\ storeAllocId o3 flow = Some o4
             /\ o' = alter_onu pi oi
                       (enqueue (types.FlowAdd (PonPort.ID pon) (Onu.ID onu) flow)) o4)
  /\ (enablePerf o = false ->
        onu_at o2 pi oi
          = Some (Onu.set_Flows (Onu.Flows onu ++ [Flow.FlowId flow]) onu)
        /\ published o2
           = published o
             ++ match Onu.Flows onu with
                | [] => [ {| eventType := "Flow-add-received";
                             ev_intfID := int32 (Onu.PonPortID onu);
                             ev_onuID := int32 (Onu.ID onu);
                             ev_onuSerial := Onu.Sn onu |} ]
                | _ :: _ => []
                end).
Proof.
  intros Ht Hok o1 o2.
  rewrite (FlowAdd_target _ _ _ _ _ _ Ht). cbv zeta. rewrite Hok.
  fold o1. fold o2. split; [|split].
  - intros err Hv. by rewrite Hv.
  - intros o'. destruct (validateFlow o flow); [done|].
    destruct (storeGemPortIdByFlow o2 flow) as [o3|] eqn:E3; [|done].
    destruct (storeAllocId o3 flow) as [o4|] eqn:E4; [|done].
    intros [= <-]. split; [done|]. by exists o3, o4.
  - intros Hperf. subst o2. rewrite Hperf.
    destruct (target_onu_at _ _ _ _ _ _ Ht) as [Hp Ho].
    unfold onu_at in Ho. rewrite Hp in Ho.
    assert (HP1 : Pons o1 = Pons o) by apply record_flow_ledgers.
    assert (Hpub1 : published o1 = published o).
    { subst o1. unfold record_flow. by rewrite Hperf. }
    split.
    + unfold onu_at.
      assert (HP2 : Pons (append_flow pi oi onu (Flow.FlowId flow) o1)
                    = alter (fun p => PonPort.set_Onus
                               (alter (fun x => Onu.set_Flows
                                                  (Onu.Flows x ++ [Flow.FlowId flow]) x)
                                      oi (PonPort.Onus p)) p) pi (Pons o)).
      { unfold append_flow. rewrite <- HP1. by destruct (Nat.eqb _ 1). }
      rewrite HP2, list_lookup_alter_eq, Hp. simpl.
      by rewrite list_lookup_alter_eq, Ho.
    + unfold append_flow.
      destruct (Onu.Flows onu) as [|k l]; simpl.
      * by rewrite Hpub1.
      * rewrite length_app. simpl. rewrite Nat.add_1_r. simpl.
        by rewrite Hpub1, app_nil_r.
Qed.

Lemma uint32_advanced (t0 now : Z) :
  t0 < now < t0 + 2 ^ 32 -> uint32 now ≠ uint32 t0.
Proof.
  unfold uint32. intros Hlt H.
  pose proof (Z.div_mod now (2 ^ 32) ltac:(lia)) as Dn.
  pose proof (Z.div_mod t0 (2 ^ 32) ltac:(lia)) as Dt.
  rewrite H in Dn. change (2 ^ 32) with 4294967296 in *. lia.
Qed.

Section Reboots.

Variable onuInternalStateEvent : Onu.t -> string -> Onu.t.
Variable ponOperStateEvent : PonPort.t -> string -> PonPort.t * list Indication.
Variable ponInternalStateEvent : PonPort.t -> string -> PonPort.t * list Indication.

(** C4, amended: a hard reboot that completes started in the disabled
    state; after it no PON of either ledger holds anything, and the
    heartbeat signature is the Unix time read at the end of the reboot,
    cut to 32 bits.  It differs from the signature before the reboot
    exactly when that reading does, which is the case whenever the old
    signature was taken from a clock reading that lies less than 2^32
    seconds in the past. *)
Theorem RestartOLT_hard_reboot (now : Z) (o o' : OltDevice.t) :
  InternalState o ≠ OltInternalStateEnabled ->
  RestartOLT onuInternalStateEvent now o = Some (o', None) ->
  InternalState o = OltInternalStateDisabled
  /\ ledger_empty (AllocIDs o') /\ ledger_empty (GemPortIDs o')
  /\ no_entries (AllocIDs o') /\ no_entries (GemPortIDs o')
  /\ HeartbeatCheck o' = uint32 now
  /\ (HeartbeatCheck o' ≠ HeartbeatCheck o <-> uint32 now ≠ HeartbeatCheck o)
  /\ (forall t0, HeartbeatCheck o = uint32 t0 -> t0 < now < t0 + 2 ^ 32 ->
        HeartbeatCheck o' ≠ HeartbeatCheck o).
Proof.
  intros Hne Hr.
  apply RestartOLT_cases in Hr as [(_ & [err Herr] & _) | (Hd & _ & HA & HG & Hs & _)];
    [done|].
  unfold HeartbeatCheck. rewrite Hs.
  split.
  { rewrite declared_delete in Hd.
    destruct (String.eqb_spec (InternalState o) "disabled") as [E|_]; [done|].
    destruct (String.eqb_spec (InternalState o) "enabled") as [E|_]; done. }
  split; [done|]. split; [done|].
  split; [by apply ledger_empty_no_entries|].
  split; [by apply ledger_empty_no_entries|].
  split; [done|]. split; [done|].
  intros t0 -> Hlt. by apply uint32_advanced.
Qed.

(** C8, amended: an event that is not declared for the current state
    leaves the machine, and the whole device, as it is and yields an
    error value.  The indication loop drops that error and goes on: the
    OLT indication of the message is still sent.  [RestartOLT] instead
    returns the error to its caller and does nothing further. *)
Theorem InternalState_undeclared_event (o : OltDevice.t) (event : string) :
  declared_transition (InternalState o) event = None ->
  (exists err,
      fsm.Event OltInternalEvents (InternalState o) event = (InternalState o, Some err)
      /\ InternalState_Event o event = Some (o, Some err))
  /\ (forall st, event = olt_event_of st ->
        exists o',
          handleMessage ponOperStateEvent ponInternalStateEvent o (types.OltIndication st)
          = Some o'
          /\ InternalState o' = InternalState o
          /\ OpenoltStream o'
             = (Send (OpenoltStream o) (Indication_OltInd (types.String st))).1)
  /\ (event = OltInternalTxDelete ->
        forall now, exists err,
          RestartOLT onuInternalStateEvent now o
          = Some (set_PreviouslyConnected false o, Some err)).
Proof.
  intros Hu.
  destruct (InternalState_Event_undeclared _ _ Hu) as (err & He & Hev).
  split; [eauto|]. split.
  - intros st ->. unfold handleMessage.
    assert (Hev' : InternalState_Event o
                     match st with
                     | types.UP => OltInternalTxEnable
                     | types.DOWN => OltInternalTxDisable
                     end = Some (o, Some err)) by (by destruct st).
    rewrite Hev'. eexists. split; [reflexivity|]. done.
  - intros -> now. exists err. unfold RestartOLT. cbv zeta.
    unfold InternalState_Event in *. simpl InternalState.
    rewrite fsm_Event_olt in *. rewrite Hu in *. simpl in *.
    by injection Hev as <-.
Qed.

End Reboots.

(** ** Runs of ledger operations *)

Lemma ledger_step_store (k : LedgerKind) (o o' : OltDevice.t) (flow : Flow.t) :
  ledger_step k o (Store flow) = Some o' ->
  (entries_nonempty (ledger_of k o) -> entries_nonempty (ledger_of k o'))
  /\ (forall g, referenced (ledger_of k o') g ->
                referenced (ledger_of k o) g \/ g = Flow.FlowId flow).
Proof.
  destruct k; simpl; intros H.
  - apply storeAllocId_stored_into in H as [_ (A & B & _)]. done.
  - apply storeGemPortIdByFlow_stored_into in H as [_ (A & B & _)]. done.
Qed.

Lemma ledger_step_free (k : LedgerKind) (o o' : OltDevice.t) (flow : Flow.t) :
  ledger_step k o (Free flow) = Some o' ->
  ledger_of k o' = ledger_free (Flow.FlowId flow) (ledger_of k o).
Proof. destruct k; simpl; by intros [= <-]. Qed.

Lemma ledger_run_settles (k : LedgerKind) (ops : list LedgerOp) :
  forall o o',
    entries_nonempty (ledger_of k o) ->
    (forall g, referenced (ledger_of k o) g -> existsb (frees g) ops = true) ->
    every_store_freed ops = true ->
    ledger_run k o ops = Some o' ->
    no_entries (ledger_of k o').
Proof.
  induction ops as [|op ops IH]; intros o o' Hne Href Hm; simpl.
  - intros [= <-]. apply no_entries_lookup. intros p u port rid.
    destruct (ledger_entry (ledger_of k o) p u port rid) as [flows|] eqn:E; [|done].
    exfalso. rewrite entries_nonempty_lookup in Hne.
    destruct (map_choose flows (Hne _ _ _ _ _ E)) as (g & b & Hg).
    specialize (Href g). simpl in Href. discriminate Href.
    exists p, u, port, rid, flows. eauto.
  - destruct (ledger_step k o op) as [o1|] eqn:Es; [|done].
    intros Hrun. destruct op as [flow|flow]; simpl in Hm.
    + apply andb_true_iff in Hm as [Hfreed Hm].
      destruct (ledger_step_store _ _ _ _ Es) as [Hn1 Hr1].
      apply (IH o1 o'); auto.
      intros g Hg. destruct (Hr1 g Hg) as [Hold| ->]; [|done].
      specialize (Href g Hold). simpl in Href. done.
    + apply (IH o1 o'); auto.
      * rewrite (ledger_step_free _ _ _ _ Es). by apply ledger_free_nonempty.
      * rewrite (ledger_step_free _ _ _ _ Es). intros g Hg.
        apply ledger_free_referenced in Hg as [Hold Hneq]; [|done].
        specialize (Href g Hold). simpl in Href.
        destruct (Z.eqb_spec (Flow.FlowId flow) g); [congruence|done].
Qed.

(** C3: a run of stores and frees on either ledger that starts without
    any resource-ID entry and in which every store is followed by a free
    of the same flow ID ends without any resource-ID entry. *)
Theorem ledger_run_returns_to_empty (k : LedgerKind) (ops : list LedgerOp)
    (o o' : OltDevice.t) :
  no_entries (ledger_of k o) ->
  every_store_freed ops = true ->
  ledger_run k o ops = Some o' ->
  no_entries (ledger_of k o').
Proof.
  intros H0 Hm Hrun. eapply ledger_run_settles; eauto.
  - by apply no_entries_nonempty.
  - intros g Hg. by apply no_entries_not_referenced in Hg.
Qed.

(** ** Runs of device operations *)

Lemma stored_into_unique pon onu rids fid (L L' : Ledger) :
  stored_into pon onu rids fid L L' ->
  (forall u port g flows, u ≠ onu ->
     ledger_entry L pon u port g = Some flows -> g ∉ rids) ->
  unique_per_pon L -> unique_per_pon L'.
Proof.
  intros (_ & _ & Hc) Hfree Hu p u1 u2 rid H1 H2.
  destruct (Hc _ _ _ H1) as [O1 | (-> & -> & R1)];
    destruct (Hc _ _ _ H2) as [O2 | (E2 & -> & R2)].
  - by apply (Hu p u1 u2 rid).
  - subst p. destruct (decide (u1 = onu)) as [|Hne]; [done|].
    destruct O1 as (port & flows & E). by destruct (Hfree _ _ _ _ Hne E).
  - destruct (decide (u2 = onu)) as [|Hne]; [done|].
    destruct O2 as (port & flows & E). by destruct (Hfree _ _ _ _ Hne E).
  - done.
Qed.

Lemma empty_ledger_invariants :
  entries_nonempty (∅ : Ledger) /\ unique_per_pon (∅ : Ledger).
Proof.
  split; [apply map_Forall_empty|].
  apply no_entries_unique, map_Forall_empty.
Qed.

Section Invariants.

Variable onuInternalStateEvent : Onu.t -> string -> Onu.t.

Lemma ActivateOnu_entries (o o' : OltDevice.t) (onu : openolt_Onu) r :
  ActivateOnu onuInternalStateEvent o onu = Some (o', r) ->
  forall p u port rid,
    (ledger_entry (AllocIDs o') p u port rid =
     if decide ((p, u) = (IntfId onu, OnuId onu)) then None
     else ledger_entry (AllocIDs o) p u port rid)
    /\ (ledger_entry (GemPortIDs o') p u port rid =
        if decide ((p, u) = (IntfId onu, OnuId onu)) then None
        else ledger_entry (GemPortIDs o) p u port rid).
Proof.
  intros H p u port rid.
  apply ActivateOnu_ledgers in H as (aonus & gonus & Ha & Hg & -> & ->).
  rewrite !ledger_entry_via_onu.
  rewrite (ledger_onu_reset _ _ _ _ Ha), (ledger_onu_reset _ _ _ _ Hg).
  case_decide; [|done]. simpl. by rewrite !lookup_empty.
Qed.

Lemma device_step_invariants (o o' : OltDevice.t) (op : DeviceOp) :
  device_step onuInternalStateEvent o op = Some o' ->
  (entries_nonempty (AllocIDs o) /\ entries_nonempty (GemPortIDs o) ->
   entries_nonempty (AllocIDs o') /\ entries_nonempty (GemPortIDs o'))
  /\ (validated_only op = true ->
      unique_per_pon (AllocIDs o) /\ unique_per_pon (GemPortIDs o) ->
      unique_per_pon (AllocIDs o') /\ unique_per_pon (GemPortIDs o')).
Proof.
  destruct op as [flow|flow|flow|flow| |flow|flow|onu|now]; simpl.
  - intros H. apply storeAllocId_stored_into in H as [-> (A & _)].
    split; [|done]. intros [HA HG]. simpl. auto.
  - intros H. apply storeGemPortIdByFlow_stored_into in H as [-> (A & _)].
    split; [|done]. intros [HA HG]. simpl. auto.
  - intros [= <-]. simpl. split.
    + intros [HA HG]. split; [by apply ledger_free_nonempty|done].
    + intros _ [HA HG]. split; [by apply ledger_free_unique|done].
  - intros [= <-]. simpl. split.
    + intros [HA HG]. split; [done|by apply ledger_free_nonempty].
    + intros _ [HA HG]. split; [done|by apply ledger_free_unique].
  - intros [= <-]. simpl. destruct empty_ledger_invariants. split; auto.
  - destruct (FlowAdd o flow) as [[o1 r]|] eqn:E; [|done]. simpl.
    intros [= <-].
    destruct (FlowAdd_ledgers _ _ _ _ E)
      as [[-> ->] | (_ & Hv & Hg & Ha)]; [done|].
    apply validateFlow_None in Hv as [Vg Va]. split.
    + intros [HA HG]. split; [by apply Ha|by apply Hg].
    + intros _ [HA HG]. split.
      * eapply stored_into_unique; [exact Ha| |done].
        intros u port a flows Hu Ee Hin.
        apply list_elem_of_singleton in Hin. by apply (Va _ _ _ _ Hu Ee).
      * eapply stored_into_unique; [exact Hg| |done].
        intros u port g flows Hu Ee. by apply (Vg _ _ _ _ Hu Ee).
  - intros [= <-]. destruct (FlowRemove_ledgers o flow) as [-> ->]. split.
    + intros [HA HG]. split; by apply ledger_free_nonempty.
    + intros _ [HA HG]. split; by apply ledger_free_unique.
  - destruct (ActivateOnu _ o onu) as [[o1 r]|] eqn:E; [|done]. simpl.
    intros [= <-]. pose proof (ActivateOnu_entries _ _ _ _ E) as He. split.
    + rewrite !entries_nonempty_lookup. intros [HA HG].
      split; intros p u port rid flows.
      * rewrite (proj1 (He p u port rid)). case_decide; [done|]. apply HA.
      * rewrite (proj2 (He p u port rid)). case_decide; [done|]. apply HG.
    + intros _ [HA HG].
      split; intros p u1 u2 rid (port1 & [f1 E1]) (port2 & [f2 E2]).
      * rewrite (proj1 (He _ _ _ _)) in E1. rewrite (proj1 (He _ _ _ _)) in E2.
        repeat case_decide; try done. apply (HA p u1 u2 rid); eexists; eauto.
      * rewrite (proj2 (He _ _ _ _)) in E1. rewrite (proj2 (He _ _ _ _)) in E2.
        repeat case_decide; try done. apply (HG p u1 u2 rid); eexists; eauto.
  - destruct (RestartOLT _ now o) as [[o1 r]|] eqn:E; [|done]. simpl.
    intros [= <-].
    apply RestartOLT_cases in E as [(_ & _ & ->) | (_ & _ & HA & HG & _)];
      [done|].
    apply ledger_empty_no_entries in HA, HG.
    split; intros; split;
      auto using no_entries_nonempty, no_entries_unique.
Qed.

(** C9: along every run of the device operations a resource-ID entry
    exists only with a non-empty set of flow IDs; along every run in
    which stores reach the ledgers through FlowAdd alone, no Alloc-ID
    and no GEM port belongs to two ONUs of one PON. *)
Theorem ledger_invariants (ops : list DeviceOp) (o o' : OltDevice.t) :
  device_run onuInternalStateEvent o ops = Some o' ->
  (entries_nonempty (AllocIDs o) /\ entries_nonempty (GemPortIDs o) ->
   entries_nonempty (AllocIDs o') /\ entries_nonempty (GemPortIDs o'))
  /\ (forallb validated_only ops = true ->
      unique_per_pon (AllocIDs o) /\ unique_per_pon (GemPortIDs o) ->
      unique_per_pon (AllocIDs o') /\ unique_per_pon (GemPortIDs o')).
Proof.
  revert o. induction ops as [|op ops IH]; intros o; simpl.
  - intros [= <-]. done.
  - destruct (device_step _ o op) as [o1|] eqn:Es; [|done].
    intros Hrun. destruct (device_step_invariants _ _ _ Es) as [N1 U1].
    destruct (IH _ Hrun) as [N2 U2]. split; [auto|].
    intros [Hop Hops]%andb_true_iff Hu. auto.
Qed.

End Invariants.

(** ** The indication loop *)

Lemma existsb_ids {A : Type} (f : A -> Z) (id : Z) (l : list A) :
  existsb (fun x => Z.eqb (f x) id) l = bool_decide (id ∈ f <$> l).
Proof.
  induction l as [|x l IH].
  - symmetry. apply bool_decide_eq_false_2. apply not_elem_of_nil.
  - rewrite fmap_cons. cbn [existsb]. rewrite IH.
    destruct (Z.eqb_spec (f x) id) as [E|E]; cbn [orb].
    + symmetry. apply bool_decide_eq_true_2. rewrite E. by left.
    + apply bool_decide_ext. rewrite elem_of_cons.
      split; [by right|intros [Hx|H]; [congruence|done]].
Qed.

Lemma existsb_list_find {A : Type} (f : A -> Z) (id : Z) (l : list A) :
  existsb (fun x => Z.eqb (f x) id) l = true ->
  exists i x, list_find (fun x => f x = id) l = Some (i, x) /\ l !! i = Some x /\ f x = id.
Proof.
  rewrite existsb_ids. intros H%bool_decide_eq_true.
  apply list_elem_of_fmap in H as (x & Hx & Hin).
  destruct (list_find (fun x => f x = id) l) as [[i y]|] eqn:E.
  - exists i, y. apply list_find_Some in E as (? & ? & _). done.
  - apply list_find_None in E. rewrite Forall_forall in E.
    by destruct (E x Hin).
Qed.

Lemma send_stream (ind : Indication) (o : OltDevice.t) :
  sent (OpenoltStream (send ind o))
  = sent (OpenoltStream o) ++ (if broken (OpenoltStream o) then [] else [ind])
  /\ broken (OpenoltStream (send ind o)) = broken (OpenoltStream o)
  /\ Pons (send ind o) = Pons o /\ Nnis (send ind o) = Nnis o.
Proof.
  unfold send, Send. simpl.
  destruct (broken (OpenoltStream o)) eqn:E; simpl; rewrite ?E, ?app_nil_r; done.
Qed.

Lemma send_each_stream (inds : list Indication) (o : OltDevice.t) :
  sent (OpenoltStream (send_each inds o))
  = sent (OpenoltStream o) ++ (if broken (OpenoltStream o) then [] else inds)
  /\ broken (OpenoltStream (send_each inds o)) = broken (OpenoltStream o)
  /\ Pons (send_each inds o) = Pons o /\ Nnis (send_each inds o) = Nnis o.
Proof.
  unfold send_each. revert o. induction inds as [|ind inds IH]; intros o; simpl.
  - destruct (broken _); by rewrite app_nil_r.
  - destruct (IH (send ind o)) as (H1 & H2 & H3 & H4).
    destruct (send_stream ind o) as (S1 & S2 & S3 & S4).
    rewrite H1, H2, H3, H4, S1, S2, S3, S4.
    destruct (broken (OpenoltStream o)); rewrite <- ?app_assoc; done.
Qed.

Section Loop.

Variable ponOperStateEvent : PonPort.t -> string -> PonPort.t * list Indication.
Variable ponInternalStateEvent : PonPort.t -> string -> PonPort.t * list Indication.

(** The events of the PON machines leave the identity of the PON alone. *)
Hypothesis ponOperStateEvent_ID :
  forall pon event, PonPort.ID (ponOperStateEvent pon event).1 = PonPort.ID pon.
Hypothesis ponInternalStateEvent_ID :
  forall pon event, PonPort.ID (ponInternalStateEvent pon event).1 = PonPort.ID pon.

(** One message: the loop does not stop on a message whose port exists;
    what it adds to the stream is what corresponds to the message; the
    ports keep their identity. *)
Lemma handleMessage_stream (o : OltDevice.t) (message : types.Message) :
  addressed o message = true ->
  exists o' chunk,
    handleMessage ponOperStateEvent ponInternalStateEvent o message = Some o'
    /\ corresponds (broken (OpenoltStream o)) message chunk
    /\ sent (OpenoltStream o') = sent (OpenoltStream o) ++ chunk
    /\ broken (OpenoltStream o') = broken (OpenoltStream o)
    /\ PonPort.ID <$> Pons o' = PonPort.ID <$> Pons o
    /\ NniPort.ID <$> Nnis o' = NniPort.ID <$> Nnis o.
Proof.
  intros Haddr. unfold corresponds.
  destruct message as [st|st id|st id|alarm|p u f|f|ty]; simpl in *.
  - destruct (InternalState_Event_loop o st) as (o1 & err & He & Ho1).
    unfold olt_event_of in He. rewrite He.
    eexists _, _. split; [reflexivity|].
    unfold sendOltIndication.
    match goal with |- context [send ?i ?x] =>
      destruct (send_stream i x) as (S1 & S2 & S3 & S4);
      rewrite S1, S2, S3, S4 end.
    simpl.
    assert (Hs : OpenoltStream o1 = OpenoltStream o /\ Pons o1 = Pons o
                 /\ Nnis o1 = Nnis o).
    { destruct Ho1 as [->|[dst ->]]; done. }
    destruct Hs as (-> & -> & ->).
    split; [|done]. by destruct (broken (OpenoltStream o)).
  - apply existsb_list_find in Haddr as (i & nni & Hf & Hi & Hid).
    unfold sendNniIndication, getNniById. rewrite Hf.
    eexists _, _. split; [reflexivity|].
    match goal with |- context [send ?i ?x] =>
      destruct (send_stream i x) as (S1 & S2 & S3 & S4);
      rewrite S1, S2, S3, S4 end.
    simpl. split; [|split; [reflexivity|split; [done|split; [done|]]]].
    + destruct (broken (OpenoltStream o)); [done|]. rewrite Hid. eauto.
    + rewrite list_fmap_insert. simpl. apply list_insert_id.
      by rewrite list_lookup_fmap, Hi.
  - unfold HasPon in Haddr.
    apply existsb_list_find in Haddr as (i & pon & Hf & Hi & Hid).
    unfold GetPonById. rewrite Hf.
    destruct (ponOperStateEvent pon _) as [pon1 inds1] eqn:E1.
    destruct (ponInternalStateEvent pon1 _) as [pon2 inds2] eqn:E2.
    eexists _, (if broken (OpenoltStream o) then [] else inds1 ++ inds2).
    split; [reflexivity|].
    match goal with |- context [send_each ?i ?x] =>
      destruct (send_each_stream i x) as (S1 & S2 & S3 & S4);
      rewrite S1, S2, S3, S4 end.
    simpl. split; [by destruct (broken _)|]. split; [done|]. split; [done|].
    split; [|done].
    rewrite list_fmap_insert. apply list_insert_id.
    rewrite list_lookup_fmap, Hi. simpl. f_equal.
    pose proof (ponInternalStateEvent_ID pon1
                  match st with types.UP => "enable" | types.DOWN => "disable" end) as I2.
    pose proof (ponOperStateEvent_ID pon
                  match st with types.UP => "enable" | types.DOWN => "disable" end) as I1.
    rewrite E1 in I1. rewrite E2 in I2. simpl in *. congruence.
  - eexists _, _. split; [reflexivity|].
    unfold sendAlarmIndication.
    match goal with |- context [send ?i ?x] =>
      destruct (send_stream i x) as (S1 & S2 & S3 & S4);
      rewrite S1, S2, S3, S4 end.
    split; [|done]. by destruct (broken (OpenoltStream o)).
  - exists o, []. rewrite app_nil_r. by destruct (broken _).
  - exists o, []. rewrite app_nil_r. by destruct (broken _).
  - exists o, []. rewrite app_nil_r. by destruct (broken _).
Qed.

Lemma addressed_ids (o o' : OltDevice.t) (message : types.Message) :
  PonPort.ID <$> Pons o' = PonPort.ID <$> Pons o ->
  NniPort.ID <$> Nnis o' = NniPort.ID <$> Nnis o ->
  addressed o' message = addressed o message.
Proof.
  intros HP HN. destruct message; simpl; try done.
  - by rewrite !existsb_ids, HN.
  - unfold HasPon. by rewrite !existsb_ids, HP.
Qed.

(** C2: the loop takes the messages one by one in the order in which
    they are on the channel, each one once, until the channel is closed
    or the context is done; the stream then holds, after what it held
    before, the indications of the first message, then those of the
    second, and so on: nothing is reordered and nothing is merged. *)
Theorem processOltMessages_in_order (o : OltDevice.t) (msgs : list types.Message)
    (stop : list ChanEvent) :
  forallb (addressed o) msgs = true ->
  stops stop = true ->
  exists o' chunks,
    processOltMessages ponOperStateEvent ponInternalStateEvent o
      ((Recv <$> msgs) ++ stop) = Some (o', tail stop)
    /\ Forall2 (corresponds (broken (OpenoltStream o))) msgs chunks
    /\ sent (OpenoltStream o') = sent (OpenoltStream o) ++ concat chunks.
Proof.
  intros Haddr Hstop. revert o Haddr.
  induction msgs as [|m msgs IH]; intros o Haddr; simpl.
  - exists o, []. simpl. rewrite app_nil_r. split; [|by split].
    destruct stop as [|[m| |] rest]; simpl in *; done.
  - simpl in Haddr. apply andb_true_iff in Haddr as [Hm Hrest].
    destruct (handleMessage_stream o m Hm) as (o1 & chunk & Hh & Hc & Hs & Hb & HP & HN).
    rewrite Hh.
    destruct (IH o1) as (o' & chunks & Hp & Hf & Hsent).
    { apply forallb_forall. intros m' Hin.
      rewrite (addressed_ids o o1 m' HP HN).
      by apply (proj1 (forallb_forall _ _) Hrest). }
    exists o', (chunk :: chunks). split; [done|]. split.
    + constructor; [done|]. by rewrite <- Hb.
    + simpl. by rewrite Hsent, Hs, app_assoc.
Qed.

End Loop.

(** * The claims on the demo device *)

Lemma FlowAdd_conflict_rejected_witness :
  stored_under (AllocIDs demo_olt1) demo_flow1 (Flow.AllocId demo_flow1)
  /\ exists o' err,
       FlowAdd demo_olt1 demo_flow2 = Some (o', Some err)
       /\ is_ResourceConflictError err = true
       /\ AllocIDs o' = AllocIDs demo_olt1
       /\ GemPortIDs o' = GemPortIDs demo_olt1.
Proof.
  assert (Hs : stored_under (AllocIDs demo_olt1) demo_flow1 (Flow.AllocId demo_flow1)).
  { eexists. split; vm_compute; reflexivity. }
  split; [exact Hs|].
  eapply (FlowAdd_conflict_rejected demo_olt1 demo_flow1 demo_flow2).
  - reflexivity.
  - vm_compute. discriminate.
  - unfold is_int32. simpl. lia.
  - unfold is_int32. simpl. lia.
  - left. split; [exact Hs|reflexivity].
  - vm_compute. reflexivity.
  - reflexivity.
Defined.

(** The same refusal for a replicated flow that asks for the GEM port of
    the first flow among its ports. *)
Example FlowAdd_conflict_replicated :
  exists o',
    FlowAdd demo_olt1 demo_flow3 = Some (o', Some (ErrGemInUse 50 16 1 3 true))
    /\ AllocIDs o' = AllocIDs demo_olt1 /\ GemPortIDs o' = GemPortIDs demo_olt1.
Proof. eexists. repeat split; vm_compute; reflexivity. Qed.

(** The scenario of the specification: once the first flow is removed,
    the second one is admitted. *)
Example FlowAdd_after_remove :
  exists o', FlowAdd (FlowRemove demo_olt1 demo_flow1).1 demo_flow2 = Some (o', None).
Proof. eexists. vm_compute. reflexivity. Qed.

Lemma processOltMessages_in_order_witness :
  exists o' chunks,
    processOltMessages demo_ponOperStateEvent demo_ponInternalStateEvent
      demo_olt_disabled ((Recv <$> demo_messages) ++ [Closed]) = Some (o', [])
    /\ Forall2 (corresponds false) demo_messages chunks
    /\ sent (OpenoltStream o') = [] ++ concat chunks.
Proof.
  apply (processOltMessages_in_order demo_ponOperStateEvent demo_ponInternalStateEvent).
  - intros pon event. unfold demo_ponOperStateEvent.
    destruct (fsm.Event OperStateEvents (PonPort.OperState pon) event) as [dst [e|]];
      reflexivity.
  - intros pon event. unfold demo_ponInternalStateEvent.
    destruct (String.eqb event "enable"); [reflexivity|].
    destruct (String.eqb event "disable"); reflexivity.
  - reflexivity.
  - reflexivity.
Defined.

(** The messages OltUp, Nni0Up, Pon0Up of the specification, run. *)
Example processOltMessages_demo :
  exists o',
    processOltMessages demo_ponOperStateEvent demo_ponInternalStateEvent
      demo_olt_disabled ((Recv <$> demo_messages) ++ [Closed]) = Some (o', [])
    /\ sent (OpenoltStream o')
       = [ Indication_OltInd "up";
           Indication_IntfOperInd "nni" 0 "up" 10000;
           Indication_IntfInd 0 "up";
           Indication_IntfOperInd "pon" 0 "up" 0 ].
Proof. eexists. split; vm_compute; reflexivity. Qed.

Lemma ledger_run_returns_to_empty_witness :
  exists o',
    ledger_run GemPortIdLedger demo_olt demo_ledger_ops = Some o'
    /\ no_entries (ledger_of GemPortIdLedger o').
Proof.
  eexists. split; [vm_compute; reflexivity|].
  eapply (ledger_run_returns_to_empty GemPortIdLedger demo_ledger_ops demo_olt).
  - apply (bool_decide_unpack _). vm_compute. reflexivity.
  - reflexivity.
  - vm_compute. reflexivity.
Defined.

Lemma RestartOLT_hard_reboot_witness :
  exists o',
    RestartOLT demo_onuEvent 1700000060 demo_olt_disabled = Some (o', None)
    /\ ledger_empty (AllocIDs o') /\ ledger_empty (GemPortIDs o')
    /\ HeartbeatCheck o' = 1700000060
    /\ HeartbeatCheck o' ≠ HeartbeatCheck demo_olt_disabled.
Proof.
  eexists. split; [vm_compute; reflexivity|].
  match goal with |- context [ledger_empty (AllocIDs ?x)] => set (o' := x) end.
  destruct (RestartOLT_hard_reboot demo_onuEvent 1700000060 demo_olt_disabled o')
    as (_ & HA & HG & _ & _ & Hs & _ & Hd).
  - vm_compute. discriminate.
  - vm_compute. reflexivity.
  - split; [exact HA|]. split; [exact HG|]. split; [exact Hs|].
    apply (Hd 1700000000); [reflexivity|lia].
Defined.

(** A reboot whose clock reading at the end equals the one the signature
    was taken from (the wall clock has been set back in between; a reading
    2^32 seconds later does the same): the heartbeat does not change. *)
Lemma RestartOLT_same_signature :
  exists o',
    RestartOLT demo_onuEvent 1700000000 demo_olt_disabled = Some (o', None)
    /\ InternalState demo_olt_disabled ≠ OltInternalStateEnabled
    /\ HeartbeatCheck o' = HeartbeatCheck demo_olt_disabled.
Proof.
  eexists. split; [vm_compute; reflexivity|].
  split; [vm_compute; discriminate|]. vm_compute. reflexivity.
Qed.

Lemma FlowAdd_rejects_disabled_onu_witness :
  exists err,
    FlowAdd demo_olt1 demo_flow4 = Some (record_flow demo_olt1 demo_flow4, Some err)
    /\ err = ErrOnuIsCurrently "BBSM00000003" "disabled"
    /\ is_DeviceNotReadyError err = true
    /\ AllocIDs (record_flow demo_olt1 demo_flow4) = AllocIDs demo_olt1
    /\ GemPortIDs (record_flow demo_olt1 demo_flow4) = GemPortIDs demo_olt1
    /\ Pons (record_flow demo_olt1 demo_flow4) = Pons demo_olt1.
Proof.
  eapply (FlowAdd_rejects_disabled_onu demo_olt1 demo_flow4 0%nat _ 2%nat
            (demo_onu 3 "BBSM00000003" "disabled")).
  - vm_compute. reflexivity.
  - left. reflexivity.
Defined.

Lemma FlowAdd_order_witness :
  exists o2 err,
    validateFlow demo_olt1 demo_flow2 = Some err
    /\ FlowAdd demo_olt1 demo_flow2 = Some (o2, Some err)
    /\ Onu.Flows <$> onu_at o2 0 1 = Some [2].
Proof.
  destruct (FlowAdd_order demo_olt1 demo_flow2 0%nat demo_pon1 1%nat
               (demo_onu 2 "BBSM00000002" "enabled"))
    as (Hrej & _ & Happ).
  - vm_compute. reflexivity.
  - reflexivity.
  - eexists _, (ErrAllocIdInUse 100 16 1 2).
    assert (Hv : validateFlow demo_olt1 demo_flow2 = Some (ErrAllocIdInUse 100 16 1 2))
      by (vm_compute; reflexivity).
    split; [exact Hv|]. split; [exact (Hrej _ Hv)|].
    destruct (Happ eq_refl) as [Hat _].
    exact (f_equal (fmap Onu.Flows) Hat).
Defined.

(** A flow that the validation rejects is in the flow list of its ONU
    after the call, and was not before. *)
Lemma FlowAdd_rejected_flow_appended :
  exists o' err,
    FlowAdd demo_olt1 demo_flow2 = Some (o', Some err)
    /\ validateFlow demo_olt1 demo_flow2 = Some err
    /\ is_ResourceConflictError err = true
    /\ Onu.Flows <$> onu_at demo_olt1 0 1 = Some []
    /\ Onu.Flows <$> onu_at o' 0 1 = Some [Flow.FlowId demo_flow2].
Proof. eexists _, _. repeat split; vm_compute; reflexivity. Qed.

Lemma InternalState_undeclared_event_witness :
  exists err,
    InternalState_Event demo_olt_created OltInternalTxDelete
    = Some (demo_olt_created, Some err)
    /\ RestartOLT demo_onuEvent 1700000005 demo_olt_created
       = Some (set_PreviouslyConnected false demo_olt_created, Some err).
Proof.
  destruct (InternalState_undeclared_event demo_onuEvent demo_ponOperStateEvent
              demo_ponInternalStateEvent demo_olt_created OltInternalTxDelete)
    as ((err & He & Hev) & _ & Hr).
  - reflexivity.
  - exists err. split; [exact Hev|].
    destruct (Hr eq_refl 1700000005) as (err' & Hr').
    rewrite Hr'. f_equal. f_equal.
    unfold RestartOLT in Hr'. cbv zeta in Hr'.
    assert (Hsame : InternalState_Event (set_PreviouslyConnected false demo_olt_created)
                      OltInternalTxDelete
                    = Some (set_PreviouslyConnected false demo_olt_created,
                            Some (fsm.InvalidEventError "delete" "created")))
      by (vm_compute; reflexivity).
    rewrite Hsame in Hr'. injection Hr' as <-.
    assert (Hev2 : InternalState_Event demo_olt_created OltInternalTxDelete
                   = Some (demo_olt_created,
                           Some (fsm.InvalidEventError "delete" "created")))
      by (vm_compute; reflexivity).
    rewrite Hev2 in Hev. by injection Hev as <-.
Defined.

(** A reboot asked of a device that is in the created state: the delete
    event is not declared there, and the reboot is given up with the
    error; the channel stays open and the signature is the old one. *)
Lemma RestartOLT_aborts_on_undeclared_delete :
  declared_transition (InternalState demo_olt_created) OltInternalTxDelete = None
  /\ exists o',
       RestartOLT demo_onuEvent 1700000005 demo_olt_created
       = Some (o', Some (fsm.InvalidEventError "delete" "created"))
       /\ channel o' = ChanOpen
       /\ InternalState o' = OltInternalStateCreated
       /\ HeartbeatCheck o' = 1700000000
       /\ HeartbeatCheck o' ≠ uint32 1700000005.
Proof.
  split; [reflexivity|]. eexists.
  split; [vm_compute; reflexivity|].
  repeat split; vm_compute; congruence.
Qed.

Lemma ledger_invariants_witness :
  exists o',
    device_run demo_onuEvent demo_olt demo_device_ops = Some o'
    /\ (entries_nonempty (AllocIDs o') /\ entries_nonempty (GemPortIDs o'))
    /\ (unique_per_pon (AllocIDs o') /\ unique_per_pon (GemPortIDs o')).
Proof.
  eexists. split; [vm_compute; reflexivity|].
  match goal with |- context [entries_nonempty (AllocIDs ?x)] => set (o' := x) end.
  destruct (ledger_invariants demo_onuEvent demo_device_ops demo_olt o') as [Hn Hu].
  - vm_compute. reflexivity.
  - assert (H0 : no_entries demo_ledger)
      by (apply (bool_decide_unpack _); vm_compute; reflexivity).
    split.
    + apply Hn. split; apply no_entries_nonempty, H0.
    + apply Hu; [reflexivity|]. split; apply no_entries_unique, H0.
Defined.

Lemma ActivateOnu_resets_pair_witness :
  stored_under (AllocIDs demo_olt1) demo_flow1 100
  /\ exists o',
       ActivateOnu demo_onuEvent demo_olt1 demo_activate = Some (o', None)
       /\ ledger_onu (AllocIDs o') 0 1 = Some ∅
       /\ ledger_onu (GemPortIDs o') 0 1 = Some ∅
       /\ ledger_onu (AllocIDs o') 0 2 = ledger_onu (AllocIDs demo_olt1) 0 2.
Proof.
  split; [eexists; split; vm_compute; reflexivity|].
  eexists. split; [vm_compute; reflexivity|].
  match goal with |- context [ledger_onu (AllocIDs ?x) 0 1] => set (o' := x) end.
  destruct (ActivateOnu_resets_pair demo_onuEvent demo_olt1 o' demo_activate None)
    as (HA & HG & _ & Hother).
  - vm_compute. reflexivity.
  - split; [exact HA|]. split; [exact HG|].
    apply (Hother 0 2). discriminate.
Defined.

(** RemoveFlow of a flow that was never added, with enablePerf off: the
    NotFound status, after the frees. *)
Example FlowRemove_unknown_flow :
  FlowRemove demo_olt1 demo_flow2
  = (freeAllocId (freeGemPortId demo_olt1 demo_flow2) demo_flow2,
     Some (ErrStatusNotFound "Flow not found")).
Proof. vm_compute. reflexivity. Qed.

(** The statement on the uniqueness is about calls that run one after the
    other.  [validateFlow] gives its locks back when it returns and the
    stores take theirs afterwards: when the validations of two calls both
    run ahead of the stores, both flows are stored and the Alloc-ID
    belongs to two ONUs of the PON. *)
Example stores_after_stale_validations :
  validateFlow demo_olt demo_flow1 = None
  /\ validateFlow demo_olt demo_flow2 = None
  /\ exists o',
       (storeGemPortIdByFlow demo_olt demo_flow1 ≫= fun o1 =>
        storeAllocId o1 demo_flow1 ≫= fun o2 =>
        storeGemPortIdByFlow o2 demo_flow2 ≫= fun o3 =>
        storeAllocId o3 demo_flow2) = Some o'
       /\ claimed_by (AllocIDs o') 0 1 100
       /\ claimed_by (AllocIDs o') 0 2 100.
Proof.
  split; [vm_compute; reflexivity|]. split; [vm_compute; reflexivity|].
  eexists. split; [vm_compute; reflexivity|].
  split; [exists 16|exists 32]; eexists; vm_compute; reflexivity.
Qed.

(** A message for an NNI the device does not have: [getNniById] leaves the
    pointer nil and the loop ends with the process. *)
Example processOltMessages_unknown_nni :
  processOltMessages demo_ponOperStateEvent demo_ponInternalStateEvent demo_olt
    [Recv (types.NniIndication types.UP 7)] = None.
Proof. vm_compute. reflexivity. Qed.

(** * Beyond the claims

    ** Frees and stores on the ledgers *)

(** What [free_flows] does on a set of flow IDs, case by case. *)
Lemma free_flows_spec fid (flows : FlowSet) :
  free_flows fid flows =
  if decide (flows = ∅) then Some ∅
  else if decide (delete fid flows = ∅) then None else Some (delete fid flows).
Proof.
  unfold free_flows.
  destruct (Nat.eqb_spec (size flows) 0) as [H0|H0].
  { apply map_size_empty_iff in H0. by rewrite decide_True, H0. }
  rewrite decide_False by (intros ->; by apply H0).
  destruct (Nat.eqb_spec (size (delete fid flows)) 0) as [H1|H1].
  { apply map_size_empty_iff in H1. by rewrite decide_True. }
  rewrite decide_False; [done|]. intros Hd. apply H1. by rewrite Hd.
Qed.

Lemma free_flows_absent fid (flows : FlowSet) :
  flows !! fid = None -> free_flows fid flows = Some flows.
Proof.
  intros Hn. rewrite free_flows_spec. case_decide as He; [by rewrite He|].
  rewrite delete_id by done. by rewrite decide_False.
Qed.

Lemma free_flows_present fid (flows : FlowSet) :
  is_Some (flows !! fid) -> free_flows fid flows ≠ Some flows.
Proof.
  intros [b Hb]. rewrite free_flows_spec.
  case_decide as He; [by rewrite He in Hb|].
  case_decide; [done|]. intros [= Heq].
  rewrite <- Heq in Hb. by rewrite lookup_delete_eq in Hb.
Qed.

Lemma free_flows_idem fid (flows flows' : FlowSet) :
  free_flows fid flows = Some flows' -> free_flows fid flows' = Some flows'.
Proof.
  rewrite free_flows_spec. case_decide; [by intros [= <-]|].
  case_decide; [done|]. intros [= <-].
  apply free_flows_absent. apply lookup_delete_eq.
Qed.

Lemma ledger_free_idem fid (L : Ledger) :
  ledger_free fid (ledger_free fid L) = ledger_free fid L.
Proof.
  unfold ledger_free. rewrite <- map_fmap_compose.
  apply map_fmap_ext. intros _ onus _. simpl.
  unfold free_pon. rewrite <- map_fmap_compose.
  apply map_fmap_ext. intros _ unis _. simpl.
  unfold free_onu. rewrite <- map_fmap_compose.
  apply map_fmap_ext. intros _ res _. simpl.
  unfold free_uni. apply map_eq. intros rid. rewrite !lookup_omap.
  destruct (res !! rid) as [flows|]; simpl; [|done].
  destruct (free_flows fid flows) as [flows'|] eqn:E; simpl; [|done].
  by apply (free_flows_idem fid flows).
Qed.

Lemma fmap_id_on {A : Type} (f : A -> A) (m : gmap Z A) :
  (forall k v, m !! k = Some v -> f v = v) -> f <$> m = m.
Proof.
  intros H. apply map_eq. intros k. rewrite lookup_fmap.
  destruct (m !! k) as [v|] eqn:E; simpl; [|done]. by rewrite (H _ _ E).
Qed.

Lemma ledger_free_id fid (L : Ledger) :
  ledger_free fid L = L <-> ¬ referenced L fid.
Proof.
  split.
  - intros Heq (p & u & port & rid & flows & E & Hg).
    pose proof (ledger_entry_free fid L p u port rid) as Hf.
    rewrite Heq, E in Hf. simpl in Hf. symmetry in Hf.
    by apply (free_flows_present fid flows Hg).
  - intros Hn. unfold ledger_free.
    apply fmap_id_on. intros p onus Hp.
    apply fmap_id_on. intros u unis Hu.
    apply fmap_id_on. intros port res Hport.
    apply map_eq. intros rid. unfold free_uni. rewrite lookup_omap.
    destruct (res !! rid) as [flows|] eqn:Hrid; simpl; [|done].
    apply free_flows_absent.
    destruct (flows !! fid) eqn:Hfid; [|done].
    exfalso. apply Hn. exists p, u, port, rid, flows. split; [|by eauto].
    apply ledger_entry_Some. by exists onus, unis, res.
Qed.

Lemma ledger_free_referenced_iff fid (L : Ledger) g :
  referenced (ledger_free fid L) g <-> referenced L g /\ g ≠ fid.
Proof.
  split.
  - intros (p & u & port & rid & flows & E & Hg).
    rewrite ledger_entry_free in E.
    destruct (ledger_entry L p u port rid) as [fl|] eqn:E0; simpl in E; [|done].
    rewrite free_flows_spec in E.
    case_decide; [simplify_eq; by destruct Hg|].
    case_decide; [done|]. injection E as <-.
    destruct (decide (g = fid)) as [->|Hgf].
    { rewrite lookup_delete_eq in Hg. by destruct Hg. }
    rewrite lookup_delete_ne in Hg by done. split; [|done].
    by exists p, u, port, rid, fl.
  - intros [(p & u & port & rid & flows & E & Hg) Hne].
    exists p, u, port, rid, (delete fid flows).
    assert (is_Some (delete fid flows !! g)) as Hd by (by rewrite lookup_delete_ne).
    split; [|done].
    rewrite ledger_entry_free, E. simpl. rewrite free_flows_spec.
    rewrite decide_False by (intros ->; by destruct Hg).
    rewrite decide_False; [done|]. intros He. rewrite He in Hd. by destruct Hd.
Qed.

(** A store of a flow that is already recorded where the store puts it
    writes what is there. *)
Lemma ledger_store_again (L : Ledger) p u port rid fid (flows : FlowSet) :
  ledger_entry L p u port rid = Some flows -> flows !! fid = Some true ->
  ledger_store L p u port rid fid = Some L.
Proof.
  intros E Hf. apply ledger_entry_Some in E as (onus & unis & res & H1 & H2 & H3 & H4).
  unfold ledger_store, ledger_onu. rewrite H1. simpl. rewrite H2, H3. simpl.
  rewrite H4. simpl. f_equal.
  rewrite (insert_id flows) by done. rewrite (insert_id res) by done.
  rewrite (insert_id unis) by done. rewrite (insert_id onus) by done.
  by apply insert_id.
Qed.

(** X1: removing a flow a second time changes nothing in the ledgers: the
    two frees are idempotent, and so are the ledgers after [FlowRemove]. *)
Theorem free_twice (o : OltDevice.t) (flow : Flow.t) :
  freeAllocId (freeAllocId o flow) flow = freeAllocId o flow
  /\ freeGemPortId (freeGemPortId o flow) flow = freeGemPortId o flow
  /\ AllocIDs (FlowRemove (FlowRemove o flow).1 flow).1 = AllocIDs (FlowRemove o flow).1
  /\ GemPortIDs (FlowRemove (FlowRemove o flow).1 flow).1
     = GemPortIDs (FlowRemove o flow).1.
Proof.
  split; [|split].
  - unfold freeAllocId. destruct o; simpl. by rewrite ledger_free_idem.
  - unfold freeGemPortId. destruct o; simpl. by rewrite ledger_free_idem.
  - destruct (FlowRemove_ledgers (FlowRemove o flow).1 flow) as [Ha Hg].
    destruct (FlowRemove_ledgers o flow) as [Ha0 Hg0].
    rewrite Ha, Hg, Ha0, Hg0. by rewrite !ledger_free_idem.
Qed.

(** X2: a free leaves a ledger as it is exactly when the flow ID is not
    recorded under any resource of it; so a [FlowRemove] for a flow that
    holds nothing writes nothing into the ledgers. *)
Theorem free_unreferenced (o : OltDevice.t) (flow : Flow.t) :
  (AllocIDs (freeAllocId o flow) = AllocIDs o
   <-> ¬ referenced (AllocIDs o) (Flow.FlowId flow))
  /\ (GemPortIDs (freeGemPortId o flow) = GemPortIDs o
      <-> ¬ referenced (GemPortIDs o) (Flow.FlowId flow))
  /\ (AllocIDs (FlowRemove o flow).1 = AllocIDs o
      <-> ¬ referenced (AllocIDs o) (Flow.FlowId flow))
  /\ (GemPortIDs (FlowRemove o flow).1 = GemPortIDs o
      <-> ¬ referenced (GemPortIDs o) (Flow.FlowId flow)).
Proof.
  destruct (FlowRemove_ledgers o flow) as [Ha Hg]. rewrite Ha, Hg.
  unfold freeAllocId, freeGemPortId. destruct o; simpl.
  repeat split; try (by apply ledger_free_id); by apply ledger_free_id.
Qed.

(** X3: [FlowRemove] takes the flow ID of the request out of both ledgers
    and nothing else: another flow ID is recorded afterwards exactly when
    it was recorded before, whatever the ledgers held. *)
Theorem FlowRemove_referenced (o : OltDevice.t) (flow : Flow.t) (g : Z) :
  (referenced (AllocIDs (FlowRemove o flow).1) g
   <-> referenced (AllocIDs o) g /\ g ≠ Flow.FlowId flow)
  /\ (referenced (GemPortIDs (FlowRemove o flow).1) g
      <-> referenced (GemPortIDs o) g /\ g ≠ Flow.FlowId flow).
Proof.
  destruct (FlowRemove_ledgers o flow) as [Ha Hg]. rewrite Ha, Hg.
  split; apply ledger_free_referenced_iff.
Qed.

(** The entries of a ledger after the stores of one flow under a list of
    resource IDs. *)
Lemma store_fold_entry (flow : Flow.t) (l : list (Z * Z)) :
  forall (o o' : OltDevice.t),
  foldl (fun acc kv =>
           match acc with
           | None => None
           | Some o' =>
               storeGemPortId o' (uint32 (Flow.AccessIntfId flow))
                 (uint32 (Flow.OnuId flow)) (Flow.PortNo flow) (int32 kv.2)
                 (Flow.FlowId flow)
           end) (Some o) l = Some o' ->
  AllocIDs o' = AllocIDs o
  /\ (l ≠ [] ->
      is_Some (ledger_onu (GemPortIDs o) (uint32 (Flow.AccessIntfId flow))
                 (uint32 (Flow.OnuId flow))))
  /\ forall p u port rid,
    ledger_entry (GemPortIDs o') p u port rid =
    if decide (p = uint32 (Flow.AccessIntfId flow) /\ u = uint32 (Flow.OnuId flow)
               /\ port = Flow.PortNo flow
               /\ rid ∈ (fun kv : Z * Z => int32 kv.2) <$> l)
    then Some (<[Flow.FlowId flow := true]>
                 (default ∅ (ledger_entry (GemPortIDs o) p u port rid)))
    else ledger_entry (GemPortIDs o) p u port rid.
Proof.
  induction l as [|kv l IH]; intros o o'; simpl.
  - intros [= <-]. split; [done|]. split; [done|]. intros p u port rid.
    rewrite decide_False; [done|]. intros (_ & _ & _ & Hin). by apply elem_of_nil in Hin.
  - destruct (storeGemPortId o _ _ _ _ _) as [o1|] eqn:E1.
    2:{ by rewrite store_fold_None. }
    intros Hf. destruct (IH _ _ Hf) as (Ha & _ & He).
    apply storeGemPortId_Some in E1 as (L1 & Hs & ->).
    split; [by rewrite Ha; destruct o|].
    split. { intros _. eapply (proj1 (ledger_store_is_Some _ _ _ _ _ _)). by rewrite Hs. }
    intros p u port rid. rewrite He.
    assert (GemPortIDs (set_GemPortIDs L1 o) = L1) as -> by (by destruct o).
    rewrite (ledger_entry_store _ _ _ _ _ _ _ Hs).
    destruct (decide (p = uint32 (Flow.AccessIntfId flow) /\ u = uint32 (Flow.OnuId flow)
                      /\ port = Flow.PortNo flow /\ rid = int32 kv.2))
      as [(-> & -> & -> & ->)|Hne].
    + rewrite (decide_True (P := _ /\ _ /\ _ /\ _ ∈ _ :: _))
        by (repeat split; try done; apply elem_of_cons; by left).
      case_decide; simpl; [|done]. by rewrite insert_insert_eq.
    + case_decide as Hl.
      * rewrite decide_True; [done|].
        destruct Hl as (? & ? & ? & ?). repeat split; try done.
        apply elem_of_cons. by right.
      * rewrite decide_False; [done|].
        intros (? & ? & ? & Hin). apply elem_of_cons in Hin as [->|Hin].
        -- by apply Hne.
        -- by apply Hl.
Qed.

Lemma flow_gems_replicated (flow : Flow.t) :
  Flow.ReplicateFlow flow = true ->
  flow_gems flow = (fun kv : Z * Z => int32 kv.2) <$> map_to_list (Flow.PbitToGemport flow).
Proof. unfold flow_gems. by intros ->. Qed.

Lemma storeGemPortIdByFlow_entry (o o' : OltDevice.t) (flow : Flow.t) :
  storeGemPortIdByFlow o flow = Some o' ->
  AllocIDs o' = AllocIDs o
  /\ (flow_gems flow ≠ [] ->
      is_Some (ledger_onu (GemPortIDs o) (uint32 (Flow.AccessIntfId flow))
                 (uint32 (Flow.OnuId flow))))
  /\ forall p u port rid,
    ledger_entry (GemPortIDs o') p u port rid =
    if decide (p = uint32 (Flow.AccessIntfId flow) /\ u = uint32 (Flow.OnuId flow)
               /\ port = Flow.PortNo flow /\ rid ∈ flow_gems flow)
    then Some (<[Flow.FlowId flow := true]>
                 (default ∅ (ledger_entry (GemPortIDs o) p u port rid)))
    else ledger_entry (GemPortIDs o) p u port rid.
Proof.
  unfold storeGemPortIdByFlow.
  destruct (Flow.ReplicateFlow flow) eqn:Er.
  - rewrite (flow_gems_replicated _ Er). intros Hf.
    destruct (store_fold_entry flow _ _ _ Hf) as (Ha & Hl & He).
    split; [done|]. split; [|done].
    intros Hne. apply Hl. intros Hnil. by rewrite Hnil in Hne.
  - unfold flow_gems. rewrite Er. intros Hs.
    apply storeGemPortId_Some in Hs as (L1 & Hs & ->).
    split; [by destruct o|].
    split. { intros _. eapply (proj1 (ledger_store_is_Some _ _ _ _ _ _)). by rewrite Hs. }
    intros p u port rid.
    assert (GemPortIDs (set_GemPortIDs L1 o) = L1) as -> by (by destruct o).
    rewrite (ledger_entry_store _ _ _ _ _ _ _ Hs).
    destruct (decide (p = uint32 (Flow.AccessIntfId flow) /\ u = uint32 (Flow.OnuId flow)
                      /\ port = Flow.PortNo flow /\ rid = Flow.GemportId flow))
      as [(-> & -> & -> & ->)|H1].
    + rewrite decide_True; [done|].
      repeat split; try done. by apply list_elem_of_singleton.
    + rewrite decide_False; [done|]. intros (? & ? & ? & Hin).
      apply list_elem_of_singleton in Hin. by apply H1.
Qed.

Lemma storeAllocId_entry (o o' : OltDevice.t) (flow : Flow.t) :
  storeAllocId o flow = Some o' ->
  GemPortIDs o' = GemPortIDs o
  /\ is_Some (ledger_onu (AllocIDs o) (uint32 (Flow.AccessIntfId flow))
                (uint32 (Flow.OnuId flow)))
  /\ forall p u port rid,
    ledger_entry (AllocIDs o') p u port rid =
    if decide (p = uint32 (Flow.AccessIntfId flow) /\ u = uint32 (Flow.OnuId flow)
               /\ port = Flow.PortNo flow /\ rid = Flow.AllocId flow)
    then Some (<[Flow.FlowId flow := true]>
                 (default ∅ (ledger_entry (AllocIDs o) p u port rid)))
    else ledger_entry (AllocIDs o) p u port rid.
Proof.
  intros Hs. apply storeAllocId_Some in Hs as (L1 & Hs & ->).
  split; [by destruct o|].
  split. { eapply (proj1 (ledger_store_is_Some _ _ _ _ _ _)). by rewrite Hs. }
  intros p u port rid.
  assert (AllocIDs (set_AllocIDs L1 o) = L1) as -> by (by destruct o).
  rewrite (ledger_entry_store _ _ _ _ _ _ _ Hs).
  case_decide as H1; [|done]. by destruct H1 as (-> & -> & -> & ->).
Qed.

(** The stores return once the ONU has its level in the ledger. *)
Lemma storeAllocId_is_Some (o : OltDevice.t) (flow : Flow.t) :
  is_Some (storeAllocId o flow) <->
  is_Some (ledger_onu (AllocIDs o) (uint32 (Flow.AccessIntfId flow))
             (uint32 (Flow.OnuId flow))).
Proof.
  unfold storeAllocId. split.
  - intros [x Hx].
    destruct (ledger_store (AllocIDs o) _ _ _ _ _) as [L1|] eqn:E; [|done].
    eapply (proj1 (ledger_store_is_Some _ _ _ _ _ _)). by rewrite E.
  - intros H.
    apply (proj2 (ledger_store_is_Some _ _ _ (Flow.PortNo flow) (Flow.AllocId flow)
                    (Flow.FlowId flow))) in H.
    destruct H as [L1 ->]. by eauto.
Qed.

Lemma store_fold_is_Some (flow : Flow.t) (l : list (Z * Z)) :
  forall o : OltDevice.t,
  is_Some (ledger_onu (GemPortIDs o) (uint32 (Flow.AccessIntfId flow))
             (uint32 (Flow.OnuId flow))) ->
  is_Some (foldl (fun acc kv =>
           match acc with
           | None => None
           | Some o' =>
               storeGemPortId o' (uint32 (Flow.AccessIntfId flow))
                 (uint32 (Flow.OnuId flow)) (Flow.PortNo flow) (int32 kv.2)
                 (Flow.FlowId flow)
           end) (Some o) l).
Proof.
  induction l as [|kv l IH]; intros o Ho; simpl; [by eauto|].
  unfold storeGemPortId at 2.
  destruct (ledger_store (GemPortIDs o) _ _ _ _ _) as [L1|] eqn:Hs.
  2:{ apply (ledger_store_is_Some _ _ _ (Flow.PortNo flow) (int32 kv.2) (Flow.FlowId flow))
        in Ho. rewrite Hs in Ho. by destruct Ho. }
  apply IH.
  assert (GemPortIDs (set_GemPortIDs L1 o) = L1) as -> by (by destruct o).
  by apply (ledger_onu_store _ _ _ _ _ _ _ Hs).
Qed.

Lemma storeGemPortIdByFlow_is_Some (o : OltDevice.t) (flow : Flow.t) :
  is_Some (storeGemPortIdByFlow o flow) <->
  (flow_gems flow ≠ [] ->
   is_Some (ledger_onu (GemPortIDs o) (uint32 (Flow.AccessIntfId flow))
              (uint32 (Flow.OnuId flow)))).
Proof.
  split.
  - intros [o' Ho']. by apply (storeGemPortIdByFlow_entry _ _ _ Ho').
  - intros H. unfold storeGemPortIdByFlow.
    destruct (Flow.ReplicateFlow flow) eqn:Er.
    + rewrite (flow_gems_replicated _ Er) in H.
      destruct (map_to_list (Flow.PbitToGemport flow)) as [|kv l] eqn:El.
      { simpl. by eauto. }
      rewrite <- El in *. apply store_fold_is_Some. apply H.
      rewrite El. done.
    + unfold flow_gems in H. rewrite Er in H.
      unfold storeGemPortId.
      destruct (ledger_store (GemPortIDs o) _ _ _ _ _) eqn:Hs; [by eauto|].
      exfalso. assert (is_Some (ledger_store (GemPortIDs o) (uint32 (Flow.AccessIntfId flow))
        (uint32 (Flow.OnuId flow)) (Flow.PortNo flow) (Flow.GemportId flow) (Flow.FlowId flow)))
        as [x Hx]; [|congruence].
      apply (proj2 (ledger_store_is_Some _ _ _ _ _ _)). by apply H.
Qed.

(** X4: what the two stores of a flow write.  [storeAllocId] marks the
    flow under its Alloc-ID and [storeGemPortIdByFlow] under every GEM
    port the flow asks for, at the port of the flow below its ONU; the
    flows already recorded there stay, every other entry of the ledger is
    as before, and the other ledger is not touched. *)
Theorem stores_mark_the_flow (o o' : OltDevice.t) (flow : Flow.t) :
  (storeAllocId o flow = Some o' ->
   GemPortIDs o' = GemPortIDs o
   /\ forall p u port rid,
      ledger_entry (AllocIDs o') p u port rid =
      if decide (p = uint32 (Flow.AccessIntfId flow) /\ u = uint32 (Flow.OnuId flow)
                 /\ port = Flow.PortNo flow /\ rid = Flow.AllocId flow)
      then Some (<[Flow.FlowId flow := true]>
                   (default ∅ (ledger_entry (AllocIDs o) p u port rid)))
      else ledger_entry (AllocIDs o) p u port rid)
  /\ (storeGemPortIdByFlow o flow = Some o' ->
      AllocIDs o' = AllocIDs o
      /\ forall p u port rid,
         ledger_entry (GemPortIDs o') p u port rid =
         if decide (p = uint32 (Flow.AccessIntfId flow) /\ u = uint32 (Flow.OnuId flow)
                    /\ port = Flow.PortNo flow /\ rid ∈ flow_gems flow)
         then Some (<[Flow.FlowId flow := true]>
                      (default ∅ (ledger_entry (GemPortIDs o) p u port rid)))
         else ledger_entry (GemPortIDs o) p u port rid).
Proof.
  split; intros Hs.
  - by destruct (storeAllocId_entry _ _ _ Hs) as (? & _ & ?).
  - by destruct (storeGemPortIdByFlow_entry _ _ _ Hs) as (? & _ & ?).
Qed.

(** The two stores at once, on [demo_olt] and the replicated
    [demo_flow5]. *)
Lemma stores_mark_the_flow_witness :
  storeGemPortIdByFlow demo_olt demo_flow5
    = Some (default demo_olt (storeGemPortIdByFlow demo_olt demo_flow5))
  /\ ledger_entry
       (GemPortIDs (default demo_olt (storeGemPortIdByFlow demo_olt demo_flow5)))
       0 1 16 52 = Some {[ 5 := true ]}.
Proof.
  split; [by vm_compute|].
  destruct (stores_mark_the_flow demo_olt
              (default demo_olt (storeGemPortIdByFlow demo_olt demo_flow5)) demo_flow5)
    as [_ H].
  destruct (H ltac:(by vm_compute)) as [_ He].
  rewrite He. by vm_compute.
Defined.

(** ** [FlowAdd] and [FlowRemove] on the ledgers *)

(** [FlowAdd] with the device of each step written in terms of the one
    it is called on. *)
Lemma FlowAdd_eq (o : OltDevice.t) (flow : Flow.t) :
  FlowAdd o flow =
  let o1 := record_flow o flow in
  if Z.eqb (Flow.AccessIntfId flow) (-1) then Some (o1, None)
  else if String.eqb (Flow.FlowType flow) "multicast" then Some (o1, None)
  else
    match GetPonById o (uint32 (Flow.AccessIntfId flow)) with
    | None => None
    | Some (pi, pon) =>
        match GetOnuById pon (uint32 (Flow.OnuId flow)) with
        | None =>
            Some (o1, Some (ErrCannotFindOnu (PonPort.ID pon) (uint32 (Flow.OnuId flow))))
        | Some (oi, onu) =>
            if onu_rejects_flows onu
            then Some (o1, Some (ErrOnuIsCurrently (Onu.Sn onu) (Onu.InternalState onu)))
            else
              let o2 := if enablePerf o then o1
                        else append_flow pi oi onu (Flow.FlowId flow) o1 in
              match validateFlow o flow with
              | Some err => Some (o2, Some err)
              | None =>
                  match storeGemPortIdByFlow o2 flow with
                  | None => None
                  | Some o3 =>
                      match storeAllocId o3 flow with
                      | None => None
                      | Some o4 =>
                          Some (alter_onu pi oi
                                  (enqueue (types.FlowAdd (PonPort.ID pon) (Onu.ID onu) flow))
                                  o4,
                                None)
                      end
                  end
              end
        end
    end.
Proof.
  destruct (target_onu o flow) as [[[[pi pon] oi] onu]|] eqn:Ht.
  - rewrite (FlowAdd_target _ _ _ _ _ _ Ht). cbv zeta.
    unfold target_onu in Ht.
    destruct (Z.eqb (Flow.AccessIntfId flow) (-1)); [done|].
    destruct (String.eqb (Flow.FlowType flow) "multicast"); [done|].
    destruct (GetPonById o _) as [[pi' pon']|]; [|done].
    destruct (GetOnuById pon' _) as [[oi' onu']|]; [|done].
    by injection Ht as -> -> -> ->.
  - unfold target_onu in Ht. unfold FlowAdd. fold (record_flow o flow). cbv zeta.
    destruct (Z.eqb (Flow.AccessIntfId flow) (-1)); [done|].
    destruct (String.eqb (Flow.FlowType flow) "multicast"); [done|].
    destruct (record_flow_ledgers o flow) as (HA & HG & HP & HE).
    unfold GetPonById in *. rewrite HP.
    destruct (list_find _ (Pons o)) as [[pi' pon']|]; [|done].
    by destruct (GetOnuById pon' _) as [[oi' onu']|].
Qed.

Lemma target_onu_Some (o : OltDevice.t) (flow : Flow.t) pi pon oi onu :
  target_onu o flow = Some (pi, pon, oi, onu) <->
  Flow.AccessIntfId flow ≠ -1 /\ Flow.FlowType flow ≠ "multicast"
  /\ GetPonById o (uint32 (Flow.AccessIntfId flow)) = Some (pi, pon)
  /\ GetOnuById pon (uint32 (Flow.OnuId flow)) = Some (oi, onu).
Proof.
  unfold target_onu.
  destruct (Z.eqb_spec (Flow.AccessIntfId flow) (-1)) as [E|E].
  { split; [done|]. by intros (? & _). }
  destruct (String.eqb_spec (Flow.FlowType flow) "multicast") as [E2|E2].
  { split; [done|]. by intros (_ & ? & _). }
  destruct (GetPonById o _) as [[pi' pon']|].
  2:{ split; [done|]. by intros (_ & _ & ? & _). }
  destruct (GetOnuById pon' _) as [[oi' onu']|] eqn:Eo.
  - split.
    + by intros [= -> -> -> ->].
    + intros (_ & _ & [= -> ->] & H). rewrite Eo in H. by injection H as -> ->.
  - split; [done|]. intros (_ & _ & [= -> ->] & H). by rewrite Eo in H.
Qed.

(** The device the stores of [FlowAdd] start from has the ledgers of the
    device [FlowAdd] is called on. *)
Lemma FlowAdd_o2_ledgers (o : OltDevice.t) (flow : Flow.t) pi oi onu :
  let o2 := if enablePerf o then record_flow o flow
            else append_flow pi oi onu (Flow.FlowId flow) (record_flow o flow) in
  AllocIDs o2 = AllocIDs o /\ GemPortIDs o2 = GemPortIDs o.
Proof.
  destruct (record_flow_ledgers o flow) as (HA & HG & HP & HE).
  cbv zeta. destruct (enablePerf o); [done|].
  destruct (append_flow_ledgers pi oi onu (Flow.FlowId flow) (record_flow o flow))
    as [-> ->]. done.
Qed.

(** What a call of [FlowAdd] that returns has written into the ledgers. *)
Lemma FlowAdd_entries (o o' : OltDevice.t) (flow : Flow.t) r :
  FlowAdd o flow = Some (o', r) ->
  (AllocIDs o' = AllocIDs o /\ GemPortIDs o' = GemPortIDs o
   /\ (r = None -> Z.eqb (Flow.AccessIntfId flow) (-1)
                   || String.eqb (Flow.FlowType flow) "multicast" = true))
  \/ (r = None
      /\ Flow.AccessIntfId flow ≠ -1 /\ Flow.FlowType flow ≠ "multicast"
      /\ (forall p u port rid,
            ledger_entry (AllocIDs o') p u port rid =
            if decide (p = uint32 (Flow.AccessIntfId flow)
                       /\ u = uint32 (Flow.OnuId flow)
                       /\ port = Flow.PortNo flow /\ rid = Flow.AllocId flow)
            then Some (<[Flow.FlowId flow := true]>
                         (default ∅ (ledger_entry (AllocIDs o) p u port rid)))
            else ledger_entry (AllocIDs o) p u port rid)
      /\ (forall p u port rid,
            ledger_entry (GemPortIDs o') p u port rid =
            if decide (p = uint32 (Flow.AccessIntfId flow)
                       /\ u = uint32 (Flow.OnuId flow)
                       /\ port = Flow.PortNo flow /\ rid ∈ flow_gems flow)
            then Some (<[Flow.FlowId flow := true]>
                         (default ∅ (ledger_entry (GemPortIDs o) p u port rid)))
            else ledger_entry (GemPortIDs o) p u port rid)).
Proof.
  destruct (record_flow_ledgers o flow) as (HA & HG & HP & HE).
  rewrite FlowAdd_eq. cbv zeta.
  destruct (Z.eqb_spec (Flow.AccessIntfId flow) (-1)) as [E1|E1].
  { intros [= <- <-]. by left. }
  destruct (String.eqb_spec (Flow.FlowType flow) "multicast") as [E2|E2].
  { intros [= <- <-]. by left. }
  destruct (GetPonById o _) as [[pi pon]|]; [|done].
  destruct (GetOnuById pon _) as [[oi onu]|].
  2:{ intros [= <- <-]. by left. }
  destruct (onu_rejects_flows onu).
  { intros [= <- <-]. by left. }
  destruct (FlowAdd_o2_ledgers o flow pi oi onu) as [H2A H2G].
  cbv zeta in H2A, H2G.
  set (o2 := if enablePerf o then _ else _) in *.
  destruct (validateFlow o flow) as [err|].
  { intros [= <- <-]. by left. }
  destruct (storeGemPortIdByFlow o2 flow) as [o3|] eqn:E3; [|done].
  destruct (storeAllocId o3 flow) as [o4|] eqn:E4; [|done].
  intros [= <- <-]. right. split; [done|]. split; [done|]. split; [done|].
  destruct (storeGemPortIdByFlow_entry _ _ _ E3) as (H3A & _ & H3G).
  destruct (storeAllocId_entry _ _ _ E4) as (H4G & _ & H4A).
  split; intros p u port rid.
  - assert (AllocIDs (alter_onu pi oi
              (enqueue (types.FlowAdd (PonPort.ID pon) (Onu.ID onu) flow)) o4)
            = AllocIDs o4) as -> by done.
    rewrite H4A, H3A, H2A. done.
  - assert (GemPortIDs (alter_onu pi oi
              (enqueue (types.FlowAdd (PonPort.ID pon) (Onu.ID onu) flow)) o4)
            = GemPortIDs o4) as -> by done.
    rewrite H4G, H3G, H2G. done.
Qed.

(** When [FlowAdd] does not return. *)
Lemma FlowAdd_None_iff (o : OltDevice.t) (flow : Flow.t) :
  FlowAdd o flow = None <->
  Flow.AccessIntfId flow ≠ -1 /\ Flow.FlowType flow ≠ "multicast"
  /\ (GetPonById o (uint32 (Flow.AccessIntfId flow)) = None
      \/ ((exists pi pon oi onu,
              target_onu o flow = Some (pi, pon, oi, onu)
              /\ onu_rejects_flows onu = false)
          /\ validateFlow o flow = None
          /\ (ledger_onu (AllocIDs o) (uint32 (Flow.AccessIntfId flow))
                (uint32 (Flow.OnuId flow)) = None
              \/ (flow_gems flow ≠ []
                  /\ ledger_onu (GemPortIDs o) (uint32 (Flow.AccessIntfId flow))
                       (uint32 (Flow.OnuId flow)) = None)))).
Proof.
  rewrite FlowAdd_eq. cbv zeta.
  destruct (Z.eqb_spec (Flow.AccessIntfId flow) (-1)) as [E1|E1].
  { split; [done|]. by intros (? & _). }
  destruct (String.eqb_spec (Flow.FlowType flow) "multicast") as [E2|E2].
  { split; [done|]. by intros (_ & ? & _). }
  destruct (GetPonById o _) as [[pi pon]|] eqn:Ep.
  2:{ split; [|done]. intros _. split; [done|]. split; [done|]. by left. }
  destruct (GetOnuById pon _) as [[oi onu]|] eqn:Eo.
  2:{ split; [done|]. intros (_ & _ & [?|((pi' & pon' & oi' & onu' & Ht & _) & _)]); [done|].
      apply target_onu_Some in Ht as (_ & _ & Hp & Ho).
      rewrite Ep in Hp. injection Hp as <- <-. by rewrite Eo in Ho. }
  assert (Ht : target_onu o flow = Some (pi, pon, oi, onu)).
  { apply target_onu_Some. by rewrite Eo. }
  destruct (onu_rejects_flows onu) eqn:Er.
  { split; [done|]. intros (_ & _ & [?|((pi' & pon' & oi' & onu' & Ht' & Hr) & _)]); [done|].
    rewrite Ht in Ht'. injection Ht' as <- <- <- <-. by rewrite Er in Hr. }
  destruct (FlowAdd_o2_ledgers o flow pi oi onu) as [H2A H2G].
  cbv zeta in H2A, H2G.
  set (o2 := if enablePerf o then _ else _) in *.
  destruct (validateFlow o flow) as [err|].
  { split; [done|]. by intros (_ & _ & [?|(_ & ? & _)]). }
  destruct (storeGemPortIdByFlow o2 flow) as [o3|] eqn:E3.
  - destruct (storeGemPortIdByFlow_entry _ _ _ E3) as (H3A & H3l & _).
    rewrite H2G in H3l.
    destruct (storeAllocId o3 flow) as [o4|] eqn:E4.
    + destruct (storeAllocId_entry _ _ _ E4) as (_ & [x Hx] & _).
      rewrite H3A, H2A in Hx.
      split; [done|].
      intros (_ & _ & [?|(_ & _ & [Hn|[Hne Hn]])]); [done| |].
      * by rewrite Hx in Hn.
      * destruct (H3l Hne) as [y Hy]. by rewrite Hy in Hn.
    + split; [|done]. intros _. split; [done|]. split; [done|]. right.
      split; [by eauto 10|]. split; [done|]. left.
      destruct (ledger_onu (AllocIDs o) _ _) as [x|] eqn:Ex; [|done].
      exfalso.
      assert (is_Some (storeAllocId o3 flow)) as [y Hy]; [|by rewrite Hy in E4].
      apply storeAllocId_is_Some. rewrite H3A, H2A, Ex. by eauto.
  - split; [|done]. intros _. split; [done|]. split; [done|]. right.
    split; [by eauto 10|]. split; [done|]. right.
    destruct (decide (flow_gems flow = [])) as [Hnil|Hne].
    + exfalso.
      assert (is_Some (storeGemPortIdByFlow o2 flow)) as [y Hy]; [|by rewrite Hy in E3].
      apply storeGemPortIdByFlow_is_Some. by intros ?.
    + split; [done|].
      destruct (ledger_onu (GemPortIDs o) _ _) as [x|] eqn:Ex; [|done].
      exfalso.
      assert (is_Some (storeGemPortIdByFlow o2 flow)) as [y Hy]; [|by rewrite Hy in E3].
      apply storeGemPortIdByFlow_is_Some. intros _. rewrite H2G, Ex. by eauto.
Qed.


(** X6: a flow of an ONU that [FlowAdd] accepts is recorded in both
    ledgers when the call returns: under its Alloc-ID and under every GEM
    port it asks for; and no flow that was recorded before is lost. *)
Theorem FlowAdd_accepted_is_stored (o o' : OltDevice.t) (flow : Flow.t) :
  Flow.AccessIntfId flow ≠ -1 -> Flow.FlowType flow ≠ "multicast" ->
  FlowAdd o flow = Some (o', None) ->
  stored_under (AllocIDs o') flow (Flow.AllocId flow)
  /\ (forall g, g ∈ flow_gems flow -> stored_under (GemPortIDs o') flow g)
  /\ (forall g, referenced (AllocIDs o) g -> referenced (AllocIDs o') g)
  /\ (forall g, referenced (GemPortIDs o) g -> referenced (GemPortIDs o') g).
Proof.
  intros E1 E2 H.
  destruct (FlowAdd_entries _ _ _ _ H) as [(_ & _ & Hk)|(_ & _ & _ & HA & HG)].
  { specialize (Hk eq_refl). apply orb_true_iff in Hk as [Hk|Hk].
    - by apply Z.eqb_eq in Hk.
    - by apply String.eqb_eq in Hk. }
  assert (Hkeep : forall (L L' : Ledger) (mark : Z -> Z -> Z -> Z -> Prop)
                    `{forall p u port rid, Decision (mark p u port rid)},
             (forall p u port rid,
                 ledger_entry L' p u port rid =
                 if decide (mark p u port rid)
                 then Some (<[Flow.FlowId flow := true]>
                              (default ∅ (ledger_entry L p u port rid)))
                 else ledger_entry L p u port rid) ->
             forall g, referenced L g -> referenced L' g).
  { intros L L' mark Hdec He g (p & u & port & rid & flows & E & Hg).
    destruct (decide (mark p u port rid)) as [Hm|Hm].
    - exists p, u, port, rid, (<[Flow.FlowId flow := true]> flows).
      rewrite He, decide_True, E by done. split; [done|].
      destruct (decide (g = Flow.FlowId flow)) as [->|Hne].
      + rewrite lookup_insert_eq. by eauto.
      + by rewrite lookup_insert_ne.
    - exists p, u, port, rid, flows. by rewrite He, decide_False. }
  split; [|split; [|split]].
  - eexists. rewrite HA, decide_True by done. split; [done|].
    by rewrite lookup_insert_eq.
  - intros g Hg. eexists. rewrite HG, decide_True by done. split; [done|].
    by rewrite lookup_insert_eq.
  - by apply (Hkeep _ _ _ _ HA).
  - by apply (Hkeep _ _ _ _ HG).
Qed.

Lemma FlowAdd_accepted_is_stored_witness :
  stored_under (AllocIDs demo_olt1) demo_flow1 100
  /\ stored_under (GemPortIDs demo_olt1) demo_flow1 50.
Proof.
  destruct (FlowAdd_accepted_is_stored demo_olt demo_olt1 demo_flow1)
    as (Ha & Hg & _); [done|done|by vm_compute|].
  split; [exact Ha|]. apply Hg. by apply list_elem_of_singleton.
Defined.

(** A free of a flow that was not recorded, after the stores of that flow,
    leaves every entry as it was before the stores. *)
Lemma free_after_mark (L L' : Ledger) (fid : Z) (mark : Z -> Z -> Z -> Z -> Prop)
    `{forall p u port rid, Decision (mark p u port rid)} :
  entries_nonempty L -> ¬ referenced L fid ->
  (forall p u port rid,
      ledger_entry L' p u port rid =
      if decide (mark p u port rid)
      then Some (<[fid := true]> (default ∅ (ledger_entry L p u port rid)))
      else ledger_entry L p u port rid) ->
  forall p u port rid,
    ledger_entry (ledger_free fid L') p u port rid = ledger_entry L p u port rid.
Proof.
  rewrite entries_nonempty_lookup. intros Hne Hnr He p u port rid.
  rewrite ledger_entry_free, He.
  assert (Hold : forall flows, ledger_entry L p u port rid = Some flows ->
                               flows !! fid = None).
  { intros flows E. destruct (flows !! fid) eqn:Ef; [|done].
    exfalso. apply Hnr. exists p, u, port, rid, flows. by eauto. }
  case_decide as Hm.
  - simpl. rewrite free_flows_spec.
    rewrite decide_False by apply insert_non_empty.
    rewrite delete_insert_eq.
    destruct (ledger_entry L p u port rid) as [flows|] eqn:E; simpl.
    + rewrite (delete_id _ _ (Hold _ eq_refl)).
      by rewrite decide_False by (by apply (Hne _ _ _ _ _ E)).
    + by rewrite delete_empty, decide_True.
  - destruct (ledger_entry L p u port rid) as [flows|] eqn:E; simpl; [|done].
    by apply free_flows_absent, Hold.
Qed.

(** X7: adding a flow and removing it again gives every ledger entry
    back.  For a flow ID that the ledgers do not hold yet, and ledgers
    without empty entries, each resource has after the [FlowRemove] the
    referencers it had before the [FlowAdd], whether the flow was
    accepted or refused and whatever else the removal request says. *)
Theorem FlowAdd_then_FlowRemove (o o1 : OltDevice.t) (flow flow' : Flow.t) r :
  entries_nonempty (AllocIDs o) -> entries_nonempty (GemPortIDs o) ->
  ¬ referenced (AllocIDs o) (Flow.FlowId flow) ->
  ¬ referenced (GemPortIDs o) (Flow.FlowId flow) ->
  FlowAdd o flow = Some (o1, r) ->
  Flow.FlowId flow' = Flow.FlowId flow ->
  forall p u port rid,
    ledger_entry (AllocIDs (FlowRemove o1 flow').1) p u port rid
    = ledger_entry (AllocIDs o) p u port rid
    /\ ledger_entry (GemPortIDs (FlowRemove o1 flow').1) p u port rid
       = ledger_entry (GemPortIDs o) p u port rid.
Proof.
  intros HnA HnG HrA HrG Hadd Hid p u port rid.
  destruct (FlowRemove_ledgers o1 flow') as [-> ->]. rewrite Hid.
  destruct (FlowAdd_entries _ _ _ _ Hadd) as [(-> & -> & _)|(_ & _ & _ & HA & HG)].
  - by rewrite (proj2 (ledger_free_id _ _) HrA), (proj2 (ledger_free_id _ _) HrG).
  - split.
    + by apply (free_after_mark _ _ _ _ HnA HrA HA).
    + by apply (free_after_mark _ _ _ _ HnG HrG HG).
Qed.

Lemma FlowAdd_then_FlowRemove_witness :
  ledger_entry (AllocIDs (FlowRemove demo_olt1 demo_flow1).1) 0 1 16 100 = None
  /\ ledger_entry (GemPortIDs (FlowRemove demo_olt1 demo_flow1).1) 0 1 16 50 = None.
Proof.
  assert (Hne : entries_nonempty demo_ledger).
  { apply (bool_decide_unpack _). by vm_compute. }
  assert (Hnr : ¬ referenced demo_ledger 1).
  { apply no_entries_not_referenced. apply (bool_decide_unpack _). by vm_compute. }
  destruct (FlowAdd_then_FlowRemove demo_olt demo_olt1 demo_flow1 demo_flow1 None
              Hne Hne Hnr Hnr ltac:(by vm_compute) eq_refl 0 1 16 100) as [Ha _].
  destruct (FlowAdd_then_FlowRemove demo_olt demo_olt1 demo_flow1 demo_flow1 None
              Hne Hne Hnr Hnr ltac:(by vm_compute) eq_refl 0 1 16 50) as [_ Hg].
  split; [exact Ha | exact Hg].
Defined.

(** ** Lookups after an update through a pointer *)

Lemma list_find_alter {A : Type} (P : A -> Prop) `{forall x, Decision (P x)}
    (f : A -> A) (l : list A) :
  (forall x, P (f x) <-> P x) ->
  forall i,
    list_find P (alter f i l)
    = (fun jx : nat * A => (jx.1, if decide (jx.1 = i) then f jx.2 else jx.2))
        <$> list_find P l.
Proof.
  intros Hf. induction l as [|x l IH]; intros i; [done|].
  destruct i as [|i].
  - cbn [alter list_alter list_find].
    destruct (decide (P x)) as [Hx|Hx].
    + rewrite decide_True by (by apply Hf). done.
    + rewrite decide_False by (by rewrite Hf).
      destruct (list_find P l) as [[j y]|]; [|done]. done.
  - cbn [alter list_alter list_find].
    destruct (decide (P x)) as [Hx|Hx]; [done|].
    change (list_alter f i l) with (alter f i l).
    rewrite IH. destruct (list_find P l) as [[j y]|]; [|done].
    cbn. f_equal. f_equal.
    destruct (decide (j = i)) as [->|Hne].
    + by rewrite decide_True.
    + by rewrite decide_False by lia.
Qed.

Lemma GetPonById_alter_onu (o : OltDevice.t) pi oi (f : Onu.t -> Onu.t) id :
  GetPonById (alter_onu pi oi f o) id
  = (fun jx : nat * PonPort.t =>
       (jx.1,
        if decide (jx.1 = pi)
        then PonPort.set_Onus (alter f oi (PonPort.Onus jx.2)) jx.2
        else jx.2)) <$> GetPonById o id.
Proof.
  unfold GetPonById, alter_onu, alter_pon.
  assert (Pons (set_Pons (alter (fun pon => PonPort.set_Onus
            (alter f oi (PonPort.Onus pon)) pon) pi (Pons o)) o)
          = alter (fun pon => PonPort.set_Onus
              (alter f oi (PonPort.Onus pon)) pon) pi (Pons o)) as -> by done.
  by apply (list_find_alter (fun pon => PonPort.ID pon = id)).
Qed.

Lemma GetOnuById_alter (pon : PonPort.t) oi (f : Onu.t -> Onu.t) id :
  (forall x, Onu.ID (f x) = Onu.ID x) ->
  GetOnuById (PonPort.set_Onus (alter f oi (PonPort.Onus pon)) pon) id
  = (fun jx : nat * Onu.t => (jx.1, if decide (jx.1 = oi) then f jx.2 else jx.2))
      <$> GetOnuById pon id.
Proof.
  intros Hf. unfold GetOnuById. simpl.
  apply (list_find_alter (fun onu => Onu.ID onu = id)).
  intros x. by rewrite Hf.
Qed.

(** An update of the ONU a flow is handed to that keeps the ID of the ONU
    leaves the flow with that ONU. *)
Lemma target_onu_alter (o o' : OltDevice.t) (flow : Flow.t) pi pon oi onu
    (f : Onu.t -> Onu.t) :
  (forall x, Onu.ID (f x) = Onu.ID x) ->
  Pons o' = Pons (alter_onu pi oi f o) ->
  target_onu o flow = Some (pi, pon, oi, onu) ->
  target_onu o' flow
  = Some (pi, PonPort.set_Onus (alter f oi (PonPort.Onus pon)) pon, oi, f onu).
Proof.
  intros Hf HP Ht. apply target_onu_Some in Ht as (E1 & E2 & Hp & Ho).
  apply target_onu_Some. split; [done|]. split; [done|].
  assert (GetPonById o' (uint32 (Flow.AccessIntfId flow))
          = GetPonById (alter_onu pi oi f o) (uint32 (Flow.AccessIntfId flow))) as ->.
  { unfold GetPonById. by rewrite HP. }
  rewrite GetPonById_alter_onu, Hp. simpl. rewrite decide_True by done.
  split; [done|].
  rewrite (GetOnuById_alter _ _ _ _ Hf), Ho. simpl. by rewrite decide_True.
Qed.

Lemma ledger_store_marked (L : Ledger) p u port rid fid :
  (exists flows, ledger_entry L p u port rid = Some flows /\ flows !! fid = Some true) ->
  ledger_store L p u port rid fid = Some L.
Proof. intros (flows & E & Hf). by apply (ledger_store_again _ _ _ _ _ _ flows). Qed.

Lemma storeAllocId_again (o : OltDevice.t) (flow : Flow.t) :
  stored_under (AllocIDs o) flow (Flow.AllocId flow) -> storeAllocId o flow = Some o.
Proof.
  intros Hs. unfold storeAllocId. rewrite (ledger_store_marked _ _ _ _ _ _ Hs).
  by destruct o.
Qed.

Lemma storeGemPortIdByFlow_again (o : OltDevice.t) (flow : Flow.t) :
  (forall g, g ∈ flow_gems flow -> stored_under (GemPortIDs o) flow g) ->
  storeGemPortIdByFlow o flow = Some o.
Proof.
  unfold storeGemPortIdByFlow.
  destruct (Flow.ReplicateFlow flow) eqn:Er.
  - rewrite (flow_gems_replicated _ Er).
    induction (map_to_list (Flow.PbitToGemport flow)) as [|kv l IH]; intros Hs; [done|].
    simpl. unfold storeGemPortId at 2.
    rewrite (ledger_store_marked (GemPortIDs o)).
    2:{ apply Hs. rewrite fmap_cons. apply elem_of_cons. by left. }
    assert (set_GemPortIDs (GemPortIDs o) o = o) as -> by (by destruct o).
    apply IH. intros g Hg. apply Hs. rewrite fmap_cons. apply elem_of_cons. by right.
  - unfold flow_gems. rewrite Er. intros Hs. unfold storeGemPortId.
    rewrite (ledger_store_marked (GemPortIDs o)).
    2:{ apply Hs. by apply list_elem_of_singleton. }
    by destruct o.
Qed.

(** X8: adding an accepted flow a second time is accepted again and
    leaves both ledgers exactly as the first call left them. *)
Theorem FlowAdd_again (o o1 : OltDevice.t) (flow : Flow.t) :
  FlowAdd o flow = Some (o1, None) ->
  exists o2,
    FlowAdd o1 flow = Some (o2, None)
    /\ AllocIDs o2 = AllocIDs o1 /\ GemPortIDs o2 = GemPortIDs o1.
Proof.
  intros Hadd.
  destruct (FlowAdd_entries _ _ _ _ Hadd) as [(_ & _ & Hk)|(_ & E1 & E2 & HA & HG)].
  { specialize (Hk eq_refl). rewrite FlowAdd_eq. cbv zeta.
    destruct (record_flow_ledgers o1 flow) as (HA1 & HG1 & _).
    destruct (Z.eqb (Flow.AccessIntfId flow) (-1)); [by eauto|].
    simpl in Hk. rewrite Hk. by eauto. }
  (* the flow of an ONU *)
  pose proof Hadd as Hadd'. rewrite FlowAdd_eq in Hadd'. cbv zeta in Hadd'.
  destruct (Z.eqb_spec (Flow.AccessIntfId flow) (-1)) as [|_]; [done|].
  destruct (String.eqb_spec (Flow.FlowType flow) "multicast") as [|_]; [done|].
  destruct (GetPonById o _) as [[pi pon]|] eqn:Ep; [|done].
  destruct (GetOnuById pon _) as [[oi onu]|] eqn:Eo; [|done].
  assert (Ht : target_onu o flow = Some (pi, pon, oi, onu)).
  { apply target_onu_Some. by rewrite Eo. }
  destruct (onu_rejects_flows onu) eqn:Er; [done|].
  destruct (validateFlow o flow) as [err|] eqn:Hv; [done|].
  set (o2 := if enablePerf o then _ else _) in Hadd'.
  destruct (storeGemPortIdByFlow o2 flow) as [o3|] eqn:E3; [|done].
  destruct (storeAllocId o3 flow) as [o4|] eqn:E4; [|done].
  injection Hadd' as Ho1.
  (* the device after the first call holds the same ONU under the same
     pointer, with the state it had *)
  assert (Hpons : exists f, (forall x, Onu.ID (f x) = Onu.ID x)
                            /\ (forall x, Onu.InternalState (f x) = Onu.InternalState x)
                            /\ Pons o1 = Pons (alter_onu pi oi f o)).
  { apply storeAllocId_Some in E4 as (L4 & _ & ->).
    assert (Pons o3 = Pons o2) as HP3.
    { destruct (storeGemPortIdByFlow_stored_into _ _ _ E3) as [-> _]. by destruct o2. }
    destruct (record_flow_ledgers o flow) as (_ & _ & HP & _).
    subst o1. unfold alter_onu at 1, alter_pon at 1.
    assert (forall v x, Pons (set_Pons v x) = v) as Hset by done.
    assert (forall v x, Pons (set_AllocIDs v x) = Pons x) as Hseta by done.
    rewrite Hset, Hseta, HP3. subst o2.
    destruct (enablePerf o).
    - exists (enqueue (types.FlowAdd (PonPort.ID pon) (Onu.ID onu) flow)).
      split; [done|]. split; [done|].
      unfold alter_onu, alter_pon. by rewrite Hset, HP.
    - exists (fun x => enqueue (types.FlowAdd (PonPort.ID pon) (Onu.ID onu) flow)
                         (Onu.set_Flows (Onu.Flows x ++ [Flow.FlowId flow]) x)).
      split; [done|]. split; [done|].
      unfold append_flow.
      assert (forall a b c d x, Pons (publishEvent a b c d x) = Pons x) as Hpub by done.
      destruct (Nat.eqb _ 1); rewrite ?Hpub;
        unfold alter_onu, alter_pon; rewrite !Hset, HP;
        rewrite list_alter_alter_eq; apply list_alter_ext; try done;
        intros pon' _; simpl; by rewrite list_alter_alter_eq. }
  destruct Hpons as (f & HfID & HfSt & HP1).
  pose proof (target_onu_alter o o1 flow pi pon oi onu f HfID HP1 Ht) as Ht1.
  apply target_onu_Some in Ht1 as (_ & _ & Hp1 & Ho1').
  (* the second call *)
  rewrite FlowAdd_eq. cbv zeta.
  destruct (Z.eqb_spec (Flow.AccessIntfId flow) (-1)) as [|_]; [done|].
  destruct (String.eqb_spec (Flow.FlowType flow) "multicast") as [|_]; [done|].
  rewrite Hp1, Ho1'.
  assert (onu_rejects_flows (f onu) = false) as ->.
  { unfold onu_rejects_flows in *. by rewrite HfSt. }
  assert (validateFlow o1 flow = None) as ->.
  { apply validateFlow_None. apply validateFlow_None in Hv as [Hvg Hva]. split.
    - intros u port g flows Hu. rewrite HG.
      rewrite decide_False by (intros (_ & ? & _); done). by apply Hvg.
    - intros u port a flows Hu. rewrite HA.
      rewrite decide_False by (intros (_ & ? & _); done). by apply Hva. }
  destruct (FlowAdd_o2_ledgers o1 flow pi oi (f onu)) as [H2A H2G].
  cbv zeta in H2A, H2G.
  set (o2' := if enablePerf o1 then _ else _) in *.
  rewrite storeGemPortIdByFlow_again.
  2:{ intros g Hg. rewrite H2G. eexists. rewrite HG, decide_True by done.
      split; [done|]. by rewrite lookup_insert_eq. }
  rewrite storeAllocId_again.
  2:{ rewrite H2A. eexists. rewrite HA, decide_True by done.
      split; [done|]. by rewrite lookup_insert_eq. }
  eexists. split; [done|]. by split.
Qed.

Lemma FlowAdd_again_witness :
  exists o2,
    FlowAdd demo_olt1 demo_flow1 = Some (o2, None)
    /\ AllocIDs o2 = AllocIDs demo_olt1 /\ GemPortIDs o2 = GemPortIDs demo_olt1.
Proof. apply (FlowAdd_again demo_olt). by vm_compute. Defined.

(** ** The flow table *)

(** The flow table after [FlowRemove], with the table and the lookups of
    the device the call starts from. *)
Lemma FlowRemove_Flows (o : OltDevice.t) (flow : Flow.t) :
  Flows (FlowRemove o flow).1 =
  if enablePerf o then Flows o
  else
    match Flows o !! Flow.FlowId flow with
    | None => Flows o
    | Some storedFlow =>
        if Z.eqb (Flow.AccessIntfId storedFlow) (-1)
        then delete (Flow.FlowId flow) (Flows o)
        else
          match GetPonById o (uint32 (Flow.AccessIntfId storedFlow)) with
          | None => Flows o
          | Some (_, pon) =>
              match GetOnuById pon (uint32 (Flow.OnuId storedFlow)) with
              | None => Flows o
              | Some _ => delete (Flow.FlowId flow) (Flows o)
              end
          end
    end.
Proof.
  unfold FlowRemove.
  set (o' := freeAllocId (freeGemPortId o flow) flow).
  assert (Hfl : Flows o' = Flows o) by done.
  assert (Hperf : enablePerf o' = enablePerf o) by done.
  assert (Hpon : forall id, GetPonById o' id = GetPonById o id) by done.
  rewrite Hperf.
  assert (Htail : forall x : OltDevice.t,
    Flows (if Z.eqb (Flow.AccessIntfId flow) (-1) then (x, None)
           else if String.eqb (Flow.FlowType flow) "multicast" then (x, None)
           else match GetOnuByFlowId x (Flow.FlowId flow) with
                | None => (x, Some (ErrCannotFindOnuByFlowId (Flow.FlowId flow)))
                | Some (pi, oi) =>
                    (alter_onu pi oi (enqueue (types.FlowRemoved flow)) x, None)
                end).1 = Flows x).
  { intros x. destruct (Z.eqb _ _); [done|]. destruct (String.eqb _ _); [done|].
    by destruct (GetOnuByFlowId x _) as [[pi oi]|]. }
  destruct (enablePerf o); [by rewrite Htail|].
  unfold remove_stored. rewrite Hfl.
  destruct (Flows o !! Flow.FlowId flow) as [storedFlow|]; [|done].
  destruct (Z.eqb (Flow.AccessIntfId storedFlow) (-1)); simpl.
  { by rewrite Htail. }
  rewrite Hpon.
  destruct (GetPonById o _) as [[pi pon]|]; [|done].
  destruct (GetOnuById pon _) as [[oi onu]|]; [|done].
  by rewrite Htail.
Qed.

(** X9: what [FlowRemove] does to the flow table.  With [enablePerf] the
    table is not touched.  Without it no other flow is touched, and the
    flow of the request is deleted when the flow stored under its ID is a
    flow of the OLT, or a flow whose PON and ONU are still found on the
    device; when the PON or the ONU is not found the call returns before
    the deletion, and the entry stays. *)
Theorem FlowRemove_flow_table (o : OltDevice.t) (flow : Flow.t) :
  (enablePerf o = true -> Flows (FlowRemove o flow).1 = Flows o)
  /\ (enablePerf o = false ->
      (forall k, k ≠ Flow.FlowId flow ->
                 Flows (FlowRemove o flow).1 !! k = Flows o !! k)
      /\ (forall storedFlow,
            Flows o !! Flow.FlowId flow = Some storedFlow ->
            Flows (FlowRemove o flow).1 !! Flow.FlowId flow =
            if Z.eqb (Flow.AccessIntfId storedFlow) (-1) then None
            else
              match GetPonById o (uint32 (Flow.AccessIntfId storedFlow)) with
              | None => Some storedFlow
              | Some (_, pon) =>
                  match GetOnuById pon (uint32 (Flow.OnuId storedFlow)) with
                  | None => Some storedFlow
                  | Some _ => None
                  end
              end)).
Proof.
  rewrite FlowRemove_Flows. split; intros ->; [done|].
  split.
  - intros k Hk.
    destruct (Flows o !! Flow.FlowId flow) as [storedFlow|]; [|done].
    destruct (Z.eqb _ _); [by rewrite lookup_delete_ne|].
    destruct (GetPonById o _) as [[pi pon]|]; [|done].
    destruct (GetOnuById pon _); [by rewrite lookup_delete_ne|done].
  - intros storedFlow Hs. rewrite Hs.
    destruct (Z.eqb _ _); [by rewrite lookup_delete_eq|].
    destruct (GetPonById o _) as [[pi pon]|]; [|done].
    destruct (GetOnuById pon _); [by rewrite lookup_delete_eq|done].
Qed.

(** X10: a flow for an ONU that is not on the device cannot be taken out
    of the flow table again.  [FlowAdd] puts the flow into the table
    before it looks the ONU up; every later [FlowRemove] for that flow ID
    reports success and leaves the entry where it is. *)
Theorem FlowAdd_unknown_onu_stays (o o1 : OltDevice.t) (flow flow' : Flow.t) r :
  enablePerf o = false ->
  Flow.AccessIntfId flow ≠ -1 ->
  (forall pi pon,
      GetPonById o (uint32 (Flow.AccessIntfId flow)) = Some (pi, pon) ->
      GetOnuById pon (uint32 (Flow.OnuId flow)) = None) ->
  FlowAdd o flow = Some (o1, r) ->
  Flow.FlowId flow' = Flow.FlowId flow ->
  Flows o1 !! Flow.FlowId flow = Some flow
  /\ (FlowRemove o1 flow').2 = None
  /\ Flows (FlowRemove o1 flow').1 !! Flow.FlowId flow = Some flow
  /\ Flows (FlowRemove (FlowRemove o1 flow').1 flow').1 !! Flow.FlowId flow = Some flow.
Proof.
  intros Hperf Hintf Hnot Hadd Hid.
  assert (Ht : target_onu o flow = None).
  { destruct (target_onu o flow) as [[[[pi pon] oi] onu]|] eqn:Ht; [|done].
    apply target_onu_Some in Ht as (_ & _ & Hp & Ho).
    by rewrite (Hnot _ _ Hp) in Ho. }
  apply (FlowAdd_no_target _ _ _ _ Ht) in Hadd. subst o1.
  assert (Hrec : record_flow o flow = set_Flows (<[Flow.FlowId flow := flow]> (Flows o)) o).
  { unfold record_flow. by rewrite Hperf. }
  rewrite Hrec. set (o1 := set_Flows _ o).
  assert (Hfl : Flows o1 !! Flow.FlowId flow = Some flow).
  { subst o1. simpl. by rewrite lookup_insert_eq. }
  assert (Hpon : forall id, GetPonById o1 id = GetPonById o id) by done.
  assert (Hneq : Z.eqb (Flow.AccessIntfId flow) (-1) = false) by (by apply Z.eqb_neq).
  assert (Hrm : FlowRemove o1 flow' = (freeAllocId (freeGemPortId o1 flow') flow', None)).
  { unfold FlowRemove.
    assert (enablePerf (freeAllocId (freeGemPortId o1 flow') flow') = false) as ->
      by (subst o1; simpl; done).
    unfold remove_stored.
    assert (Flows (freeAllocId (freeGemPortId o1 flow') flow') = Flows o1) as -> by done.
    rewrite Hid, Hfl, Hneq. simpl.
    assert (forall id, GetPonById (freeAllocId (freeGemPortId o1 flow') flow') id
                       = GetPonById o id) as -> by done.
    destruct (GetPonById o _) as [[pi pon]|] eqn:Ep; [|done].
    by rewrite (Hnot _ _ eq_refl). }
  split; [done|]. split; [by rewrite Hrm|].
  assert (Hkeep : forall x : OltDevice.t,
             enablePerf x = false -> Flows x !! Flow.FlowId flow = Some flow ->
             (forall id, GetPonById x id = GetPonById o id) ->
             Flows (FlowRemove x flow').1 !! Flow.FlowId flow = Some flow).
  { intros x Hx Hfx Hpx. rewrite FlowRemove_Flows, Hx, Hid, Hfx, Hneq, Hpx.
    destruct (GetPonById o _) as [[pi pon]|] eqn:Ep; [|done].
    by rewrite (Hnot _ _ eq_refl). }
  split; [by apply Hkeep|].
  rewrite Hrm. by apply Hkeep.
Qed.

(** A flow for ONU 9, which PON 0 of [demo_olt] does not have. *)
Lemma FlowAdd_unknown_onu_stays_witness :
  let flow := Flow.mk 0 9 7 "" 100 50 16 false ∅ in
  let o1 := default demo_olt (fst <$> FlowAdd demo_olt flow) in
  Flows o1 !! 7 = Some flow
  /\ (FlowRemove o1 flow).2 = None
  /\ Flows (FlowRemove o1 flow).1 !! 7 = Some flow.
Proof.
  intros flow o1.
  destruct (FlowAdd_unknown_onu_stays demo_olt o1 flow flow
              (Some (ErrCannotFindOnu 0 9)))
    as (H1 & H2 & H3 & _); try done.
  intros pi pon. vm_compute. by intros [= <- <-].
Defined.

(** ** [InitOlt], [RestartOLT] and what follows a reboot *)

(** The loop over [o.Pons] in [InitOlt] writes the two ledgers only. *)
Lemma init_fold_fields (l : list nat) (a : OltDevice.t) :
  let r := foldl (fun o ponId =>
                    let o := set_AllocIDs (<[uint32 (Z.of_nat ponId) := ∅]> (AllocIDs o)) o in
                    set_GemPortIDs (<[uint32 (Z.of_nat ponId) := ∅]> (GemPortIDs o)) o)
                 a l in
  r = set_GemPortIDs (GemPortIDs r) (set_AllocIDs (AllocIDs r) a)
  /\ (forall p,
        AllocIDs r !! p
        = if bool_decide (p ∈ (fun i => uint32 (Z.of_nat i)) <$> l)
          then Some ∅ else AllocIDs a !! p)
  /\ (forall p,
        GemPortIDs r !! p
        = if bool_decide (p ∈ (fun i => uint32 (Z.of_nat i)) <$> l)
          then Some ∅ else GemPortIDs a !! p).
Proof.
  induction l as [|x l IH] using rev_ind; cbv zeta.
  { cbn [foldl]. split; [by destruct a|].
    split; intros p; (rewrite bool_decide_eq_false_2; [done|apply not_elem_of_nil]). }
  rewrite foldl_app. simpl. destruct IH as (Hr & HA & HG).
  set (r := foldl _ a l) in *.
  split; [|split].
  - clearbody r. clear HA HG. destruct a, r.
    unfold set_GemPortIDs, set_AllocIDs in *. simpl in *.
    injection Hr; intros; subst; reflexivity.
  - intros p. simpl. rewrite fmap_app. simpl.
    destruct (decide (p = uint32 (Z.of_nat x))) as [->|Hne].
    + rewrite lookup_insert_eq. rewrite bool_decide_eq_true_2; [done|].
      apply elem_of_app. right. by apply list_elem_of_singleton.
    + rewrite lookup_insert_ne by done. rewrite HA.
      destruct (bool_decide_reflect (p ∈ (fun i => uint32 (Z.of_nat i)) <$> l)) as [Hin|Hin].
      * rewrite bool_decide_eq_true_2; [done|]. apply elem_of_app. by left.
      * rewrite bool_decide_eq_false_2; [done|]. intros H.
        apply elem_of_app in H as [H|H]; [done|].
        by apply list_elem_of_singleton in H.
  - intros p. simpl. rewrite fmap_app. simpl.
    destruct (decide (p = uint32 (Z.of_nat x))) as [->|Hne].
    + rewrite lookup_insert_eq. rewrite bool_decide_eq_true_2; [done|].
      apply elem_of_app. right. by apply list_elem_of_singleton.
    + rewrite lookup_insert_ne by done. rewrite HG.
      destruct (bool_decide_reflect (p ∈ (fun i => uint32 (Z.of_nat i)) <$> l)) as [Hin|Hin].
      * rewrite bool_decide_eq_true_2; [done|]. apply elem_of_app. by left.
      * rewrite bool_decide_eq_false_2; [done|]. intros H.
        apply elem_of_app in H as [H|H]; [done|].
        by apply list_elem_of_singleton in H.
Qed.

(** The keys [InitOlt] writes: the positions of the PONs in the slice. *)
Lemma pon_index_keys (n : nat) (p : Z) :
  p ∈ (fun i => uint32 (Z.of_nat i)) <$> seq 0 n
  <-> exists i, (i < n)%nat /\ p = uint32 (Z.of_nat i).
Proof.
  rewrite list_elem_of_fmap. split.
  - intros (i & -> & Hi). apply elem_of_seq in Hi. exists i. split; [lia|done].
  - intros (i & Hi & ->). exists i. split; [done|]. apply elem_of_seq. lia.
Qed.

(** When [InitOlt] returns, and the device it leaves. *)
Lemma InitOlt_spec (o : OltDevice.t) :
  (is_Some (InitOlt o) <-> OltServer o = false /\ Nnis o ≠ [])
  /\ forall o', InitOlt o = Some o' ->
       OltServer o' = true /\ channel o' = ChanOpen
       /\ (exists nni rest, Nnis o = nni :: rest
                            /\ Nnis o' = NniPort.set_OperState "down" nni :: rest)
       /\ Pons o' = Pons o /\ Flows o' = Flows o
       /\ InternalState o' = InternalState o /\ signature o' = signature o
       /\ (forall p,
             AllocIDs o' !! p
             = if bool_decide (p ∈ (fun i => uint32 (Z.of_nat i))
                                     <$> seq 0 (length (Pons o)))
               then Some ∅ else AllocIDs o !! p)
       /\ (forall p,
             GemPortIDs o' !! p
             = if bool_decide (p ∈ (fun i => uint32 (Z.of_nat i))
                                     <$> seq 0 (length (Pons o)))
               then Some ∅ else GemPortIDs o !! p).
Proof.
  unfold InitOlt. destruct (OltServer o) eqn:Es.
  { split; [|done]. split; [by intros [? ?]|by intros [? _]]. }
  destruct (Nnis (set_channel ChanOpen (set_OltServer true o))) as [|nni rest] eqn:En;
    assert (En' : Nnis o = Nnis (set_channel ChanOpen (set_OltServer true o))) by done;
    rewrite En in En'.
  { split; [|done]. split; [by intros [? ?]|]. intros [_ H]. by rewrite En' in H. }
  cbv zeta. split.
  { split; [intros _|by eauto]. split; [done|]. by rewrite En'. }
  intros o' [= <-].
  match goal with |- context [foldl ?f ?a ?l] =>
    pose proof (init_fold_fields l a) as Hf; cbv zeta in Hf;
    change (foldl _ a l) with (foldl f a l) in Hf;
    destruct Hf as (Hr & HA & HG) end.
  rewrite Hr. simpl.
  split; [done|]. split; [done|]. split; [by exists nni, rest|].
  repeat split; done.
Qed.

(** X11: when [InitOlt] returns and what it leaves.  It ends the process
    when the gRPC server is already there and when the device has no
    NNI.  Otherwise the server and a fresh channel are in place, the
    first NNI is down, and both ledgers hold an empty level for every
    position of a PON in [Pons]; the levels of other keys are kept. *)
Theorem InitOlt_result (o : OltDevice.t) :
  (is_Some (InitOlt o) <-> OltServer o = false /\ Nnis o ≠ [])
  /\ forall o', InitOlt o = Some o' ->
       OltServer o' = true /\ channel o' = ChanOpen
       /\ (exists nni rest, Nnis o = nni :: rest
                            /\ Nnis o' = NniPort.set_OperState "down" nni :: rest)
       /\ Pons o' = Pons o /\ Flows o' = Flows o
       /\ InternalState o' = InternalState o /\ signature o' = signature o
       /\ (forall p,
             AllocIDs o' !! p
             = if bool_decide (p ∈ (fun i => uint32 (Z.of_nat i))
                                     <$> seq 0 (length (Pons o)))
               then Some ∅ else AllocIDs o !! p)
       /\ (forall p,
             GemPortIDs o' !! p
             = if bool_decide (p ∈ (fun i => uint32 (Z.of_nat i))
                                     <$> seq 0 (length (Pons o)))
               then Some ∅ else GemPortIDs o !! p).
Proof. apply InitOlt_spec. Qed.

Section Rebooted.

Variable onuInternalStateEvent : Onu.t -> string -> Onu.t.

Lemma StopOltServer_eq (o : OltDevice.t) : StopOltServer o = set_OltServer false o.
Proof. unfold StopOltServer. destruct o as [[] ? ? ? ? ? ? ? ? ? ? ? ? ? ? ?]; reflexivity. Qed.

(** [RestartOLT] written out. *)
Lemma RestartOLT_eq (now : Z) (o : OltDevice.t) :
  RestartOLT onuInternalStateEvent now o =
  match declared_transition (InternalState o) "delete" with
  | None =>
      Some (set_PreviouslyConnected false o,
            (fsm.Event OltInternalEvents (InternalState o) "delete").2)
  | Some _ =>
      match channel o, enableContext o with
      | ChanOpen, (CtxLive | CtxCanceled) =>
          (fun o' => (o', None)) <$>
          InitOlt (OltDevice.mk false (NniSpeed o) "initialized" (OperState o) ChanClosed
                     (Flows o) false (disable_onus onuInternalStateEvent (Pons o))
                     (Nnis o) CtxCanceled (OpenoltStream o) (enablePerf o) ∅ ∅
                     (uint32 now) (published o))
      | _, _ => None
      end
  end.
Proof.
  unfold RestartOLT. cbv zeta. unfold InternalState_Event at 1.
  rewrite fsm_Event_olt. simpl InternalState.
  change OltInternalTxDelete with "delete".
  destruct (declared_transition (InternalState o) "delete") as [dst|] eqn:E.
  2:{ by rewrite fsm_Event_olt, E. }
  pose proof (declared_transition_dst _ _ _ E) as Hd.
  assert (dst = "deleted") as -> by intuition congruence.
  destruct (String.eqb (InternalState o) OltInternalStateEnabled);
    cbn -[StopOltServer InitOlt]; rewrite StopOltServer_eq; simpl.
  all: destruct (channel o); try done.
  all: destruct (enableContext o); try done.
  all: unfold InternalState_Event; rewrite fsm_Event_olt; simpl.
  all: match goal with |- _ = _ <$> InitOlt ?b =>
         match goal with |- context [InitOlt ?a] =>
           change a with b; by destruct (InitOlt b)
         end
       end.
Qed.

(** X12: a soft reboot and a hard reboot are the same reboot: started on
    the enabled device or on the disabled one, [RestartOLT] returns the
    same result and leaves the same device. *)
Theorem RestartOLT_soft_is_hard (now : Z) (o : OltDevice.t) :
  RestartOLT onuInternalStateEvent now (set_InternalState OltInternalStateEnabled o)
  = RestartOLT onuInternalStateEvent now (set_InternalState OltInternalStateDisabled o).
Proof. by rewrite !RestartOLT_eq. Qed.

(** The device after a reboot that has run to its end. *)
Lemma RestartOLT_done (now : Z) (o o' : OltDevice.t) :
  RestartOLT onuInternalStateEvent now o = Some (o', None) ->
  (InternalState o = "enabled" \/ InternalState o = "disabled")
  /\ channel o = ChanOpen /\ enableContext o ≠ CtxNil
  /\ InternalState o' = "initialized" /\ OltServer o' = true
  /\ channel o' = ChanOpen /\ enableContext o' = CtxCanceled
  /\ PreviouslyConnected o' = false /\ signature o' = uint32 now
  /\ Flows o' = Flows o /\ Pons o' = disable_onus onuInternalStateEvent (Pons o)
  /\ (exists nni rest, Nnis o = nni :: rest
                       /\ Nnis o' = NniPort.set_OperState "down" nni :: rest)
  /\ (forall p,
        AllocIDs o' !! p
        = if bool_decide (p ∈ (fun i => uint32 (Z.of_nat i)) <$> seq 0 (length (Pons o)))
          then Some ∅ else None)
  /\ (forall p,
        GemPortIDs o' !! p
        = if bool_decide (p ∈ (fun i => uint32 (Z.of_nat i)) <$> seq 0 (length (Pons o)))
          then Some ∅ else None).
Proof.
  rewrite RestartOLT_eq.
  destruct (declared_transition (InternalState o) "delete") as [dst|] eqn:E.
  2:{ rewrite fsm_Event_olt, E. simpl. done. }
  assert (Hst : InternalState o = "enabled" \/ InternalState o = "disabled").
  { rewrite declared_delete in E.
    destruct (String.eqb_spec (InternalState o) "disabled"); [by right|].
    destruct (String.eqb_spec (InternalState o) "enabled"); [by left|done]. }
  destruct (channel o) eqn:Ec; try done.
  destruct (enableContext o) eqn:Ex; try done.
  all: match goal with |- context [InitOlt ?a] =>
         destruct (InitOlt a) as [o6|] eqn:Ei; [|done];
         destruct (InitOlt_spec a) as [_ Hres];
         destruct (Hres _ Ei) as (H1 & H2 & (nni & rest & H3 & H3') & H4 & H5 & H6 & H7 & H8 & H9)
       end.
  all: simpl in *; intros [= <-].
  all: assert (Hlen : length (disable_onus onuInternalStateEvent (Pons o)) = length (Pons o))
         by (unfold disable_onus; by rewrite length_fmap).
  all: rewrite Hlen in H8, H9.
  all: assert (PreviouslyConnected o6 = false /\ enableContext o6 = CtxCanceled) as [Hp Hc].
  all: try (clear -Ei; unfold InitOlt in Ei; simpl in Ei;
            destruct (Nnis o) as [|n l]; [done|]; cbv zeta in Ei; injection Ei as <-;
            match goal with |- context [foldl ?f ?a ?l] =>
              pose proof (init_fold_fields l a) as Hf; cbv zeta in Hf;
              change (foldl _ a l) with (foldl f a l) in Hf;
              destruct Hf as (Hr & _) end;
            by rewrite Hr).
  all: repeat split; try done; try (by eauto).
Qed.

(** X13: when a reboot runs to its end, and the device it leaves.  The
    delete transition must be declared for the state (enabled or
    disabled), the channel must be open and the cancel function of the
    enable context set, and the device needs an NNI; any other start
    ends in the error of the state machine or ends the process.  The
    reboot leaves the device initialized with a new server and channel,
    the enable context cancelled, PreviouslyConnected cleared, every ONU
    sent the disable event, and both ledgers empty with one level per
    PON position.  The flow table is not cleared. *)
Theorem RestartOLT_completes (now : Z) (o : OltDevice.t) :
  ((exists o', RestartOLT onuInternalStateEvent now o = Some (o', None))
   <-> (InternalState o = "enabled" \/ InternalState o = "disabled")
       /\ channel o = ChanOpen /\ enableContext o ≠ CtxNil /\ Nnis o ≠ [])
  /\ forall o', RestartOLT onuInternalStateEvent now o = Some (o', None) ->
       InternalState o' = "initialized" /\ OltServer o' = true
       /\ channel o' = ChanOpen /\ enableContext o' = CtxCanceled
       /\ PreviouslyConnected o' = false /\ signature o' = uint32 now
       /\ Flows o' = Flows o
       /\ Pons o' = disable_onus onuInternalStateEvent (Pons o)
       /\ (forall p,
             AllocIDs o' !! p
             = if bool_decide (p ∈ (fun i => uint32 (Z.of_nat i))
                                     <$> seq 0 (length (Pons o)))
               then Some ∅ else None)
       /\ (forall p,
             GemPortIDs o' !! p
             = if bool_decide (p ∈ (fun i => uint32 (Z.of_nat i))
                                     <$> seq 0 (length (Pons o)))
               then Some ∅ else None).
Proof.
  split.
  - split.
    + intros [o' H]. apply RestartOLT_done in H
        as (H1 & H2 & H3 & _ & _ & _ & _ & _ & _ & _ & _ & (nni & rest & Hn & _) & _).
      repeat split; try done. by rewrite Hn.
    + intros (Hst & Hc & Hx & Hn). rewrite RestartOLT_eq, declared_delete.
      assert (String.eqb (InternalState o) "disabled"
              || String.eqb (InternalState o) "enabled" = true) as ->.
      { destruct Hst as [-> | ->]; done. }
      rewrite Hc.
      destruct (enableContext o); [done| |];
        match goal with |- context [InitOlt ?a] =>
          destruct (proj1 (InitOlt_spec a)) as [_ Hi];
          destruct Hi as [o6 ->]; [by split|]; simpl; by eauto
        end.
  - intros o' H. apply RestartOLT_done in H. intuition.
Qed.

(** X14: between a reboot and the activation of an ONU, a flow for that
    ONU that passes the state check ends the process: the ledgers have
    no level for the ONU, and the first store writes into the nil map. *)
Theorem FlowAdd_after_reboot (now : Z) (o o' : OltDevice.t) (flow : Flow.t)
    pi pon oi onu :
  RestartOLT onuInternalStateEvent now o = Some (o', None) ->
  target_onu o' flow = Some (pi, pon, oi, onu) ->
  onu_rejects_flows onu = false ->
  FlowAdd o' flow = None.
Proof.
  intros Hr Ht Hrej.
  apply RestartOLT_done in Hr
    as (_ & _ & _ & _ & _ & _ & _ & _ & _ & _ & _ & _ & HA & HG).
  assert (Hempty : forall (L : Ledger) n,
             (forall p, L !! p = if bool_decide (p ∈ (fun i => uint32 (Z.of_nat i))
                                                    <$> seq 0 n)
                                 then Some ∅ else None) ->
             ledger_empty L).
  { intros L n HL p onus Hp. rewrite HL in Hp. by case_bool_decide; simplify_eq. }
  pose proof (Hempty _ _ HA) as HeA. pose proof (Hempty _ _ HG) as HeG.
  apply FlowAdd_None_iff.
  pose proof Ht as Ht'. apply target_onu_Some in Ht' as (E1 & E2 & _).
  split; [done|]. split; [done|]. right.
  split; [by eauto 10|].
  assert (Hno : forall (L : Ledger), ledger_empty L ->
             forall p u, ledger_onu L p u = None).
  { intros L HL p u. unfold ledger_onu.
    destruct (L !! p) as [onus|] eqn:Ep; simpl; [|done].
    by rewrite (HL _ _ Ep). }
  split.
  - apply validateFlow_None. split; intros u port g flows _ E;
      apply ledger_empty_no_entries in HeA, HeG;
      rewrite no_entries_lookup in HeA, HeG; by rewrite ?HeA, ?HeG in E.
  - left. by apply Hno.
Qed.

End Rebooted.

(** A reboot of [demo_olt] with ONUs that ignore their events, and a flow
    for ONU 1. *)
Lemma FlowAdd_after_reboot_witness :
  exists o',
    RestartOLT demo_onuEvent_idle 1700000060 demo_olt = Some (o', None)
    /\ FlowAdd o' demo_flow1 = None.
Proof.
  eexists. split; [by vm_compute|].
  eapply (FlowAdd_after_reboot demo_onuEvent_idle 1700000060 demo_olt);
    [by vm_compute|by vm_compute|by vm_compute].
Defined.

Section Activated.

Variable onuInternalStateEvent : Onu.t -> string -> Onu.t.


End Activated.


(** X16: [PreviouslyConnected] as the controller sees it.  [GetDeviceInfo]
    reports the flag as it was and sets it; a reboot clears it whether it
    runs to its end or stops on the state machine.  So the first
    [GetDeviceInfo] after a reboot reports false and the next one true. *)
Theorem GetDeviceInfo_after_reboot (ev : Onu.t -> string -> Onu.t) (now : Z)
    (o o' : OltDevice.t) (r : option fsm.Error) :
  RestartOLT ev now o = Some (o', r) ->
  (GetDeviceInfo o').2 = false
  /\ (GetDeviceInfo (GetDeviceInfo o').1).2 = true
  /\ AllocIDs (GetDeviceInfo o').1 = AllocIDs o'
  /\ GemPortIDs (GetDeviceInfo o').1 = GemPortIDs o'
  /\ InternalState (GetDeviceInfo o').1 = InternalState o'.
Proof.
  intros H. unfold GetDeviceInfo. simpl. repeat split; try done.
  destruct r as [err|].
  - rewrite RestartOLT_eq in H.
    destruct (declared_transition (InternalState o) "delete").
    + destruct (channel o); try done. destruct (enableContext o); try done.
      all: match type of H with context [InitOlt ?a] => by destruct (InitOlt a) end.
    + by injection H as <- _.
  - by apply RestartOLT_done in H as (_ & _ & _ & _ & _ & _ & _ & ? & _).
Qed.

Lemma GetDeviceInfo_after_reboot_witness :
  exists o',
    RestartOLT demo_onuEvent 1700000060 demo_olt = Some (o', None)
    /\ (GetDeviceInfo o').2 = false
    /\ (GetDeviceInfo (GetDeviceInfo o').1).2 = true.
Proof.
  eexists. split; [by vm_compute|].
  destruct (GetDeviceInfo_after_reboot demo_onuEvent 1700000060 demo_olt _ None
              ltac:(by vm_compute)) as (H1 & H2 & _).
  by split.
Defined.

(** ** The indication loop and the handlers that feed it *)

Lemma loop_frame_refl (o : OltDevice.t) : loop_frame o o.
Proof. by repeat split. Qed.

Lemma loop_frame_trans (o1 o2 o3 : OltDevice.t) :
  loop_frame o1 o2 -> loop_frame o2 o3 -> loop_frame o1 o3.
Proof.
  unfold loop_frame. intros H1 H2.
  destruct H1 as (?&?&?&?&?&?&?&?&?&?&?&?&?).
  destruct H2 as (?&?&?&?&?&?&?&?&?&?&?&?&?).
  repeat split; congruence.
Qed.

Lemma send_frame (ind : Indication) (o : OltDevice.t) :
  loop_frame o (send ind o) /\ InternalState (send ind o) = InternalState o.
Proof. by repeat split. Qed.

Lemma send_each_frame (inds : list Indication) (o : OltDevice.t) :
  loop_frame o (send_each inds o) /\ InternalState (send_each inds o) = InternalState o.
Proof.
  unfold send_each. revert o. induction inds as [|ind inds IH]; intros o; simpl.
  - split; [apply loop_frame_refl|done].
  - destruct (IH (send ind o)) as [H1 H2]. destruct (send_frame ind o) as [H3 H4].
    split; [by eapply loop_frame_trans|congruence].
Qed.

(** The two events of the loop on the InternalState machine. *)
Lemma InternalState_Event_loop_eq (o : OltDevice.t) (st : types.OperState) :
  InternalState_Event o (olt_event_of st) =
  match st with
  | types.UP =>
      if String.eqb (InternalState o) "initialized"
         || String.eqb (InternalState o) "disabled"
      then Some (set_InternalState "enabled" o, None)
      else Some (o, Some (fsm.InvalidEventError "enable" (InternalState o)))
  | types.DOWN =>
      if String.eqb (InternalState o) "enabled"
      then Some (set_InternalState "disabled" o, None)
      else Some (o, Some (fsm.InvalidEventError "disable" (InternalState o)))
  end.
Proof.
  unfold InternalState_Event. rewrite fsm_Event_olt.
  destruct st; unfold declared_transition, olt_event_of; simpl.
  - by destruct (String.eqb (InternalState o) "initialized"
                 || String.eqb (InternalState o) "disabled").
  - by destruct (String.eqb (InternalState o) "enabled").
Qed.

Section LoopFrame.

Variable ponOperStateEvent : PonPort.t -> string -> PonPort.t * list Indication.
Variable ponInternalStateEvent : PonPort.t -> string -> PonPort.t * list Indication.

Lemma handleMessage_frame (o o' : OltDevice.t) (message : types.Message) :
  handleMessage ponOperStateEvent ponInternalStateEvent o message = Some o' ->
  loop_frame o o'
  /\ match message with
     | types.OltIndication types.UP =>
         InternalState o' =
         if String.eqb (InternalState o) "initialized"
            || String.eqb (InternalState o) "disabled"
         then "enabled" else InternalState o
     | types.OltIndication types.DOWN =>
         InternalState o' =
         if String.eqb (InternalState o) "enabled" then "disabled" else InternalState o
     | _ => InternalState o' = InternalState o
     end.
Proof.
  destruct message as [st|st id|st id|alarm|p u f|f|ty]; simpl.
  - pose proof (InternalState_Event_loop_eq o st) as He.
    unfold olt_event_of in He. rewrite He.
    destruct st.
    + destruct (String.eqb (InternalState o) "initialized"
                || String.eqb (InternalState o) "disabled"); intros [= <-]; by repeat split.
    + destruct (String.eqb (InternalState o) "enabled"); intros [= <-]; by repeat split.
  - unfold sendNniIndication. destruct (getNniById o id) as [[i nni]|]; [|done].
    intros [= <-]. split; [|done]. repeat split; try done.
    simpl. by rewrite length_insert.
  - destruct (GetPonById o id) as [[pi pon]|]; [|done].
    destruct (ponOperStateEvent pon _) as [pon1 inds1].
    destruct (ponInternalStateEvent pon1 _) as [pon2 inds2].
    intros [= <-].
    match goal with |- context [send_each ?i ?x] =>
      destruct (send_each_frame i x) as [H1 H2] end.
    split; [|by rewrite H2].
    eapply loop_frame_trans; [|exact H1].
    repeat split; try done. simpl. by rewrite length_insert.
  - intros [= <-]. by repeat split.
  - intros [= <-]. by repeat split.
  - intros [= <-]. by repeat split.
  - intros [= <-]. by repeat split.
Qed.

Lemma processOltMessages_frame (events : list ChanEvent) :
  forall o o' rest,
  processOltMessages ponOperStateEvent ponInternalStateEvent o events = Some (o', rest) ->
  loop_frame o o'
  /\ (InternalState o' = InternalState o
      \/ InternalState o' = "enabled" \/ InternalState o' = "disabled").
Proof.
  induction events as [|[m| |] events IH]; intros o o' rest; simpl.
  - intros [= <- _]. split; [apply loop_frame_refl|by left].
  - destruct (handleMessage _ _ o m) as [o1|] eqn:Hm; [|done].
    intros H. destruct (IH _ _ _ H) as [Hf Hs].
    destruct (handleMessage_frame _ _ _ Hm) as [Hf1 Hs1].
    split; [by eapply loop_frame_trans|].
    assert (InternalState o1 = InternalState o \/ InternalState o1 = "enabled"
            \/ InternalState o1 = "disabled") as Hs1'.
    { destruct m as [[]| | | | | |]; try (by left).
      - destruct (_ || _); [right; by left|by left].
      - destruct (String.eqb _ _); [right; by right|by left]. }
    destruct Hs as [Hs|Hs]; [rewrite Hs; exact Hs1'|by right].
  - intros [= <- _]. split; [apply loop_frame_refl|by left].
  - intros [= <- _]. split; [apply loop_frame_refl|by left].
Qed.

(** X17: the indication loop leaves the ledgers, the flow table, the
    heartbeat signature, the channel, the server and the record of
    published events as they are, whatever messages it is given and
    whatever the PON machines do; it changes neither the number of PONs
    nor of NNIs, and the InternalState of the OLT only ever moves to
    enabled or disabled. *)
Theorem processOltMessages_keeps (o o' : OltDevice.t) (events rest : list ChanEvent) :
  processOltMessages ponOperStateEvent ponInternalStateEvent o events = Some (o', rest) ->
  loop_frame o o'
  /\ (InternalState o' = InternalState o
      \/ InternalState o' = "enabled" \/ InternalState o' = "disabled").
Proof. apply processOltMessages_frame. Qed.

End LoopFrame.

Lemma processOltMessages_keeps_witness :
  exists o',
    processOltMessages demo_ponOperStateEvent demo_ponInternalStateEvent
      demo_olt_disabled (received demo_messages) = Some (o', [])
    /\ loop_frame demo_olt_disabled o' /\ InternalState o' = "enabled".
Proof.
  eexists. split; [by vm_compute|].
  split; [|by vm_compute].
  eapply (processOltMessages_keeps demo_ponOperStateEvent demo_ponInternalStateEvent
            demo_olt_disabled _ (received demo_messages) []).
  by vm_compute.
Defined.

Section AlarmsToStream.

Variable InterfaceIDToPortNo : Z -> string -> Z.
Variable ponOperStateEvent : PonPort.t -> string -> PonPort.t * list Indication.
Variable ponInternalStateEvent : PonPort.t -> string -> PonPort.t * list Indication.

(** X18: an alarm from [SetAlarm] to the stream.  For the interface type
    nni or pon an interface that the device does not have gives the
    NotFound status and nothing is sent; interfaces of any other type are
    not checked.  Otherwise exactly one message goes to the loop, and the
    loop, in whatever state it finds the device, puts one alarm
    indication on the stream that carries the port number of the
    interface and the status string as given; on a channel that is not
    open the handler does not return. *)
Theorem SetAlarm_to_stream (o : OltDevice.t) (interfaceId : Z)
    (interfaceType alarmStatus : string) :
  let known :=
    if String.eqb interfaceType "nni" then HasNni o interfaceId
    else if String.eqb interfaceType "pon" then HasPon o interfaceId
    else true in
  let alarm := {| LosInd_IntfId := InterfaceIDToPortNo interfaceId interfaceType;
                  LosInd_Status := alarmStatus |} in
  (known = false ->
   exists msg, SetAlarm InterfaceIDToPortNo o interfaceId interfaceType alarmStatus
               = Some (Some (ErrStatusNotFound msg), []))
  /\ (known = true -> channel o ≠ ChanOpen ->
      SetAlarm InterfaceIDToPortNo o interfaceId interfaceType alarmStatus = None)
  /\ (known = true -> channel o = ChanOpen ->
      SetAlarm InterfaceIDToPortNo o interfaceId interfaceType alarmStatus
      = Some (None, [types.AlarmIndication alarm])
      /\ forall o1 : OltDevice.t,
           exists o2,
             processOltMessages ponOperStateEvent ponInternalStateEvent o1
               (received [types.AlarmIndication alarm]) = Some (o2, [])
             /\ sent (OpenoltStream o2)
                = sent (OpenoltStream o1)
                  ++ (if broken (OpenoltStream o1) then []
                      else [Indication_AlarmInd alarm])
             /\ loop_frame o1 o2 /\ InternalState o2 = InternalState o1).
Proof.
  cbv zeta. unfold SetAlarm, channel_send.
  destruct (String.eqb interfaceType "nni").
  { destruct (HasNni o interfaceId); simpl.
    - split; [done|]. split.
      + intros _ Hc. by destruct (channel o).
      + intros _ ->. split; [done|]. intros o1. eexists. split; [reflexivity|].
        unfold sendAlarmIndication.
        destruct (send_stream (Indication_AlarmInd
          {| LosInd_IntfId := InterfaceIDToPortNo interfaceId interfaceType;
             LosInd_Status := alarmStatus |}) o1) as (S1 & _).
        split; [exact S1|]. apply send_frame.
    - split; [by eauto|]. by split. }
  destruct (String.eqb interfaceType "pon").
  { destruct (HasPon o interfaceId); simpl.
    - split; [done|]. split.
      + intros _ Hc. by destruct (channel o).
      + intros _ ->. split; [done|]. intros o1. eexists. split; [reflexivity|].
        unfold sendAlarmIndication.
        destruct (send_stream (Indication_AlarmInd
          {| LosInd_IntfId := InterfaceIDToPortNo interfaceId interfaceType;
             LosInd_Status := alarmStatus |}) o1) as (S1 & _).
        split; [exact S1|]. apply send_frame.
    - split; [by eauto|]. by split. }
  simpl. split; [done|]. split.
  - intros _ Hc. by destruct (channel o).
  - intros _ ->. split; [done|]. intros o1. eexists. split; [reflexivity|].
    unfold sendAlarmIndication.
    destruct (send_stream (Indication_AlarmInd
      {| LosInd_IntfId := InterfaceIDToPortNo interfaceId interfaceType;
         LosInd_Status := alarmStatus |}) o1) as (S1 & _).
    split; [exact S1|]. apply send_frame.
Qed.

End AlarmsToStream.

(** An alarm on PON 0 of [demo_olt], one on the PON 7 it does not have,
    and one on an interface of a type that is not checked. *)
Example SetAlarm_demo :
  SetAlarm demo_InterfaceIDToPortNo demo_olt 0 "pon" "on"
  = Some (None, [types.AlarmIndication
                   {| LosInd_IntfId := 2 ^ 29; LosInd_Status := "on" |}])
  /\ SetAlarm demo_InterfaceIDToPortNo demo_olt 7 "pon" "on"
     = Some (Some (ErrStatusNotFound "7 PON not present in olt"), [])
  /\ SetAlarm demo_InterfaceIDToPortNo demo_olt 7 "onu" "on"
     = Some (None, [types.AlarmIndication
                      {| LosInd_IntfId := 7; LosInd_Status := "on" |}]).
Proof. by vm_compute. Qed.

(** ** [DisableOlt] and [ReenableOlt] *)

Lemma send_pons_None (o : OltDevice.t) state st (l : list PonPort.t) :
  foldl (fun acc pon =>
           match acc with
           | None => None
           | Some out =>
               if String.eqb (PonPort.InternalState pon) state
               then channel_send o (types.PonIndication st (PonPort.ID pon)) out
               else Some out
           end) None l = None.
Proof. by induction l. Qed.

Lemma pon_indications_cons state st (pon : PonPort.t) (l : list PonPort.t) :
  pon_indications state st (pon :: l)
  = (if String.eqb (PonPort.InternalState pon) state
     then [types.PonIndication st (PonPort.ID pon)] else [])
    ++ pon_indications state st l.
Proof.
  unfold pon_indications.
  destruct (String.eqb_spec (PonPort.InternalState pon) state) as [E|E].
  - by rewrite filter_cons_True.
  - by rewrite filter_cons_False.
Qed.

(** The sends of the loop over the PONs, all at once. *)
Lemma send_pons_eq (o : OltDevice.t) state st (out : list types.Message) :
  send_pons o state st out =
  match channel o with
  | ChanOpen => Some (out ++ pon_indications state st (Pons o))
  | _ => if decide (pon_indications state st (Pons o) = []) then Some out else None
  end.
Proof.
  unfold send_pons. generalize (Pons o) as l. intros l. revert out.
  induction l as [|pon l IH]; intros out.
  - simpl. rewrite app_nil_r. by destruct (channel o).
  - rewrite pon_indications_cons. cbn [foldl].
    destruct (String.eqb (PonPort.InternalState pon) state).
    + unfold channel_send at 2.
      destruct (channel o) eqn:Ec.
      * by rewrite send_pons_None.
      * rewrite IH. rewrite ?Ec. by rewrite <- app_assoc.
      * by rewrite send_pons_None.
    + rewrite IH. done.
Qed.

Lemma DisableOlt_eq (o : OltDevice.t) :
  DisableOlt o =
  match channel o with
  | ChanOpen =>
      Some (publishEvent "OLT-disable-received" (-1) (-1) "" o,
            pon_indications "enabled" types.DOWN (Pons o)
              ++ [types.OltIndication types.DOWN])
  | _ => None
  end.
Proof.
  unfold DisableOlt. cbv zeta. rewrite send_pons_eq. unfold channel_send.
  assert (forall a b c d x, channel (publishEvent a b c d x) = channel x) as Hc by done.
  assert (forall a b c d x, Pons (publishEvent a b c d x) = Pons x) as Hp by done.
  rewrite !Hc, !Hp.
  destruct (channel o); try done.
  all: by destruct (decide _).
Qed.

Lemma ReenableOlt_eq (o : OltDevice.t) :
  ReenableOlt o =
  match channel o with
  | ChanOpen =>
      Some (publishEvent "OLT-reenable-received" (-1) (-1) "" o,
            types.OltIndication types.UP
              :: pon_indications "disabled" types.UP (Pons o))
  | _ => None
  end.
Proof.
  unfold ReenableOlt. cbv zeta. unfold channel_send.
  assert (forall a b c d x, channel (publishEvent a b c d x) = channel x) as Hc by done.
  assert (forall a b c d x, Pons (publishEvent a b c d x) = Pons x) as Hp by done.
  rewrite !Hc.
  destruct (channel o) eqn:Ec; try done.
  by rewrite send_pons_eq, Hc, Hp, Ec.
Qed.

Lemma pon_indications_addressed (o : OltDevice.t) state st (l : list PonPort.t) :
  l ⊆ Pons o ->
  forallb (addressed o) (pon_indications state st l) = true.
Proof.
  intros Hl. apply forallb_forall. intros m Hm.
  apply list_elem_of_In in Hm. unfold pon_indications in Hm.
  apply list_elem_of_fmap in Hm as (pon & -> & Hin).
  apply list_elem_of_filter in Hin as [_ Hin].
  simpl. unfold HasPon. rewrite existsb_ids.
  apply bool_decide_eq_true_2. apply list_elem_of_fmap.
  exists pon. split; [done|]. by apply Hl.
Qed.

Section Handlers.

Variable ponOperStateEvent : PonPort.t -> string -> PonPort.t * list Indication.
Variable ponInternalStateEvent : PonPort.t -> string -> PonPort.t * list Indication.

Hypothesis ponOperStateEvent_ID :
  forall pon event, PonPort.ID (ponOperStateEvent pon event).1 = PonPort.ID pon.
Hypothesis ponInternalStateEvent_ID :
  forall pon event, PonPort.ID (ponInternalStateEvent pon event).1 = PonPort.ID pon.

(** The loop on PON indications whose PONs exist. *)
Lemma loop_pon_indications (msgs : list types.Message) :
  forall o : OltDevice.t,
  forallb (addressed o) msgs = true ->
  forallb is_pon_indication msgs = true ->
  exists o',
    processOltMessages ponOperStateEvent ponInternalStateEvent o (received msgs)
    = Some (o', [])
    /\ loop_frame o o' /\ InternalState o' = InternalState o
    /\ broken (OpenoltStream o') = broken (OpenoltStream o)
    /\ exists chunk, sent (OpenoltStream o') = sent (OpenoltStream o) ++ chunk.
Proof.
  induction msgs as [|m msgs IH]; intros o Ha Hp; simpl.
  - exists o. split; [done|]. split; [apply loop_frame_refl|]. split; [done|].
    split; [done|]. exists []. by rewrite app_nil_r.
  - simpl in Ha, Hp. apply andb_true_iff in Ha as [Hm Ha].
    apply andb_true_iff in Hp as [Hpm Hp].
    destruct (handleMessage_stream ponOperStateEvent ponInternalStateEvent
                ponOperStateEvent_ID ponInternalStateEvent_ID o m Hm)
      as (o1 & chunk & Hh & _ & Hs & Hb & HP & HN).
    rewrite Hh.
    destruct (handleMessage_frame _ _ _ _ _ Hh) as [Hf1 Hs1].
    assert (InternalState o1 = InternalState o) as Hst by (by destruct m).
    destruct (IH o1) as (o' & Hrun & Hf & Hst' & Hb' & chunk' & Hs'); [|done|].
    { apply forallb_forall. intros m' Hin.
      rewrite (addressed_ids o o1 m' HP HN).
      by apply (proj1 (forallb_forall _ _) Ha). }
    exists o'. split; [done|]. split; [by eapply loop_frame_trans|].
    split; [congruence|]. split; [congruence|].
    exists (chunk ++ chunk'). by rewrite Hs', Hs, app_assoc.
Qed.

Lemma processOltMessages_app (a b : list types.Message) :
  forall (o o1 : OltDevice.t),
  processOltMessages ponOperStateEvent ponInternalStateEvent o (received a)
  = Some (o1, []) ->
  processOltMessages ponOperStateEvent ponInternalStateEvent o (received (a ++ b))
  = processOltMessages ponOperStateEvent ponInternalStateEvent o1 (received b).
Proof.
  induction a as [|m a IH]; intros o o1; simpl.
  - by intros [= <-].
  - destruct (handleMessage _ _ o m) as [o'|]; [|done]. apply IH.
Qed.

(** X19: [DisableOlt] with the loop running.  The handler returns when the
    channel is open.  It hands the loop one PON-down message for every
    PON whose InternalState is enabled, in the order of [Pons], and
    then one OLT-down message; no NNI message is sent.  The loop takes
    them all; afterwards an enabled OLT is disabled (in any other state
    the InternalState stays), the indication that went last on a working
    stream is the OLT-down indication, and the ledgers and the flow table
    are as before. *)
Theorem DisableOlt_then_loop (o o1 : OltDevice.t) (msgs : list types.Message) :
  DisableOlt o = Some (o1, msgs) ->
  channel o = ChanOpen
  /\ msgs = pon_indications "enabled" types.DOWN (Pons o)
            ++ [types.OltIndication types.DOWN]
  /\ exists o2,
       processOltMessages ponOperStateEvent ponInternalStateEvent o1 (received msgs)
       = Some (o2, [])
       /\ InternalState o2
          = (if String.eqb (InternalState o) "enabled" then "disabled"
             else InternalState o)
       /\ (broken (OpenoltStream o) = false ->
           last (sent (OpenoltStream o2)) = Some (Indication_OltInd "down"))
       /\ loop_frame o1 o2.
Proof.
  rewrite DisableOlt_eq. destruct (channel o) eqn:Ec; try done.
  intros [= <- <-]. split; [done|]. split; [done|].
  set (o1 := publishEvent _ _ _ _ o).
  destruct (loop_pon_indications (pon_indications "enabled" types.DOWN (Pons o)) o1)
    as (o' & Hrun & Hf & Hst & Hb & chunk & Hs).
  { by apply pon_indications_addressed. }
  { apply forallb_forall. intros m Hm. apply list_elem_of_In in Hm.
    unfold pon_indications in Hm. by apply list_elem_of_fmap in Hm as (pon & -> & _). }
  rewrite (processOltMessages_app _ _ _ _ Hrun).
  destruct (handleMessage_stream ponOperStateEvent ponInternalStateEvent
              ponOperStateEvent_ID ponInternalStateEvent_ID o'
              (types.OltIndication types.DOWN) eq_refl)
    as (o2 & chunk2 & Hh & Hc & Hs2 & _).
  destruct (handleMessage_frame _ _ _ _ _ Hh) as [Hf2 Hst2].
  exists o2. cbn [received fmap list_fmap processOltMessages]. rewrite Hh.
  split; [done|]. split; [by rewrite Hst2, Hst|].
  split; [|by eapply loop_frame_trans].
  intros Hbr. unfold corresponds in Hc.
  assert (broken (OpenoltStream o1) = false) as Hbr1 by done.
  rewrite Hb, Hbr1 in Hc. subst chunk2. rewrite Hs2. by rewrite last_snoc.
Qed.

(** X20: [ReenableOlt] with the loop running.  The handler returns when
    the channel is open.  It hands the loop the OLT-up message first and
    then one PON-up message for every PON whose InternalState is
    disabled, in the order of [Pons].  The loop takes them all;
    afterwards an OLT that was disabled or initialized is enabled (in any
    other state the InternalState stays), and the ledgers and the flow
    table are as before. *)
Theorem ReenableOlt_then_loop (o o1 : OltDevice.t) (msgs : list types.Message) :
  ReenableOlt o = Some (o1, msgs) ->
  channel o = ChanOpen
  /\ msgs = types.OltIndication types.UP
              :: pon_indications "disabled" types.UP (Pons o)
  /\ exists o2,
       processOltMessages ponOperStateEvent ponInternalStateEvent o1 (received msgs)
       = Some (o2, [])
       /\ InternalState o2
          = (if String.eqb (InternalState o) "initialized"
                || String.eqb (InternalState o) "disabled"
             then "enabled" else InternalState o)
       /\ (exists chunk,
             sent (OpenoltStream o2)
             = sent (OpenoltStream o)
               ++ (if broken (OpenoltStream o) then []
                   else [Indication_OltInd "up"]) ++ chunk)
       /\ loop_frame o1 o2.
Proof.
  rewrite ReenableOlt_eq. destruct (channel o) eqn:Ec; try done.
  intros [= <- <-]. split; [done|]. split; [done|].
  set (o1 := publishEvent _ _ _ _ o).
  destruct (handleMessage_stream ponOperStateEvent ponInternalStateEvent
              ponOperStateEvent_ID ponInternalStateEvent_ID o1
              (types.OltIndication types.UP) eq_refl)
    as (o' & chunk1 & Hh & Hc & Hs1 & Hb1 & HP & HN).
  destruct (handleMessage_frame _ _ _ _ _ Hh) as [Hf1 Hst1].
  destruct (loop_pon_indications (pon_indications "disabled" types.UP (Pons o)) o')
    as (o2 & Hrun & Hf & Hst & Hb & chunk & Hs).
  { apply forallb_forall. intros m Hm.
    rewrite (addressed_ids o1 o' m HP HN).
    revert m Hm. apply forallb_forall. by apply pon_indications_addressed. }
  { apply forallb_forall. intros m Hm. apply list_elem_of_In in Hm.
    unfold pon_indications in Hm. by apply list_elem_of_fmap in Hm as (pon & -> & _). }
  exists o2. cbn [received fmap list_fmap processOltMessages]. rewrite Hh.
  split; [exact Hrun|]. split; [by rewrite Hst, Hst1|].
  split; [|by eapply loop_frame_trans].
  exists chunk. rewrite Hs, Hs1. unfold corresponds in Hc.
  assert (broken (OpenoltStream o1) = broken (OpenoltStream o)) as Hbr by done.
  assert (sent (OpenoltStream o1) = sent (OpenoltStream o)) as -> by done.
  rewrite <- Hbr. rewrite <- app_assoc.
  destruct (broken (OpenoltStream o1)); by subst chunk1.
Qed.

End Handlers.

Lemma demo_ponOperStateEvent_ID (pon : PonPort.t) (event : string) :
  PonPort.ID (demo_ponOperStateEvent pon event).1 = PonPort.ID pon.
Proof.
  unfold demo_ponOperStateEvent.
  by destruct (fsm.Event OperStateEvents (PonPort.OperState pon) event) as [dst [err|]].
Defined.

Lemma demo_ponInternalStateEvent_ID (pon : PonPort.t) (event : string) :
  PonPort.ID (demo_ponInternalStateEvent pon event).1 = PonPort.ID pon.
Proof.
  unfold demo_ponInternalStateEvent.
  destruct (String.eqb event "enable"); [done|].
  by destruct (String.eqb event "disable").
Defined.

(** [demo_olt] with its PON enabled: one PON-down message, then the
    OLT-down message. *)
Lemma DisableOlt_then_loop_witness :
  exists o1 o2,
    DisableOlt demo_olt_pon_enabled
    = Some (o1, [types.PonIndication types.DOWN 0; types.OltIndication types.DOWN])
    /\ processOltMessages demo_ponOperStateEvent demo_ponInternalStateEvent o1
         (received [types.PonIndication types.DOWN 0; types.OltIndication types.DOWN])
       = Some (o2, [])
    /\ InternalState o2 = "disabled".
Proof.
  destruct (DisableOlt_then_loop demo_ponOperStateEvent demo_ponInternalStateEvent
              demo_ponOperStateEvent_ID demo_ponInternalStateEvent_ID
              demo_olt_pon_enabled
              (publishEvent "OLT-disable-received" (-1) (-1) "" demo_olt_pon_enabled)
              [types.PonIndication types.DOWN 0; types.OltIndication types.DOWN]
              eq_refl)
    as (_ & _ & o2 & Hrun & Hst & _).
  exists (publishEvent "OLT-disable-received" (-1) (-1) "" demo_olt_pon_enabled), o2.
  split; [reflexivity|]. split; [exact Hrun|exact Hst].
Defined.

(** The disabled [demo_olt], whose PON is not disabled: the OLT-up
    message alone. *)
Lemma ReenableOlt_then_loop_witness :
  exists o1 o2,
    ReenableOlt demo_olt_disabled = Some (o1, [types.OltIndication types.UP])
    /\ processOltMessages demo_ponOperStateEvent demo_ponInternalStateEvent o1
         (received [types.OltIndication types.UP]) = Some (o2, [])
    /\ InternalState o2 = "enabled".
Proof.
  destruct (ReenableOlt_then_loop demo_ponOperStateEvent demo_ponInternalStateEvent
              demo_ponOperStateEvent_ID demo_ponInternalStateEvent_ID
              demo_olt_disabled
              (publishEvent "OLT-reenable-received" (-1) (-1) "" demo_olt_disabled)
              [types.OltIndication types.UP] eq_refl)
    as (_ & _ & o2 & Hrun & Hst & _).
  exists (publishEvent "OLT-reenable-received" (-1) (-1) "" demo_olt_disabled), o2.
  split; [reflexivity|]. split; [exact Hrun|exact Hst].
Defined.

(** ** The telemetry loop *)

Lemma stats_loop_from (OltStats : list PortStatistics)
    (ticks : list (OltDevice.t * bool)) (stop : list StatsEvent) :
  stop = [] \/ (exists rest, stop = StatsDone :: rest) ->
  forall c : nat,
  (c < length OltStats)%nat ->
  stats_loop OltStats c (((fun t => Tick t.1 t.2) <$> ticks) ++ stop)
  = Some (concat (imap
            (fun k t => from_option (send25GPortStatsIndication t.1 t.2) []
                          (OltStats !! ((c + k) mod length OltStats)%nat))
            ticks)).
Proof.
  intros Hstop. induction ticks as [|[o flag] ticks IH]; intros c Hc.
  - simpl. by destruct Hstop as [->|[rest ->]].
  - rewrite fmap_cons. cbn [app stats_loop fst snd]. unfold stats_tick.
    destruct (lookup_lt_is_Some_2 OltStats c Hc) as [s Hs]. rewrite Hs.
    set (c' := if Nat.eqb (length OltStats) (S c) then 0%nat else S c).
    assert (Hc' : (c' < length OltStats)%nat).
    { subst c'. destruct (Nat.eqb_spec (length OltStats) (S c)); lia. }
    rewrite (IH c' Hc'). rewrite imap_cons. cbn [concat]. f_equal. f_equal.
    + rewrite Nat.add_0_r, Nat.mod_small by done. by rewrite Hs.
    + f_equal. apply imap_ext. intros k t _. cbn. do 2 f_equal.
      subst c'. destruct (Nat.eqb_spec (length OltStats) (S c)) as [E|E].
      * rewrite E. replace (c + S k)%nat with (k + 1 * S c)%nat by lia.
        by rewrite Nat.Div0.mod_add.
      * f_equal. lia.
Qed.

(** X21: the telemetry loop walks the table of samples round and round.
    With a table that is not empty, the k-th tick reads the sample at
    position k modulo the length of the table, whatever was sent
    before; a sample goes out as one message when the OLT is enabled at
    that moment and the stream takes it, with its interface and counters
    as they are in the table and its BIP errors zeroed as long as the
    latency flag is off; the loop stops at the end of the context.  With
    an empty table the first tick ends the process. *)
Theorem periodicPortStats_cycle (OltStats : list PortStatistics)
    (ticks : list (OltDevice.t * bool)) (stop : list StatsEvent) :
  stop = [] \/ (exists rest, stop = StatsDone :: rest) ->
  (OltStats ≠ [] ->
   periodicPortStats OltStats (((fun t => Tick t.1 t.2) <$> ticks) ++ stop)
   = Some (concat (imap
             (fun k t => from_option (send25GPortStatsIndication t.1 t.2) []
                           (sample_at OltStats k))
             ticks)))
  /\ (forall o latencyFlag rest,
        periodicPortStats [] (Tick o latencyFlag :: rest) = None)
  /\ (forall o latencyFlag stats,
        send25GPortStatsIndication o latencyFlag stats =
        if String.eqb (InternalState o) "enabled" && negb (broken (OpenoltStream o))
        then [ {| ps_IntfId := ps_IntfId stats;
                  ps_BipErrors := if latencyFlag then ps_BipErrors stats else 0;
                  ps_counters := ps_counters stats |} ]
        else []).
Proof.
  intros Hstop. split; [|split].
  - intros Hne. unfold periodicPortStats, sample_at.
    rewrite (stats_loop_from OltStats ticks stop Hstop 0).
    + done.
    + destruct OltStats; [done|simpl; lia].
  - done.
  - intros o latencyFlag stats. unfold send25GPortStatsIndication.
    change OltInternalStateEnabled with "enabled".
    destruct (String.eqb (InternalState o) "enabled"); [|done].
    destruct (broken (OpenoltStream o)); simpl; [done|].
    destruct latencyFlag; [by destruct stats|done].
Qed.

(** Four ticks on the three samples of [demo_stats]: the fourth tick
    reads the first sample again; the second tick finds the OLT
    disabled and sends nothing. *)
Lemma periodicPortStats_cycle_witness :
  periodicPortStats demo_stats demo_ticks
  = Some [ {| ps_IntfId := 0; ps_BipErrors := 0; ps_counters := [10; 20] |};
           {| ps_IntfId := 0; ps_BipErrors := 9; ps_counters := [12; 22] |};
           {| ps_IntfId := 0; ps_BipErrors := 0; ps_counters := [10; 20] |} ].
Proof.
  destruct (periodicPortStats_cycle demo_stats
              [ (demo_olt, false); (demo_olt_disabled, false); (demo_olt, true);
                (demo_olt, false) ] [StatsDone]) as [H _].
  { right. by exists []. }
  exact (H ltac:(done)).
Defined.

(** ** Lookups of an ONU over the whole device *)

(** X22: [FindOnuBySn] and [FindOnuById] find an ONU exactly when the
    device has one: the ONU they return is an ONU of a PON of the device
    with the serial number asked for (with the ID asked for, on a PON
    with the interface ID asked for); when they return an error no PON
    holds such an ONU, and the ONU handed back with the error is the
    empty ONU, not nil. *)
Theorem FindOnu_finds (o : OltDevice.t) :
  (forall serialNumber,
      match FindOnuBySn o serialNumber with
      | (onu, None) =>
          Onu.Sn onu = serialNumber
          /\ exists pon, pon ∈ Pons o /\ onu ∈ PonPort.Onus pon
      | (onu, Some err) =>
          onu = Onu_zero /\ err = ErrCannotFindOnuBySerialNumber serialNumber
          /\ forall pon x, pon ∈ Pons o -> x ∈ PonPort.Onus pon ->
                           Onu.Sn x ≠ serialNumber
      end)
  /\ (forall intfId onuId,
        match FindOnuById o intfId onuId with
        | (onu, None) =>
            Onu.ID onu = onuId
            /\ exists pon, pon ∈ Pons o /\ PonPort.ID pon = intfId
                           /\ onu ∈ PonPort.Onus pon
        | (onu, Some err) =>
            onu = Onu_zero /\ err = ErrCannotFindOnuById intfId onuId
            /\ forall pon x, pon ∈ Pons o -> PonPort.ID pon = intfId ->
                             x ∈ PonPort.Onus pon -> Onu.ID x ≠ onuId
        end).
Proof.
  split.
  - intros sn. unfold FindOnuBySn.
    destruct (first_some _ (Pons o)) as [onu|] eqn:E.
    + apply first_some_Some in E as (pon & Hpon & E).
      apply first_some_Some in E as (x & Hx & E).
      case_decide; [|done]. injection E as ->. split; [done|]. by exists pon.
    + split; [done|]. split; [done|]. intros pon x Hpon Hx Hsn.
      rewrite first_some_None in E. specialize (E pon Hpon).
      rewrite first_some_None in E. specialize (E x Hx).
      by rewrite decide_True in E.
  - intros intfId onuId. unfold FindOnuById.
    destruct (first_some _ (Pons o)) as [onu|] eqn:E.
    + apply first_some_Some in E as (pon & Hpon & E).
      case_decide; [|done].
      apply first_some_Some in E as (x & Hx & E).
      case_decide; [|done]. injection E as ->. split; [done|]. by exists pon.
    + split; [done|]. split; [done|]. intros pon x Hpon Hid Hx Hxid.
      rewrite first_some_None in E. specialize (E pon Hpon).
      rewrite decide_True in E by done.
      rewrite first_some_None in E. specialize (E x Hx).
      by rewrite decide_True in E.
Qed.
